(** * Chanuka pattern scanner: a shallow embedding of
      scripts/archived-analysis-tools/chanuka_error_extractor.py

    The development follows the Python file top to bottom: Python strings,
    the fragment of the [re] module the rule tables need, the [Pattern]
    dataclass, the [ChanukaErrorExtractor] session with its walker, line
    matcher, aggregator and report ordering; then the theorems. *)

From Stdlib Require Import Ascii String DecimalString.
From Stdlib Require Strings.Byte.
From Stdlib Require Import List NArith Arith Bool Lia Permutation Sorted.
Import ListNotations.

Set Implicit Arguments.

(* ================================================================== *)
(** ** Python strings *)

(** A Python [str] is a sequence of Unicode code points. *)
Definition char := N.
Definition str := list char.

(** [u "abc"] is the [str] holding the characters of an ASCII literal. *)
Definition u (s : string) : str := map N_of_ascii (list_ascii_of_string s).

(** The double quote, which the literals below cannot hold. *)
Definition dquote : str := [34%N].

Definition chr (a : ascii) : char := N_of_ascii a.

Fixpoint str_eqb (a b : str) : bool :=
  match a, b with
  | [], [] => true
  | x :: a', y :: b' => N.eqb x y && str_eqb a' b'
  | _, _ => false
  end.

(** [a < b], [a == b], [a > b] on [str]: lexicographic on code points. *)
Fixpoint str_compare (a b : str) : comparison :=
  match a, b with
  | [], [] => Eq
  | [], _ :: _ => Lt
  | _ :: _, [] => Gt
  | x :: a', y :: b' =>
      match N.compare x y with
      | Eq => str_compare a' b'
      | c => c
      end
  end.

(** [x in xs] for a list (or set) of strings. *)
Definition str_in (x : str) (xs : list str) : bool := existsb (str_eqb x) xs.

(** [s.startswith(p)] *)
Fixpoint startswith (s p : str) : bool :=
  match p, s with
  | [], _ => true
  | y :: p', x :: s' => N.eqb x y && startswith s' p'
  | _ :: _, [] => false
  end.

(** [str.isspace] on one character: the code points Python's Unicode
    database classes as whitespace. *)
Definition isspace (c : char) : bool :=
  (((9 <=? c) && (c <=? 13)) || ((28 <=? c) && (c <=? 32))
   || (c =? 133) || (c =? 160) || (c =? 5760)
   || ((8192 <=? c) && (c <=? 8202))
   || (c =? 8232) || (c =? 8233) || (c =? 8239) || (c =? 8287)
   || (c =? 12288))%N.

Fixpoint lstrip (s : str) : str :=
  match s with
  | [] => []
  | c :: s' => if isspace c then lstrip s' else s
  end.

Definition rstrip (s : str) : str := rev (lstrip (rev s)).

(** [s.strip()] *)
Definition strip (s : str) : str := rstrip (lstrip s).

(** [s[:n]] *)
Definition slice_to (n : nat) (s : str) : str := firstn n s.

(** [s.split(sep)] for a one-character separator: never empty. *)
Fixpoint split (sep : char) (s : str) : list str :=
  match s with
  | [] => [[]]
  | c :: s' =>
      if N.eqb c sep then [] :: split sep s'
      else match split sep s' with
           | [] => [[c]]
           | w :: ws => (c :: w) :: ws
           end
  end.

(** [sep.join(parts)] *)
Fixpoint join (sep : str) (parts : list str) : str :=
  match parts with
  | [] => []
  | [p] => p
  | p :: ps => p ++ sep ++ join sep ps
  end.

(** [s.lower()] on the ASCII letters.  No character outside ASCII lowers
    to one of the letters of the four extensions the scanner knows, so the
    extension test below is the same as with the full Unicode mapping. *)
Definition lower_char (c : char) : char :=
  (if (65 <=? c) && (c <=? 90) then c + 32 else c)%N.
Definition lower (s : str) : str := map lower_char s.

(** [str(n)] for a non-negative integer. *)
Definition str_of_nat (n : nat) : str :=
  u (NilZero.string_of_uint (Nat.to_uint n)).

Definition NL : char := 10%N.

(* ================================================================== *)
(** ** The [re] module

    The rules are Python regular expressions, compiled by [re.compile] and
    tried with [Pattern.search].  [ReEngine] is that interface; the scanner
    and its general theorems are stated over any engine.  [re] below is a
    model of the library on the fragment of the syntax that the four rule
    tables are written in, used to run the scanner on concrete lines. *)

Inductive result (A : Type) : Type :=
| Ok (a : A)
| Err (msg : str).
Arguments Ok {A} a.
Arguments Err {A} msg.

Class ReEngine : Type := {
  re_Pattern : Type;
  (** [re.compile(regex)]: a compiled pattern, or [re.error] with its text *)
  re_compile : str -> result re_Pattern;
  (** [bool(compiled.search(line))] *)
  re_search : re_Pattern -> str -> bool
}.

Module re.

(** One member of a character set. *)
Inductive item : Type :=
| ILit (c : char)
| IRange (lo hi : char)
| ISpace (negated : bool)
| IWord (negated : bool).

Inductive regex : Type :=
| Eps
| Lit (c : char)
| AnyChar
| CharSet (negated : bool) (items : list item)
| Boundary
| Bol
| Eol
| Seq (r1 r2 : regex)
| Alt (r1 r2 : regex)
| Repeat (lo : nat) (hi : option nat) (r : regex)
| Look (behind negated : bool) (r : regex).

(** The width of what [r] matches when it is the same for every match,
    as a look-behind needs it. *)
Fixpoint width (r : regex) : option nat :=
  match r with
  | Eps | Boundary | Bol | Eol | Look _ _ _ => Some 0
  | Lit _ | AnyChar | CharSet _ _ => Some 1
  | Seq r1 r2 =>
      match width r1, width r2 with
      | Some a, Some b => Some (a + b)
      | _, _ => None
      end
  | Alt r1 r2 =>
      match width r1, width r2 with
      | Some a, Some b => if a =? b then Some a else None
      | _, _ => None
      end
  | Repeat lo (Some hi) r1 =>
      match width r1 with
      | Some a => if lo =? hi then Some (lo * a) else None
      | None => None
      end
  | Repeat _ None _ => None
  end.

Section Matching.

(** [str.isalnum] on the characters outside ASCII comes from the Unicode
    database, which stays a parameter. *)
Variable ucd_alnum : char -> bool.

Definition ascii_alnum (c : char) : bool :=
  (((48 <=? c) && (c <=? 57)) || ((65 <=? c) && (c <=? 90))
   || ((97 <=? c) && (c <=? 122)))%N.

(** [\w] on a [str] pattern: alphanumeric or the underscore. *)
Definition is_word (c : char) : bool :=
  if (c <? 128)%N then ascii_alnum c || (c =? 95)%N else ucd_alnum c.

Definition item_matches (c : char) (i : item) : bool :=
  match i with
  | ILit x => N.eqb c x
  | IRange lo hi => ((lo <=? c) && (c <=? hi))%N
  | ISpace neg => xorb neg (isspace c)
  | IWord neg => xorb neg (is_word c)
  end.

Definition word_before (pre : str) : bool :=
  match pre with c :: _ => is_word c | [] => false end.

(** A backtracking matcher in continuation style.  The subject is split at
    the current position into the text before it, reversed, and the text
    after it; [k] is what remains to be matched once [r] has matched. *)
Fixpoint matches (r : regex) (pre rest : str) (k : str -> str -> bool)
  {struct r} : bool :=
  match r with
  | Eps => k pre rest
  | Lit c =>
      match rest with
      | x :: rest' => N.eqb x c && k (x :: pre) rest'
      | [] => false
      end
  | AnyChar =>
      match rest with
      | x :: rest' => negb (N.eqb x NL) && k (x :: pre) rest'
      | [] => false
      end
  | CharSet neg items =>
      match rest with
      | x :: rest' =>
          xorb neg (existsb (item_matches x) items) && k (x :: pre) rest'
      | [] => false
      end
  | Boundary => xorb (word_before pre) (word_before rest) && k pre rest
  | Bol => match pre with [] => k pre rest | _ :: _ => false end
  | Eol =>
      match rest with
      | [] => k pre rest
      | [x] => N.eqb x NL && k pre rest
      | _ => false
      end
  | Seq r1 r2 => matches r1 pre rest (fun pre' rest' => matches r2 pre' rest' k)
  | Alt r1 r2 => matches r1 pre rest k || matches r2 pre rest k
  | Repeat lo hi r1 =>
      (fix loop (fuel n : nat) (pre rest : str) {struct fuel} : bool :=
         match fuel with
         | O => false
         | S fuel' =>
             ((match hi with Some h => n <? h | None => true end)
              && matches r1 pre rest
                   (fun pre' rest' =>
                      ((length rest' <? length rest) || (n <? lo))
                      && loop fuel' (S n) pre' rest'))
             || ((lo <=? n) && k pre rest)
         end) (lo + length rest + 1) 0 pre rest
  | Look behind neg r1 =>
      let found :=
        if behind then
          match width r1 with
          | Some w =>
              (w <=? length pre)
              && matches r1 (skipn w pre) (rev (firstn w pre) ++ rest)
                   (fun _ rest' => length rest' =? length rest)
          | None => false
          end
        else matches r1 pre rest (fun _ _ => true)
      in xorb neg found && k pre rest
  end.

(** [search]: a match starting at some position of the subject. *)
Fixpoint search_from (r : regex) (pre rest : str) : bool :=
  matches r pre rest (fun _ _ => true)
  || match rest with
     | [] => false
     | c :: rest' => search_from r (c :: pre) rest'
     end.

Definition search (r : regex) (s : str) : bool := search_from r [] s.

End Matching.

(** *** Parsing a pattern

    What [re.compile] does with the source text: the syntax errors it
    raises carry the texts CPython gives them.  Syntax that is legal in
    Python and outside the modelled fragment is reported as an error whose
    text starts with [not modelled]; no rule of the scanner uses any. *)

Definition ch (s : string) : char :=
  match s with
  | String a _ => N_of_ascii a
  | EmptyString => 0%N
  end.

Definition isc (c : char) (s : string) : bool := N.eqb c (ch s).

Definition is_digit (c : char) : bool := ((48 <=? c) && (c <=? 57))%N.
Definition is_letter (c : char) : bool :=
  (((65 <=? c) && (c <=? 90)) || ((97 <=? c) && (c <=? 122)))%N.
Definition is_hex (c : char) : bool :=
  (is_digit c || ((65 <=? c) && (c <=? 70)) || ((97 <=? c) && (c <=? 102)))%N.
Definition hex_val (c : char) : N :=
  (if is_digit c then c - 48
   else if (97 <=? c) then c - 87 else c - 55)%N.

(** [source.getwhile(n, charset)] *)
Fixpoint getwhile (n : nat) (p : char -> bool) (s : str) : str * str :=
  match n, s with
  | S n', c :: s' =>
      if p c then let '(a, b) := getwhile n' p s' in (c :: a, b) else ([], s)
  | _, _ => ([], s)
  end.

Definition int_of_digits (ds : str) : nat :=
  fold_left (fun acc d => 10 * acc + N.to_nat (d - 48)) ds 0.
Definition int_of_hex (ds : str) : N :=
  fold_left (fun acc d => 16 * acc + hex_val d)%N ds 0%N.

Section Parser.

(** The length of the whole pattern: error positions count from its start. *)
Variable total : nat.

Definition error {A : Type} (msg : str) (position : nat) : result A :=
  Err (msg ++ u " at position " ++ str_of_nat position).

Definition tell (s : str) : nat := total - length s.

(** [\n], [\t] and the like, the same inside and outside a set. *)
Definition control_escape (c : char) : option char :=
  if isc c "n" then Some 10%N else if isc c "t" then Some 9%N
  else if isc c "r" then Some 13%N else if isc c "f" then Some 12%N
  else if isc c "v" then Some 11%N else if isc c "a" then Some 7%N
  else None.

(** [\xhh], [\uhhhh]: exactly [n] hexadecimal digits. [s] follows the
    letter; [at] is the position of the backslash. *)
Definition hex_escape (letter : char) (n : nat) (s : str) (at_ : nat)
  : result (char * str) :=
  let '(ds, s') := getwhile n is_hex s in
  if length ds =? n then Ok (int_of_hex ds, s')
  else error (u "incomplete escape \" ++ letter :: ds) at_.

(** An escape inside a set; [s] follows the backslash. *)
Definition class_escape (s : str) : result (item * str) :=
  let at_ := tell s - 1 in
  match s with
  | [] => error (u "bad escape (end of pattern)") at_
  | c :: s' =>
      if isc c "s" then Ok (ISpace false, s')
      else if isc c "S" then Ok (ISpace true, s')
      else if isc c "w" then Ok (IWord false, s')
      else if isc c "W" then Ok (IWord true, s')
      else if isc c "b" then Ok (ILit 8%N, s')
      else if isc c "x" then
        match hex_escape c 2 s' at_ with
        | Ok (x, s'') => Ok (ILit x, s'')
        | Err e => Err e
        end
      else if isc c "u" then
        match hex_escape c 4 s' at_ with
        | Ok (x, s'') => Ok (ILit x, s'')
        | Err e => Err e
        end
      else match control_escape c with
      | Some x => Ok (ILit x, s')
      | None =>
          if isc c "d" || isc c "D" || isc c "U" || isc c "N" || is_digit c
          then Err (u "not modelled: escape \" ++ [c])
          else if is_letter c then error (u "bad escape \" ++ [c]) at_
          else Ok (ILit c, s')
      end
  end.

(** An escape outside a set; [s] follows the backslash. *)
Definition escape (s : str) : result (regex * str) :=
  let at_ := tell s - 1 in
  match s with
  | [] => error (u "bad escape (end of pattern)") at_
  | c :: s' =>
      if isc c "s" then Ok (CharSet false [ISpace false], s')
      else if isc c "S" then Ok (CharSet false [ISpace true], s')
      else if isc c "w" then Ok (CharSet false [IWord false], s')
      else if isc c "W" then Ok (CharSet false [IWord true], s')
      else if isc c "b" then Ok (Boundary, s')
      else if isc c "x" then
        match hex_escape c 2 s' at_ with
        | Ok (x, s'') => Ok (Lit x, s'')
        | Err e => Err e
        end
      else if isc c "u" then
        match hex_escape c 4 s' at_ with
        | Ok (x, s'') => Ok (Lit x, s'')
        | Err e => Err e
        end
      else match control_escape c with
      | Some x => Ok (Lit x, s')
      | None =>
          if isc c "d" || isc c "D" || isc c "U" || isc c "N" || isc c "B"
             || isc c "A" || isc c "Z" || isc c "z" || is_digit c
          then Err (u "not modelled: escape \" ++ [c])
          else if is_letter c then error (u "bad escape \" ++ [c]) at_
          else Ok (Lit c, s')
      end
  end.

(** The members of a set up to its closing bracket; [s] follows the
    opening bracket and the caret, [open_] is the position of the bracket,
    [first] says that no member has been read yet. *)
Fixpoint class_items (fuel : nat) (open_ : nat) (first : bool) (s : str)
  (acc : list item) : result (list item * str) :=
  match fuel with
  | O => error (u "unterminated character set") open_
  | S fuel' =>
      match s with
      | [] => error (u "unterminated character set") open_
      | c :: s1 =>
          if isc c "]" && negb first then Ok (rev acc, s1)
          else
            let member :=
              if isc c "\" then class_escape s1 else Ok (ILit c, s1) in
            match member with
            | Err e => Err e
            | Ok (i1, s2) =>
                match s2 with
                | d :: s3 =>
                    if isc d "-" then
                      match s3 with
                      | [] => error (u "unterminated character set") open_
                      | e :: s4 =>
                          if isc e "]" then Ok (rev (ILit d :: i1 :: acc), s4)
                          else
                            let upper :=
                              if isc e "\" then class_escape s4
                              else Ok (ILit e, s4) in
                            match upper with
                            | Err e' => Err e'
                            | Ok (i2, s5) =>
                                match i1, i2 with
                                | ILit lo, ILit hi =>
                                    if (hi <? lo)%N
                                    then error (u "bad character range")
                                           (tell s)
                                    else class_items fuel' open_ false s5
                                           (IRange lo hi :: acc)
                                | _, _ =>
                                    error (u "bad character range") (tell s)
                                end
                            end
                      end
                    else class_items fuel' open_ false s2 (i1 :: acc)
                | [] => class_items fuel' open_ false s2 (i1 :: acc)
                end
            end
      end
  end.

(** A counted repeat; [s] follows the opening brace.  [None]: the brace is
    an ordinary character. *)
Definition braces (s : str) : option (nat * option nat * str) :=
  match s with
  | [] => None
  | c0 :: _ =>
      if isc c0 "}" then None
      else
        let '(lo, s1) := getwhile (length s) is_digit s in
        let '(hi, s2) :=
          match s1 with
          | c :: s1' =>
              if isc c "," then getwhile (length s1') is_digit s1'
              else (lo, s1)
          | [] => (lo, s1)
          end in
        match s2 with
        | c :: s3 =>
            if isc c "}" then
              Some (int_of_digits lo,
                    match hi with [] => None | _ => Some (int_of_digits hi) end,
                    s3)
            else None
        | [] => None
        end
  end.

(** The repeat that starts [s], if one does. *)
Definition quantifier (s : str) : option (nat * option nat * str) :=
  match s with
  | c :: s' =>
      if isc c "*" then Some (0, None, s')
      else if isc c "+" then Some (1, None, s')
      else if isc c "?" then Some (0, Some 1, s')
      else if isc c "{" then braces s'
      else None
  | [] => None
  end.

(** Applies to [r] the repeat that follows it, if any. *)
Definition repeated (r : regex) (s : str) : result (regex * str) :=
  match quantifier s with
  | None => Ok (r, s)
  | Some (lo, hi, s1) =>
      match r with
      | Boundary | Bol | Eol => error (u "nothing to repeat") (tell s)
      | _ =>
          if match hi with Some h => h <? lo | None => false end
          then error (u "min repeat greater than max repeat") (tell s + 1)
          else
            let lazy_ := match s1 with c :: _ => isc c "?" | [] => false end in
            let possessive :=
              match s1 with c :: _ => isc c "+" | [] => false end in
            if possessive then Err (u "not modelled: possessive repeat")
            else
              let s2 := if lazy_ then tl s1 else s1 in
              match quantifier s2 with
              | Some _ => error (u "multiple repeat") (tell s2)
              | None => Ok (Repeat lo hi r, s2)
              end
      end
  end.

Fixpoint parse_alt (fuel : nat) (s : str) : result (regex * str) :=
  match fuel with
  | O => Err (u "not modelled: pattern too long")
  | S fuel' =>
      match parse_seq fuel' s with
      | Err e => Err e
      | Ok (r1, s1) =>
          match s1 with
          | c :: s2 =>
              if isc c "|" then
                match parse_alt fuel' s2 with
                | Err e => Err e
                | Ok (r2, s3) => Ok (Alt r1 r2, s3)
                end
              else Ok (r1, s1)
          | [] => Ok (r1, s1)
          end
      end
  end

with parse_seq (fuel : nat) (s : str) : result (regex * str) :=
  match fuel with
  | O => Err (u "not modelled: pattern too long")
  | S fuel' =>
      match s with
      | [] => Ok (Eps, s)
      | c :: _ =>
          if isc c "|" || isc c ")" then Ok (Eps, s)
          else
            match parse_atom fuel' s with
            | Err e => Err e
            | Ok (r0, s0) =>
                match repeated r0 s0 with
                | Err e => Err e
                | Ok (r1, s1) =>
                    match parse_seq fuel' s1 with
                    | Err e => Err e
                    | Ok (r2, s2) => Ok (Seq r1 r2, s2)
                    end
                end
            end
      end
  end

with parse_atom (fuel : nat) (s : str) : result (regex * str) :=
  match fuel with
  | O => Err (u "not modelled: pattern too long")
  | S fuel' =>
      match s with
      | [] => Ok (Eps, s)
      | c :: s1 =>
          if isc c "(" then
            let '(kind, s2) :=
              match s1 with
              | q :: x :: s' =>
                  if isc q "?" then
                    if isc x ":" then (Some None, s')
                    else if isc x "=" then (Some (Some (false, false)), s')
                    else if isc x "!" then (Some (Some (false, true)), s')
                    else if isc x "<" then
                      match s' with
                      | y :: s'' =>
                          if isc y "=" then (Some (Some (true, false)), s'')
                          else if isc y "!" then (Some (Some (true, true)), s'')
                          else (None, s1)
                      | [] => (None, s1)
                      end
                    else (None, s1)
                  else (Some None, s1)
              | _ => (Some None, s1)
              end in
            match kind with
            | None => Err (u "not modelled: group extension")
            | Some look =>
                match parse_alt fuel' s2 with
                | Err e => Err e
                | Ok (r, s3) =>
                    match s3 with
                    | d :: s4 =>
                        if isc d ")" then
                          match look with
                          | None => Ok (r, s4)
                          | Some (behind, neg) =>
                              if behind && match width r with
                                           | None => true
                                           | Some _ => false
                                           end
                              then Err (u "look-behind requires fixed-width pattern")
                              else Ok (Look behind neg r, s4)
                          end
                        else error (u "missing ), unterminated subpattern")
                               (tell s)
                    | [] => error (u "missing ), unterminated subpattern")
                              (tell s)
                    end
                end
            end
          else if isc c "[" then
            let '(neg, s2) :=
              match s1 with
              | x :: s' => if isc x "^" then (true, s') else (false, s1)
              | [] => (false, s1)
              end in
            match class_items (S (length s2)) (tell s) true s2 [] with
            | Err e => Err e
            | Ok (items, s3) => Ok (CharSet neg items, s3)
            end
          else if isc c "\" then escape s1
          else if isc c "." then Ok (AnyChar, s1)
          else if isc c "^" then Ok (Bol, s1)
          else if isc c "$" then Ok (Eol, s1)
          else
            match quantifier s with
            | Some _ => error (u "nothing to repeat") (tell s)
            | None => Ok (Lit c, s1)
            end
      end
  end.

End Parser.

(** [re.compile(pattern)] *)
Definition compile (pattern : str) : result regex :=
  let total := length pattern in
  match parse_alt total (4 * total + 4) pattern with
  | Err e => Err e
  | Ok (r, []) => Ok r
  | Ok (_, rest) => error (u "unbalanced parenthesis") (tell total rest)
  end.

End re.

(** Python's engine on the modelled fragment, over any Unicode database. *)
Definition PyRe (ucd_alnum : char -> bool) : ReEngine := {|
  re_Pattern := re.regex;
  re_compile := re.compile;
  re_search := re.search ucd_alnum
|}.

(* ================================================================== *)
(** ** Paths and the file system *)

(** A [pathlib.Path], absolute: its parts below the anchor. *)
Definition Path := list str.

Definition sep : str := u "/".

(** [str(path)] *)
Definition str_of_Path (p : Path) : str := sep ++ join sep p.

(** [Path(text)]: empty parts and single dots are dropped. *)
Definition Path_of_str (text : str) : Path :=
  filter (fun part => negb (str_eqb part []) && negb (str_eqb part (u ".")))
         (split (re.ch "/") text).

(** [path.relative_to(base)]: [None] stands for [ValueError]. *)
Fixpoint relative_to (path base : Path) : option Path :=
  match base, path with
  | [], _ => Some path
  | b :: base', x :: path' =>
      if str_eqb x b then relative_to path' base' else None
  | _ :: _, [] => None
  end.

(** [str] of a relative path: the empty one prints as a dot. *)
Definition str_of_relative (p : Path) : str :=
  match p with
  | [] => u "."
  | _ => join sep p
  end.

(** [name.rfind(c)] *)
Fixpoint rfind (c : char) (name : str) : option nat :=
  match name with
  | [] => None
  | x :: name' =>
      match rfind c name' with
      | Some i => Some (S i)
      | None => if N.eqb x c then Some 0 else None
      end
  end.

(** [path.suffix] on the final component: from its last dot, unless the
    dot starts or ends the name. *)
Definition suffix (name : str) : str :=
  match rfind (re.ch ".") name with
  | Some i => if (0 <? i) && (i <? length name - 1) then skipn i name else []
  | None => []
  end.

(** What [open(path).read()] meets: the bytes of the file, or an exception
    ([OSError] and the like) of which the scanner keeps [str(e)]. *)
Inductive read_outcome : Type :=
| Bytes (data : list Byte.byte)
| Raises (e : str).

(** A directory tree.  A directory whose listing is [None] cannot be
    listed ([scandir] fails on it). *)
#[warnings="-register-all"]
Inductive entry : Type :=
| File (name : str) (content : read_outcome)
| Dir (name : str) (listing : option (list entry)).

Definition entry_name (e : entry) : str :=
  match e with
  | File n _ => n
  | Dir n _ => n
  end.

(** The non-directories of a listing, in listing order. *)
Fixpoint files_of (es : list entry) : list (str * read_outcome) :=
  match es with
  | [] => []
  | File n c :: es' => (n, c) :: files_of es'
  | Dir _ _ :: es' => files_of es'
  end.

(** [os.walk(top)], top-down, consumed by a loop whose body filters the
    yielded [dirs] list in place with [keep] before the generator resumes:
    the generator owns that list and descends into what is left of it.  A
    yield is [(root, files)]; a directory that cannot be listed yields
    nothing, the error being dropped ([onerror] is not given).  The name
    of the entry walked is never looked at: [top] is its path. *)
Fixpoint os_walk (keep : str -> bool) (top : Path) (e : entry)
  : list (Path * list (str * read_outcome)) :=
  match e with
  | File _ _ => []
  | Dir _ None => []
  | Dir _ (Some es) =>
      (top, files_of es)
      :: flat_map (fun e' =>
                     match e' with
                     | Dir n _ =>
                         if keep n then os_walk keep (top ++ [n]) e' else []
                     | File _ _ => []
                     end) es
  end.

(** The entry at a relative path below a directory entry. *)
Fixpoint find_entry (name : str) (es : list entry) : option entry :=
  match es with
  | [] => None
  | e :: es' => if str_eqb (entry_name e) name then Some e else find_entry name es'
  end.

Fixpoint lookup (e : entry) (rel : Path) : option entry :=
  match rel with
  | [] => Some e
  | n :: rel' =>
      match e with
      | Dir _ (Some es) =>
          match find_entry n es with
          | Some e' => lookup e' rel'
          | None => None
          end
      | _ => None
      end
  end.

Definition is_dir (e : entry) : bool :=
  match e with Dir _ _ => true | File _ _ => false end.

(** *** Reading text

    [open(path, 'r', encoding='utf-8', errors='ignore')]: the bytes are
    decoded as UTF-8, every ill-formed sequence being dropped, and line
    ends are translated (universal newlines). *)

Definition is_continuation (b : N) : bool := ((128 <=? b) && (b <=? 191))%N.

(** The second byte a three- or four-byte lead allows. *)
Definition second_ok (lead b : N) : bool :=
  (is_continuation b
   && (if lead =? 224 then 160 <=? b
       else if lead =? 237 then b <=? 159
       else if lead =? 240 then 144 <=? b
       else if lead =? 244 then b <=? 143
       else true))%N.

Fixpoint utf8_ignore (bs : list N) : str :=
  match bs with
  | [] => []
  | b0 :: r0 =>
      if (b0 <? 128)%N then b0 :: utf8_ignore r0
      else if (b0 <? 194)%N then utf8_ignore r0
      else if (b0 <? 224)%N then
        match r0 with
        | b1 :: r1 =>
            if is_continuation b1
            then ((b0 - 192) * 64 + (b1 - 128))%N :: utf8_ignore r1
            else utf8_ignore r0
        | [] => []
        end
      else if (b0 <? 240)%N then
        match r0 with
        | b1 :: r1 =>
            if second_ok b0 b1 then
              match r1 with
              | b2 :: r2 =>
                  if is_continuation b2
                  then ((b0 - 224) * 4096 + (b1 - 128) * 64 + (b2 - 128))%N
                       :: utf8_ignore r2
                  else utf8_ignore r1
              | [] => []
              end
            else utf8_ignore r0
        | [] => []
        end
      else if (b0 <? 245)%N then
        match r0 with
        | b1 :: r1 =>
            if second_ok b0 b1 then
              match r1 with
              | b2 :: r2 =>
                  if is_continuation b2 then
                    match r2 with
                    | b3 :: r3 =>
                        if is_continuation b3
                        then ((b0 - 240) * 262144 + (b1 - 128) * 4096
                              + (b2 - 128) * 64 + (b3 - 128))%N
                             :: utf8_ignore r3
                        else utf8_ignore r2
                    | [] => []
                    end
                  else utf8_ignore r1
              | [] => []
              end
            else utf8_ignore r0
        | [] => []
        end
      else utf8_ignore r0
  end.

(** Universal newlines: a carriage return, with the line feed after it if
    there is one, reads as one line feed. *)
Fixpoint universal_newlines (s : str) : str :=
  match s with
  | [] => []
  | c :: s' =>
      if (c =? 13)%N then
        match s' with
        | d :: s'' => if (d =? 10)%N then NL :: universal_newlines s''
                      else NL :: universal_newlines s'
        | [] => [NL]
        end
      else c :: universal_newlines s'
  end.

(** [with open(...) as f: content = f.read()] *)
Definition read_text (o : read_outcome) : result str :=
  match o with
  | Bytes data => Ok (universal_newlines (utf8_ignore (map Byte.to_N data)))
  | Raises e => Err e
  end.

(* ================================================================== *)
(** ** Findings *)

(** The dictionary [add_error] builds, one field per key. *)
Module Finding.
Record t : Type := make {
  file : str;
  relative_path : str;
  module : str;
  error_type : str;
  severity : str;
  message : str;
  line : nat;
  column : nat;
  timestamp : str;
  code_snippet : str
}.

Definition set_timestamp (f : t) (time : str) : t :=
  make (file f) (relative_path f) (module f) (error_type f) (severity f)
       (message f) (line f) (column f) time (code_snippet f).

(** The finding without the time it was recorded at. *)
Definition untimed (f : t) : t := set_timestamp f [].
End Finding.

(* ================================================================== *)
(** ** Built-ins: [sorted], [enumerate], counting dictionaries *)

Section Sorted.
Variable A : Type.
(** [le a b]: the key of [a] is not greater than the key of [b]. *)
Variable le : A -> A -> bool.

Fixpoint insert (x : A) (l : list A) : list A :=
  match l with
  | [] => [x]
  | y :: l' => if le x y then x :: l else y :: insert x l'
  end.

(** [sorted(l, key=...)].  Python's sort is stable; so is this one, and a
    stable sort has one result (see [sorted_unique]). *)
Fixpoint sorted (l : list A) : list A :=
  match l with
  | [] => []
  | x :: l' => insert x (sorted l')
  end.

(** Two elements with the same key. *)
Definition same_key (a b : A) : bool := le a b && le b a.
End Sorted.

(** [enumerate(l, start)] *)
Definition enumerate (A : Type) (start : nat) (l : list A) : list (nat * A) :=
  combine (seq start (length l)) l.

(** A [defaultdict(int)], then [dict]: keys in the order of their first
    insertion, which is the order [items()] gives them in. *)
Definition counter := list (str * nat).

(** [d[k] += 1] *)
Fixpoint incr (k : str) (d : counter) : counter :=
  match d with
  | [] => [(k, 1)]
  | (k', n) :: d' =>
      if str_eqb k' k then (k', S n) :: d' else (k', n) :: incr k d'
  end.

(** [d.get(k, 0)] *)
Fixpoint get (k : str) (d : counter) : nat :=
  match d with
  | [] => 0
  | (k', n) :: d' => if str_eqb k' k then n else get k d'
  end.

(** [sorted(d.items(), key=lambda x: x[1], reverse=True)]: a reversed
    sort keeps the first-met of two equal counts first. *)
Definition by_count_desc (a b : str * nat) : bool := snd b <=? snd a.

Definition most_common (d : counter) : list (str * nat) :=
  sorted by_count_desc d.

(** The [stats] dictionary of [generate_statistics]. *)
Record Statistics : Type := {
  total_errors : nat;
  by_severity : counter;
  by_type : counter;
  by_module : counter;
  by_file : counter;
  top_errors : list (str * nat);
  critical_files : list (str * nat)
}.

(** One turn of the loop of [generate_statistics]: four counters, one
    increment each. *)
Definition tally (acc : counter * counter * counter * counter)
  (error : Finding.t) : counter * counter * counter * counter :=
  let '(sev, typ, mod_, fil) := acc in
  (incr (Finding.severity error) sev, incr (Finding.error_type error) typ,
   incr (Finding.module error) mod_, incr (Finding.relative_path error) fil).

(** The sort key of [save_to_json]: a severity rank, the file, the line. *)
Definition severity_rank (severity : str) : nat :=
  if str_eqb severity (u "critical") then 0
  else if str_eqb severity (u "error") then 1
  else if str_eqb severity (u "warning") then 2
  else if str_eqb severity (u "info") then 3
  else 4.

Definition report_key (x : Finding.t) : nat * str * nat :=
  (severity_rank (Finding.severity x), Finding.file x, Finding.line x).

(** Tuple comparison [a <= b], component by component. *)
Definition key_le (a b : nat * str * nat) : bool :=
  let '(ra, fa, la) := a in
  let '(rb, fb, lb) := b in
  match Nat.compare ra rb with
  | Lt => true
  | Gt => false
  | Eq =>
      match str_compare fa fb with
      | Lt => true
      | Gt => false
      | Eq => la <=? lb
      end
  end.

Definition report_le (a b : Finding.t) : bool :=
  key_le (report_key a) (report_key b).

Record Metadata : Type := {
  project : str;
  scan_date : str;
  root_directory : str;
  md_total_errors : nat;
  files_scanned : nat;
  lines_scanned : nat;
  tool : str;
  version : str
}.

(** The [output] dictionary that [save_to_json] dumps. *)
Record Output : Type := {
  metadata : Metadata;
  statistics : Statistics;
  out_errors : list Finding.t
}.

(* ================================================================== *)
(** ** The scanner *)

Section Scanner.

Context {E : ReEngine}.

(** [datetime.now().isoformat()] at the [n]-th reading of the clock. *)
Variable now : nat -> str.

(** *** [Pattern] *)

Record Pattern : Type := {
  name : str;
  regex : str;
  severity : str;
  message : str;
  compiled : option re_Pattern
}.

(** [Pattern(name, regex, severity, message)]: the generated constructor
    and [__post_init__]; the second component is what gets printed. *)
Definition Pattern_init (name regex severity message : str)
  : Pattern * list str :=
  match re_compile regex with
  | Ok c => (Build_Pattern name regex severity message (Some c), [])
  | Err e =>
      (Build_Pattern name regex severity message None,
       [u "Warning: Invalid regex for " ++ name ++ u ": " ++ e])
  end.

(** A list display of constructor calls, evaluated left to right. *)
Fixpoint Patterns (args : list (str * str * str * str))
  : list Pattern * list str :=
  match args with
  | [] => ([], [])
  | (n, r, s, m) :: args' =>
      let '(p, out1) := Pattern_init n r s m in
      let '(ps, out2) := Patterns args' in
      (p :: ps, out1 ++ out2)
  end.

(** The generated [__eq__]: field by field.  Two compiled patterns are
    equal when they come from the same source text, which the [regex]
    fields already compare; what is left is whether both compiled. *)
Definition Pattern_eqb (p q : Pattern) : bool :=
  str_eqb (name p) (name q) && str_eqb (regex p) (regex q)
  && str_eqb (severity p) (severity q) && str_eqb (message p) (message q)
  && Bool.eqb (match compiled p with Some _ => true | None => false end)
              (match compiled q with Some _ => true | None => false end).

(** [pattern in patterns] *)
Definition Pattern_in (p : Pattern) (ps : list Pattern) : bool :=
  existsb (Pattern_eqb p) ps.

(** *** The rule tables *)

Definition typescript_rules : list (str * str * str * str) :=
  [ (u "any_usage", u ":\s*any\b|<any>|as\s+any\b", u "warning",
     u "Usage of " ++ dquote ++ u "any" ++ dquote ++ u " type reduces type safety");
    (u "ts_ignore", u "@ts-ignore", u "warning",
     u "TypeScript error suppression found");
    (u "ts_nocheck", u "@ts-nocheck", u "error",
     u "Entire file TypeScript checking disabled");
    (u "ts_expect_error", u "@ts-expect-error(?!\s*:\s*.+)", u "info",
     u "Expected TypeScript error (consider adding comment)");
    (u "non_null_assertion", u "!\s*[;\.\[\(]", u "warning",
     u "Non-null assertion operator (!) used - ensure safety");
    (u "unknown_type", u ":\s*unknown\b", u "info",
     u "Unknown type used (safer than any, but consider specifics)");
    (u "type_assertion", u "as\s+\w+", u "info",
     u "Type assertion used - verify correctness") ].

Definition react_rules : list (str * str * str * str) :=
  [ (u "missing_key_prop",
     u "\.map\([^)]*\)\s*=>\s*<\w+[^>]*(?<!key=)[^>]*>", u "warning",
     u "Missing " ++ dquote ++ u "key" ++ dquote ++ u " prop in mapped component");
    (u "inline_function",
     u "(onClick|onChange|onSubmit|onBlur|onFocus)=\{[^}]*=>", u "info",
     u "Inline function in JSX (may cause unnecessary re-renders)");
    (u "direct_state_mutation", u "(state|this\.state)\.\w+\s*=(?!=)",
     u "error", u "Direct state mutation detected - use setState");
    (u "empty_deps", u "useEffect\([^)]+,\s*\[\s*\]\s*\)", u "info",
     u "useEffect with empty dependency array (runs once on mount)");
    (u "missing_deps", u "useEffect\([^)]+\)\s*(?!,)", u "warning",
     u "useEffect without dependency array (runs on every render)");
    (u "useState_initial", u "useState\(\s*\{|\useState\(\s*\[", u "info",
     u "useState with object/array - ensure intentional");
    (u "dangerously_set", u "dangerouslySetInnerHTML", u "warning",
     u "dangerouslySetInnerHTML used - XSS risk") ].

Definition common_rules : list (str * str * str * str) :=
  [ (u "TODO", u "//\s*TODO|/\*\s*TODO|#\s*TODO", u "warning", u "TODO comment");
    (u "FIXME", u "//\s*FIXME|/\*\s*FIXME|#\s*FIXME", u "error", u "FIXME comment");
    (u "BUG", u "//\s*BUG|/\*\s*BUG|#\s*BUG", u "critical", u "BUG comment");
    (u "HACK", u "//\s*HACK|/\*\s*HACK|#\s*HACK", u "warning", u "HACK comment");
    (u "XXX", u "//\s*XXX|/\*\s*XXX|#\s*XXX", u "warning", u "XXX comment");
    (u "console.log", u "console\.log\(", u "info", u "Debug console.log");
    (u "console.error", u "console\.error\(", u "info", u "Console.error");
    (u "debugger", u "\bdebugger\b(?!:)", u "warning", u "Debugger statement");
    (u "alert", u "\balert\s*\(", u "warning", u "Alert statement");
    (u "confirm", u "\bconfirm\s*\(", u "warning", u "Confirm dialog");
    (u "eval", u "\beval\s*\(", u "critical", u "eval() used - security risk");
    (u "localStorage", u "localStorage\.(getItem|setItem|removeItem|clear)",
     u "info", u "Direct localStorage usage");
    (u "sessionStorage", u "sessionStorage\.(getItem|setItem|removeItem|clear)",
     u "info", u "Direct sessionStorage usage");
    (u "fetch_no_catch",
     u "fetch\([^)]+\)(?!\s*\.catch|\s*\.then\([^)]*,[^)]*\))", u "warning",
     u "Fetch without error handling");
    (u "async_no_await", u "async\s+function[^{]*{(?!.*await)", u "warning",
     u "Async function without await");
    (u "empty_catch", u "catch\s*\([^)]*\)\s*{\s*}", u "warning",
     u "Empty catch block - handle errors properly") ].

Definition import_rules : list (str * str * str * str) :=
  [ (u "wildcard_import", u "import\s+\*\s+as\s+\w+\s+from", u "warning",
     u "Wildcard import (affects tree-shaking)");
    (u "deep_relative", u "from\s+[\'" ++ dquote ++ u "](\.\./){4,}", u "warning",
     u "Deep relative import (consider path alias)");
    (u "unused_import_likely", u "import\s+{[^}]{80,}}\s+from", u "info",
     u "Large import statement - verify all are used");
    (u "require_usage", u "\brequire\s*\(", u "info",
     u "CommonJS require() in modern codebase") ].

Definition _init_typescript_patterns := Patterns typescript_rules.
Definition _init_react_patterns := Patterns react_rules.
Definition _init_common_patterns := Patterns common_rules.
Definition _init_import_patterns := Patterns import_rules.

(** *** [ChanukaErrorExtractor] *)

Record ChanukaErrorExtractor : Type := {
  root_dir : Path;
  output_file : str;
  errors : list Finding.t;
  file_count : nat;
  scanned_lines : nat;
  skip_dirs : list str;
  typescript_patterns : list Pattern;
  react_patterns : list Pattern;
  common_patterns : list Pattern;
  import_patterns : list Pattern;
  (** how often the clock has been read *)
  ticks : nat
}.

Definition default_skip_dirs : list str :=
  map u [ "node_modules"; ".git"; "__pycache__"; "venv"; "env"; ".venv";
          "dist"; "build"; ".next"; "target"; "coverage"; "test-results";
          "playwright-report"; "drizzle"; "backup"; "tmp"; "temp"; ".cache";
          "out"; "public"; "static"; ".turbo"; ".vercel"; ".netlify" ]%string.

(** [ChanukaErrorExtractor(root_dir, output_file)], [root_dir] resolved;
    the second component is what construction prints. *)
Definition __init__ (root_dir : Path) (output_file : str)
  : ChanukaErrorExtractor * list str :=
  let '(ts, out1) := _init_typescript_patterns in
  let '(rx, out2) := _init_react_patterns in
  let '(cm, out3) := _init_common_patterns in
  let '(im, out4) := _init_import_patterns in
  ({| root_dir := root_dir; output_file := output_file; errors := [];
      file_count := 0; scanned_lines := 0; skip_dirs := default_skip_dirs;
      typescript_patterns := ts; react_patterns := rx;
      common_patterns := cm; import_patterns := im; ticks := 0 |},
   out1 ++ out2 ++ out3 ++ out4).

Definition with_errors (self : ChanukaErrorExtractor) (es : list Finding.t)
  (t : nat) : ChanukaErrorExtractor :=
  {| root_dir := root_dir self; output_file := output_file self;
     errors := es; file_count := file_count self;
     scanned_lines := scanned_lines self; skip_dirs := skip_dirs self;
     typescript_patterns := typescript_patterns self;
     react_patterns := react_patterns self;
     common_patterns := common_patterns self;
     import_patterns := import_patterns self; ticks := t |}.

Definition with_counts (self : ChanukaErrorExtractor) (files lines : nat)
  : ChanukaErrorExtractor :=
  {| root_dir := root_dir self; output_file := output_file self;
     errors := errors self; file_count := files;
     scanned_lines := lines; skip_dirs := skip_dirs self;
     typescript_patterns := typescript_patterns self;
     react_patterns := react_patterns self;
     common_patterns := common_patterns self;
     import_patterns := import_patterns self; ticks := ticks self |}.

Definition known_modules : list str :=
  map u [ "client"; "server"; "shared"; "src" ]%string.

(** The dictionary [add_error] builds for its arguments, the time given. *)
Definition error_dict (root_dir : Path) (file_path : str)
  (error_type message : str) (line_number column : nat) (severity : str)
  (code_snippet : str) (timestamp : str) : Finding.t :=
  let relative_path :=
    match relative_to (Path_of_str file_path) root_dir with
    | Some rel => str_of_relative rel
    | None => file_path
    end in
  let path_parts := split (re.ch "/") relative_path in
  let module :=
    match path_parts with
    | first_dir :: _ =>
        if str_in first_dir known_modules then first_dir else u "unknown"
    | [] => u "unknown"
    end in
  Finding.make file_path relative_path module error_type severity message
               line_number column timestamp code_snippet.

(** [add_error]: appends one finding; reads the clock once. *)
Definition add_error (self : ChanukaErrorExtractor) (file_path : str)
  (error_type message : str) (line_number column : nat) (severity : str)
  (code_snippet : str) : ChanukaErrorExtractor :=
  let error :=
    error_dict (root_dir self) file_path error_type message line_number
               column severity code_snippet (now (ticks self)) in
  with_errors self (errors self ++ [error]) (S (ticks self)).

(** [_get_category] *)
Definition _get_category (self : ChanukaErrorExtractor) (pattern : Pattern)
  : str :=
  if Pattern_in pattern (typescript_patterns self) then u "TypeScript - "
  else if Pattern_in pattern (react_patterns self) then u "React - "
  else if Pattern_in pattern (import_patterns self) then u "Import/Export - "
  else u "Code Quality - ".

Definition marker_names : list str :=
  map u [ "TODO"; "FIXME"; "BUG"; "HACK"; "XXX" ]%string.

(** [pattern.compiled and pattern.compiled.search(line)] *)
Definition hits (pattern : Pattern) (line : str) : bool :=
  match compiled pattern with
  | Some c => re_search c line
  | None => false
  end.

(** The comment test of the matcher, on the stripped line. *)
Definition in_comment (stripped : str) : bool :=
  startswith stripped (u "//") || startswith stripped (u "*").

(** The body of the inner loop of [_check_patterns]: one rule on one line. *)
Definition check_pattern (file_path : Path) (line_num : nat) (line : str)
  (self : ChanukaErrorExtractor) (pattern : Pattern) : ChanukaErrorExtractor :=
  if hits pattern line then
    let stripped := strip line in
    if in_comment stripped && negb (str_in (name pattern) marker_names)
    then self
    else add_error self (str_of_Path file_path)
           (_get_category self pattern ++ name pattern) (message pattern)
           line_num 0 (severity pattern) (slice_to 150 (strip line))
  else self.

(** The body of its outer loop: one numbered line. *)
Definition check_line (file_path : Path) (patterns : list Pattern)
  (self : ChanukaErrorExtractor) (numbered : nat * str)
  : ChanukaErrorExtractor :=
  let '(line_num, line) := numbered in
  if 500 <? length line then self
  else fold_left (check_pattern file_path line_num line) patterns self.

(** [_check_patterns] *)
Definition _check_patterns (self : ChanukaErrorExtractor) (file_path : Path)
  (lines : list str) (patterns : list Pattern) : ChanukaErrorExtractor :=
  fold_left (check_line file_path patterns) (enumerate 1 lines) self.

Definition read_failure (self : ChanukaErrorExtractor) (file_path : Path)
  (e : str) : ChanukaErrorExtractor :=
  add_error self (str_of_Path file_path) (u "File Read Error") e 0 0
            (u "error") [].

(** [check_typescript_file].  Of the statements in its [try], opening and
    reading are the ones that raise; [content] is what the file system
    answers for [file_path]. *)
Definition check_typescript_file (self : ChanukaErrorExtractor)
  (file_path : Path) (content : read_outcome) : ChanukaErrorExtractor :=
  match read_text content with
  | Ok content =>
      let lines := split NL content in
      let self :=
        with_counts self (file_count self) (scanned_lines self + length lines) in
      let self := _check_patterns self file_path lines (typescript_patterns self) in
      let self := _check_patterns self file_path lines (common_patterns self) in
      _check_patterns self file_path lines (import_patterns self)
  | Err e => read_failure self file_path e
  end.

(** [check_react_file] *)
Definition check_react_file (self : ChanukaErrorExtractor)
  (file_path : Path) (content : read_outcome) : ChanukaErrorExtractor :=
  match read_text content with
  | Ok content =>
      let lines := split NL content in
      let self :=
        with_counts self (file_count self) (scanned_lines self + length lines) in
      let self := _check_patterns self file_path lines (react_patterns self) in
      let self := _check_patterns self file_path lines (typescript_patterns self) in
      let self := _check_patterns self file_path lines (common_patterns self) in
      _check_patterns self file_path lines (import_patterns self)
  | Err e => read_failure self file_path e
  end.

(** [check_javascript_file] *)
Definition check_javascript_file (self : ChanukaErrorExtractor)
  (file_path : Path) (content : read_outcome) : ChanukaErrorExtractor :=
  check_typescript_file self file_path content.

Definition handler : Type :=
  ChanukaErrorExtractor -> Path -> read_outcome -> ChanukaErrorExtractor.

(** [self.file_extensions.get(file_ext)]: [None] when the extension is not
    a key. *)
Definition file_extensions (file_ext : str) : option handler :=
  if str_eqb file_ext (u ".ts") then Some check_typescript_file
  else if str_eqb file_ext (u ".tsx") then Some check_react_file
  else if str_eqb file_ext (u ".js") then Some check_javascript_file
  else if str_eqb file_ext (u ".jsx") then Some check_react_file
  else None.

(** The body of the loop over [files] in [_scan_directory].  The handlers
    catch what they raise, so the [except] around the call has nothing to
    catch and the file is counted whether or not it could be read. *)
Definition scan_file (root : Path) (self : ChanukaErrorExtractor)
  (f : str * read_outcome) : ChanukaErrorExtractor :=
  let '(file, content) := f in
  let file_path := root ++ [file] in
  let file_ext := lower (suffix file) in
  match file_extensions file_ext with
  | Some check =>
      let self := check self file_path content in
      with_counts self (file_count self + 1) (scanned_lines self)
  | None => self
  end.

(** The body of the loop over the walk: [dirs] has been filtered by then. *)
Definition scan_yield (self : ChanukaErrorExtractor)
  (y : Path * list (str * read_outcome)) : ChanukaErrorExtractor :=
  fold_left (scan_file (fst y)) (snd y) self.

(** [_scan_directory]; [tree] is what the file system holds at
    [directory]. *)
Definition _scan_directory (self : ChanukaErrorExtractor) (directory : Path)
  (tree : entry) : ChanukaErrorExtractor :=
  fold_left scan_yield
    (os_walk (fun d => negb (str_in d (skip_dirs self))) directory tree) self.

Definition possible_dirs : list Path :=
  [ [u "client"; u "src"]; [u "server"]; [u "shared"]; [u "src"] ].

(** The directories [scan_codebase] settles on, each with what the file
    system holds there; [tree] is what it holds at [root_dir]. *)
Definition scan_dirs (root_dir : Path) (tree : entry) : list (Path * entry) :=
  let found :=
    flat_map (fun possible_dir =>
                match lookup tree possible_dir with
                | Some e =>
                    if is_dir e then [(root_dir ++ possible_dir, e)] else []
                | None => []
                end) possible_dirs in
  match found with
  | [] => [(root_dir, tree)]
  | _ => found
  end.

(** [scan_codebase] *)
Definition scan_codebase (self : ChanukaErrorExtractor) (tree : entry)
  : ChanukaErrorExtractor :=
  fold_left (fun self d => _scan_directory self (fst d) (snd d))
            (scan_dirs (root_dir self) tree) self.

(** [generate_statistics] *)
Definition generate_statistics (self : ChanukaErrorExtractor) : Statistics :=
  let '(sev, typ, mod_, fil) := fold_left tally (errors self) ([], [], [], []) in
  let sorted_types := most_common typ in
  let sorted_files := most_common fil in
  {| total_errors := length (errors self);
     by_severity := sev; by_type := typ; by_module := mod_; by_file := fil;
     top_errors := firstn 15 sorted_types;
     critical_files := firstn 10 sorted_files |}.

(** [save_to_json], up to the dump: the document it writes.  The clock is
    read once, for the scan date. *)
Definition save_to_json (self : ChanukaErrorExtractor) : Output :=
  {| metadata :=
       {| project := u "Chanuka Platform";
          scan_date := now (ticks self);
          root_directory := str_of_Path (root_dir self);
          md_total_errors := length (errors self);
          files_scanned := file_count self;
          lines_scanned := scanned_lines self;
          tool := u "pattern-scanner";
          version := u "2.0.0" |};
     statistics := generate_statistics self;
     out_errors := sorted report_le (errors self) |}.

End Scanner.

(* ================================================================== *)
(** ** What a step of the scan adds

    Every step of the scan appends findings and adds to the two counters,
    and nothing else.  The functions below compute what a step adds from
    the configuration alone; the lemmas of the next part show that the
    scanner's steps are exactly these additions. *)

Section Views.

Context {E : ReEngine}.
Variable now : nat -> str.

(** The [n]-th finding recorded from clock reading [t] on gets time
    [now (t + n)]. *)
Fixpoint stamp (t : nat) (fs : list Finding.t) : list Finding.t :=
  match fs with
  | [] => []
  | f :: fs' => Finding.set_timestamp f (now t) :: stamp (S t) fs'
  end.

(** Findings, files counted, lines counted. *)
Definition delta : Type := list Finding.t * nat * nat.

Definition plus (a b : delta) : delta :=
  let '(fa, na, la) := a in
  let '(fb, nb, lb) := b in
  (fa ++ fb, na + nb, la + lb).

Definition total (ds : list delta) : delta := fold_right plus ([], 0, 0) ds.

Definition found (d : delta) : list Finding.t := fst (fst d).
Definition files_counted (d : delta) : nat := snd (fst d).
Definition lines_counted (d : delta) : nat := snd d.

Definition add (self : ChanukaErrorExtractor) (d : delta)
  : ChanukaErrorExtractor :=
  let '(fs, nf, nl) := d in
  with_counts
    (with_errors self (errors self ++ stamp (ticks self) fs)
                 (ticks self + length fs))
    (file_count self + nf) (scanned_lines self + nl).

Definition rule_finding (self : ChanukaErrorExtractor) (file_path : Path)
  (line_num : nat) (line : str) (pattern : Pattern) : Finding.t :=
  error_dict (root_dir self) (str_of_Path file_path)
    (_get_category self pattern ++ name pattern) (message pattern)
    line_num 0 (severity pattern) (slice_to 150 (strip line)) [].

Definition read_failure_finding (self : ChanukaErrorExtractor)
  (file_path : Path) (e : str) : Finding.t :=
  error_dict (root_dir self) (str_of_Path file_path) (u "File Read Error") e
    0 0 (u "error") [] [].

Definition pattern_findings (self : ChanukaErrorExtractor) (file_path : Path)
  (line_num : nat) (line : str) (pattern : Pattern) : list Finding.t :=
  if hits pattern line then
    if in_comment (strip line) && negb (str_in (name pattern) marker_names)
    then []
    else [rule_finding self file_path line_num line pattern]
  else [].

Definition line_findings (self : ChanukaErrorExtractor) (file_path : Path)
  (patterns : list Pattern) (numbered : nat * str) : list Finding.t :=
  if 500 <? length (snd numbered) then []
  else flat_map (pattern_findings self file_path (fst numbered) (snd numbered))
                patterns.

Definition lines_findings (self : ChanukaErrorExtractor) (file_path : Path)
  (lines : list str) (patterns : list Pattern) : list Finding.t :=
  flat_map (line_findings self file_path patterns) (enumerate 1 lines).

(** The rule tables a handler goes through, in its order. *)
Inductive kind : Type := Script | Component.

Definition tables (self : ChanukaErrorExtractor) (k : kind)
  : list (list Pattern) :=
  match k with
  | Script =>
      [typescript_patterns self; common_patterns self; import_patterns self]
  | Component =>
      [react_patterns self; typescript_patterns self; common_patterns self;
       import_patterns self]
  end.

Definition handler_delta (self : ChanukaErrorExtractor) (k : kind)
  (file_path : Path) (content : read_outcome) : delta :=
  match read_text content with
  | Ok text =>
      let lines := split NL text in
      (flat_map (lines_findings self file_path lines) (tables self k),
       0, length lines)
  | Err e => ([read_failure_finding self file_path e], 0, 0)
  end.

Definition kind_of (file_ext : str) : option kind :=
  if str_eqb file_ext (u ".ts") then Some Script
  else if str_eqb file_ext (u ".tsx") then Some Component
  else if str_eqb file_ext (u ".js") then Some Script
  else if str_eqb file_ext (u ".jsx") then Some Component
  else None.

Definition eligible (file : str) : bool :=
  match kind_of (lower (suffix file)) with Some _ => true | None => false end.

(** The number of lines a file counts for: those of its text, if it can
    be read and is handed to a handler. *)
Definition lines_of (f : str * read_outcome) : nat :=
  if eligible (fst f) then
    match read_text (snd f) with
    | Ok text => length (split NL text)
    | Err _ => 0
    end
  else 0.

Definition file_delta (self : ChanukaErrorExtractor) (root : Path)
  (f : str * read_outcome) : delta :=
  match kind_of (lower (suffix (fst f))) with
  | Some k => plus (handler_delta self k (root ++ [fst f]) (snd f)) ([], 1, 0)
  | None => ([], 0, 0)
  end.

(** The files of a walk, each with the directory it was met in. *)
Definition flatten (ys : list (Path * list (str * read_outcome)))
  : list (Path * (str * read_outcome)) :=
  flat_map (fun y => map (pair (fst y)) (snd y)) ys.

Definition files_delta (self : ChanukaErrorExtractor)
  (fs : list (Path * (str * read_outcome))) : delta :=
  total (map (fun rf => file_delta self (fst rf) (snd rf)) fs).

(** The in-place filter of [_scan_directory]. *)
Definition kept (self : ChanukaErrorExtractor) (d : str) : bool :=
  negb (str_in d (skip_dirs self)).

(** The files [scan_codebase] walks over, in the order it meets them. *)
Definition walked (self : ChanukaErrorExtractor) (tree : entry)
  : list (Path * (str * read_outcome)) :=
  flat_map (fun d => flatten (os_walk (kept self) (fst d) (snd d)))
           (scan_dirs (root_dir self) tree).

(** Two states with the same configuration: root, ignore set and rules. *)
Definition same_config (a b : ChanukaErrorExtractor) : Prop :=
  root_dir a = root_dir b /\ output_file a = output_file b
  /\ skip_dirs a = skip_dirs b
  /\ typescript_patterns a = typescript_patterns b
  /\ react_patterns a = react_patterns b
  /\ common_patterns a = common_patterns b
  /\ import_patterns a = import_patterns b.

End Views.

(** The tree with what lies below an ignored directory forgotten. *)
Fixpoint prune (keep : str -> bool) (e : entry) : entry :=
  match e with
  | File n c => File n c
  | Dir n None => Dir n None
  | Dir n (Some es) =>
      Dir n (Some (map (fun e' =>
                          match e' with
                          | Dir n' _ => if keep n' then prune keep e' else Dir n' None
                          | File _ _ => e'
                          end) es))
  end.

(** The keys of a sequence in the order of their first occurrence, those
    already [seen] left out. *)
Fixpoint first_seen (keys seen : list str) : list str :=
  match keys with
  | [] => []
  | k :: keys' =>
      if str_in k seen then first_seen keys' seen
      else k :: first_seen keys' (seen ++ [k])
  end.

(** A counter filled as the loop of [generate_statistics] fills it. *)
Definition count_by (key : Finding.t -> str) (errors : list Finding.t)
  (d : counter) : counter :=
  fold_left (fun d e => incr (key e) d) errors d.

(** How many findings have [k] for [key]. *)
Definition count_key (key : Finding.t -> str) (k : str)
  (errors : list Finding.t) : nat :=
  length (filter (fun f => str_eqb (key f) k) errors).

(* ================================================================== *)
(** ** Sample projects *)

Definition bytes_of (s : string) : list Byte.byte :=
  map byte_of_ascii (list_ascii_of_string s).

(** A fresh extractor for the project at [/proj]. *)
Definition fresh (E : ReEngine) : ChanukaErrorExtractor :=
  fst (__init__ [u "proj"] (u "pattern_errors.json")).

(** [/proj] holding one file. *)
Definition proj_with (file : string) (content : read_outcome) : entry :=
  Dir (u "proj") (Some [File (u file) content]).

Definition scan_project (E : ReEngine) (now : nat -> str) (file : string)
  (content : read_outcome) : ChanukaErrorExtractor :=
  scan_codebase now (fresh E) (proj_with file content).

(** [/proj] with three source files, the second of which cannot be read,
    and the same without that one. *)
Definition three_files : entry :=
  Dir (u "proj")
    (Some [ File (u "a.ts") (Bytes (bytes_of "// TODO fix this"));
            File (u "b.ts") (Raises (u "[Errno 13] Permission denied"));
            File (u "c.tsx") (Bytes (bytes_of "eval(x)")) ]).

Definition two_files : entry :=
  Dir (u "proj")
    (Some [ File (u "a.ts") (Bytes (bytes_of "// TODO fix this"));
            File (u "c.tsx") (Bytes (bytes_of "eval(x)")) ]).

(** [/proj] with a source file beside a [node_modules] directory that
    holds source files at two depths. *)
Definition with_node_modules : entry :=
  Dir (u "proj")
    (Some [ Dir (u "node_modules")
              (Some [ File (u "x.ts") (Bytes (bytes_of "// TODO in a package"));
                      Dir (u "deep")
                        (Some [ File (u "y.tsx") (Bytes (bytes_of "eval(x)")) ]) ]);
            File (u "a.ts") (Bytes (bytes_of "// TODO fix this")) ]).

(** The rules of a collection that did not compile. *)
Definition disabled (E : ReEngine) (patterns : list Pattern) : list str :=
  map (@name E)
      (filter (fun p => match compiled p with Some _ => false | None => true end)
              patterns).

(** A Unicode database with no alphanumerics outside ASCII, and a clock
    that always reads the same. *)
Definition ascii_only : char -> bool := fun _ => false.
Definition stopped : nat -> str := fun _ => u "2024-01-01T00:00:00".

(** A line of 600 characters that starts with a call of [eval], and the
    same line cut to 500 characters. *)
Definition line_of (n : nat) : list Byte.byte :=
  bytes_of "eval(x); //" ++ repeat (byte_of_ascii "a") (n - 11).

(** A file name the scanner knows, and its read outcome, standing for any
    file it is handed. *)
Definition script_names : list string := [ "a.ts"; "a.js" ]%string.
Definition component_names : list string := [ "a.tsx"; "a.jsx" ]%string.
Definition source_names : list string := script_names ++ component_names.

(* ================================================================== *)
(** ** What a tree holds *)

(** [file_at e rel name c]: the directory [e] holds, in its sub-directory
    at the relative path [rel], each directory on the way being listable,
    a file [name] with read outcome [c]. *)
Inductive file_at : entry -> Path -> str -> read_outcome -> Prop :=
| file_here (n : str) (es : list entry) (name : str) (c : read_outcome) :
    In (File name c) es -> file_at (Dir n (Some es)) [] name c
| file_below (n : str) (es : list entry) (d : str)
    (l : option (list entry)) (rel : Path) (name : str) (c : read_outcome) :
    In (Dir d l) es -> file_at (Dir d l) rel name c ->
    file_at (Dir n (Some es)) (d :: rel) name c.

(** A name the file system can give an entry: not empty, no slash, not a
    single dot. *)
Definition proper_name (n : str) : Prop :=
  n <> [] /\ n <> u "." /\ ~ In (re.ch "/") n.

(** The same as a test, and the test that every entry below a directory
    has a proper name; the name of the directory itself is not looked at,
    as the walk does not look at it. *)
Definition proper_nameb (n : str) : bool :=
  negb (str_eqb n []) && negb (str_eqb n (u "."))
  && negb (existsb (N.eqb (re.ch "/")) n).

Fixpoint proper_entry (e : entry) : bool :=
  proper_nameb (entry_name e)
  && match e with
     | Dir _ (Some es) => forallb proper_entry es
     | _ => true
     end.

Definition proper_below (e : entry) : bool :=
  match e with
  | Dir _ (Some es) => forallb proper_entry es
  | _ => true
  end.

(** [/proj] laid out as a monorepo, with a file in the root itself. *)
Definition monorepo : entry :=
  Dir (u "proj")
    (Some [ Dir (u "client")
              (Some [ Dir (u "src")
                        (Some [ File (u "App.tsx")
                                  (Bytes (bytes_of "eval(x)")) ]) ]);
            Dir (u "server")
              (Some [ File (u "index.ts")
                        (Bytes (bytes_of "// TODO fix this")) ]);
            File (u "setup.js") (Bytes (bytes_of "debugger")) ]).

(* ================================================================== *)
(** ** Strings and lists *)

Lemma str_eqb_eq (a b : str) : str_eqb a b = true <-> a = b.
Proof.
  revert b; induction a as [|x a IH]; intros [|y b]; simpl; split;
    try congruence; try reflexivity.
  - intros H. apply andb_true_iff in H as [H1 H2].
    apply N.eqb_eq in H1. apply IH in H2. congruence.
  - intros H. inversion H; subst. rewrite N.eqb_refl. simpl. now apply IH.
Qed.

Lemma str_eqb_refl (a : str) : str_eqb a a = true.
Proof. now apply str_eqb_eq. Qed.

Lemma str_eqb_sym (a b : str) : str_eqb a b = str_eqb b a.
Proof.
  destruct (str_eqb a b) eqn:H1, (str_eqb b a) eqn:H2; try reflexivity.
  - apply str_eqb_eq in H1. subst. now rewrite str_eqb_refl in H2.
  - apply str_eqb_eq in H2. subst. now rewrite str_eqb_refl in H1.
Qed.

Lemma str_in_In (x : str) (xs : list str) : str_in x xs = true <-> In x xs.
Proof.
  unfold str_in. rewrite existsb_exists. split.
  - intros (y & Hy & H). apply str_eqb_eq in H. now subst.
  - intros H. exists x. split; [assumption | apply str_eqb_refl].
Qed.

Lemma str_compare_eq (a b : str) : str_compare a b = Eq <-> a = b.
Proof.
  revert b; induction a as [|x a IH]; intros [|y b]; simpl; split;
    try congruence; try reflexivity.
  - destruct (N.compare x y) eqn:H; try discriminate.
    apply N.compare_eq in H. intros H'. apply IH in H'. congruence.
  - intros H. inversion H; subst. rewrite N.compare_refl. now apply IH.
Qed.

Lemma str_compare_antisym (a b : str) :
  str_compare b a = CompOpp (str_compare a b).
Proof.
  revert b; induction a as [|x a IH]; intros [|y b]; simpl; try reflexivity.
  rewrite (N.compare_antisym x y).
  destruct (N.compare x y); simpl; auto.
Qed.

Lemma str_compare_trans (a b c : str) :
  str_compare a b <> Gt -> str_compare b c <> Gt -> str_compare a c <> Gt.
Proof.
  revert b c; induction a as [|x a IH]; intros [|y b] [|z c]; simpl;
    try congruence.
  destruct (N.compare x y) eqn:Hxy; try congruence;
    destruct (N.compare y z) eqn:Hyz; try congruence; intros H1 H2.
  - apply N.compare_eq in Hxy, Hyz. subst. rewrite N.compare_refl. eauto.
  - apply N.compare_eq in Hxy. subst. now rewrite Hyz.
  - apply N.compare_eq in Hyz. subst. now rewrite Hxy.
  - rewrite N.compare_lt_iff in Hxy, Hyz.
    assert (H : (x < z)%N) by lia.
    apply N.compare_lt_iff in H. now rewrite H.
Qed.

Lemma firstn_length_le (A : Type) (n : nat) (l : list A) :
  length (firstn n l) <= n.
Proof. rewrite length_firstn. lia. Qed.

(** [split] is never empty: one piece more than there are separators. *)
Lemma split_length (sep : char) (s : str) :
  length (split sep s) = count_occ N.eq_dec s sep + 1.
Proof.
  induction s as [|c s IH]; simpl; [reflexivity|].
  destruct (N.eqb_spec c sep) as [->|Hne].
  - destruct (N.eq_dec sep sep); [|congruence]. simpl. lia.
  - destruct (N.eq_dec c sep); [congruence|].
    destruct (split sep s); simpl in *; lia.
Qed.

Lemma enumerate_nth (A : Type) (start : nat) (l : list A) (n : nat) (x : A) :
  In (n, x) (enumerate start l) ->
  start <= n /\ nth_error l (n - start) = Some x.
Proof.
  unfold enumerate. revert start.
  induction l as [|y l IH]; simpl; intros start H; [contradiction|].
  destruct H as [H|H].
  - inversion H; subst. rewrite Nat.sub_diag. auto.
  - apply IH in H as [H1 H2]. split; [lia|].
    replace (n - start) with (S (n - S start)) by lia. exact H2.
Qed.

Lemma enumerate_In (A : Type) (start : nat) (l : list A) (i : nat) (x : A) :
  nth_error l i = Some x -> In (start + i, x) (enumerate start l).
Proof.
  unfold enumerate. revert start i.
  induction l as [|y l IH]; intros start [|i] H; simpl in *; try discriminate.
  - inversion H; subst. left. f_equal. lia.
  - right. replace (start + S i) with (S start + i) by lia. now apply IH.
Qed.

Lemma utf8_ignore_ascii (a rest : list N) :
  Forall (fun x => (x < 128)%N) a ->
  utf8_ignore (a ++ rest) = a ++ utf8_ignore rest.
Proof.
  induction 1 as [|x a Hx _ IH]; [reflexivity|].
  cbn [app utf8_ignore]. apply N.ltb_lt in Hx. now rewrite Hx, IH.
Qed.

Lemma utf8_ignore_bad_start (b : N) (rest : list N) :
  (128 <= b < 194)%N \/ (245 <= b)%N ->
  utf8_ignore (b :: rest) = utf8_ignore rest.
Proof.
  intros H. cbn [utf8_ignore].
  destruct (N.ltb_spec b 128); [lia|].
  destruct (N.ltb_spec b 194); [reflexivity|].
  destruct (N.ltb_spec b 224); [lia|].
  destruct (N.ltb_spec b 240); [lia|].
  destruct (N.ltb_spec b 245); [lia|reflexivity].
Qed.

(* ================================================================== *)
(** ** The steps of the scan as additions *)

Section Steps.

Context {E : ReEngine}.
Variable now : nat -> str.

Lemma stamp_length (t : nat) (fs : list Finding.t) :
  length (stamp now t fs) = length fs.
Proof. revert t; induction fs; simpl; intros; auto. Qed.

Lemma stamp_app (t : nat) (a b : list Finding.t) :
  stamp now t (a ++ b) = stamp now t a ++ stamp now (t + length a) b.
Proof.
  revert t; induction a as [|f a IH]; simpl; intros t.
  - now rewrite Nat.add_0_r.
  - rewrite IH, Nat.add_succ_r. reflexivity.
Qed.

Lemma untimed_stamp (t : nat) (fs : list Finding.t) :
  map Finding.untimed (stamp now t fs) = map Finding.untimed fs.
Proof. revert t; induction fs; simpl; intros; [|rewrite IHfs]; reflexivity. Qed.

(** A stamped finding is the finding but for its time. *)
Lemma stamp_In (t : nat) (fs : list Finding.t) (f : Finding.t) :
  In f (stamp now t fs) ->
  exists g time, In g fs /\ f = Finding.set_timestamp g time.
Proof.
  revert t; induction fs as [|g fs IH]; simpl; intros t H; [contradiction|].
  destruct H as [H|H].
  - exists g, (now t). auto.
  - apply IH in H as (g' & time & H1 & H2). exists g', time. auto.
Qed.

Lemma add_zero (self : ChanukaErrorExtractor) : add now self ([], 0, 0) = self.
Proof.
  destruct self; unfold add, with_counts, with_errors; simpl.
  now rewrite app_nil_r, !Nat.add_0_r.
Qed.

Lemma add_plus (self : ChanukaErrorExtractor) (a b : delta) :
  add now (add now self a) b = add now self (plus a b).
Proof.
  destruct a as [[fa na] la], b as [[fb nb] lb].
  unfold add, plus, with_counts, with_errors; simpl.
  rewrite stamp_app, length_app, <- app_assoc, !Nat.add_assoc.
  reflexivity.
Qed.

Lemma add_total (self : ChanukaErrorExtractor) (A : Type)
  (step : ChanukaErrorExtractor -> A -> ChanukaErrorExtractor)
  (d : ChanukaErrorExtractor -> A -> delta) (l : list A) :
  (forall s x, step s x = add now s (d s x)) ->
  (forall s x e, d (add now s e) x = d s x) ->
  fold_left step l self = add now self (total (map (d self) l)).
Proof.
  intros Hstep Hd. revert self.
  induction l as [|x l IH]; intros self.
  - symmetry. apply add_zero.
  - cbn [fold_left map]. rewrite IH, Hstep, add_plus.
    replace (map (d (add now self (d self x))) l) with (map (d self) l);
      [reflexivity|].
    apply map_ext. intros y. symmetry. apply Hd.
Qed.

Lemma add_error_add (self : ChanukaErrorExtractor) (file_path : str)
  (error_type message : str) (line_number column : nat) (severity : str)
  (code_snippet : str) :
  add_error now self file_path error_type message line_number column severity
            code_snippet
  = add now self
      ([error_dict (root_dir self) file_path error_type message line_number
                   column severity code_snippet []], 0, 0).
Proof.
  destruct self; unfold add_error, add, with_counts, with_errors; simpl.
  now rewrite !Nat.add_0_r, Nat.add_1_r.
Qed.

Lemma check_pattern_add (file_path : Path) (line_num : nat) (line : str)
  (self : ChanukaErrorExtractor) (pattern : Pattern) :
  check_pattern now file_path line_num line self pattern
  = add now self (pattern_findings self file_path line_num line pattern, 0, 0).
Proof.
  unfold check_pattern, pattern_findings.
  destruct (hits pattern line); [|now rewrite add_zero].
  destruct (in_comment (strip line) && negb (str_in (name pattern) marker_names));
    [now rewrite add_zero|].
  apply add_error_add.
Qed.

Lemma total_findings (A : Type) (f : A -> list Finding.t) (l : list A) :
  total (map (fun x => (f x, 0, 0)) l) = (flat_map f l, 0, 0).
Proof.
  induction l as [|x l IH]; simpl; [reflexivity|]. now rewrite IH.
Qed.

Lemma check_line_add (file_path : Path) (patterns : list Pattern)
  (self : ChanukaErrorExtractor) (numbered : nat * str) :
  check_line now file_path patterns self numbered
  = add now self (line_findings self file_path patterns numbered, 0, 0).
Proof.
  destruct numbered as [line_num line].
  unfold check_line, line_findings; cbn [fst snd].
  destruct (500 <? length line); [symmetry; apply add_zero|].
  rewrite add_total with
    (d := fun s p => (pattern_findings s file_path line_num line p, 0, 0)).
  - now rewrite total_findings.
  - intros. apply check_pattern_add.
  - intros s x [[fs nf] nl]. reflexivity.
Qed.

Lemma _check_patterns_add (self : ChanukaErrorExtractor) (file_path : Path)
  (lines : list str) (patterns : list Pattern) :
  _check_patterns now self file_path lines patterns
  = add now self (lines_findings self file_path lines patterns, 0, 0).
Proof.
  unfold _check_patterns, lines_findings.
  rewrite add_total with
    (d := fun s nl => (line_findings s file_path patterns nl, 0, 0)).
  - now rewrite total_findings.
  - intros. apply check_line_add.
  - intros s x [[fs nf] nl]. reflexivity.
Qed.

Lemma with_counts_add (self : ChanukaErrorExtractor) (n : nat) :
  with_counts self (file_count self) (scanned_lines self + n)
  = add now self ([], 0, n).
Proof.
  destruct self; unfold add, with_counts, with_errors; simpl.
  now rewrite app_nil_r, !Nat.add_0_r.
Qed.

Lemma lines_findings_add (self : ChanukaErrorExtractor) (d : delta)
  (file_path : Path) (lines : list str) (patterns : list Pattern) :
  lines_findings (add now self d) file_path lines patterns
  = lines_findings self file_path lines patterns.
Proof. destruct d as [[fs nf] nl]. reflexivity. Qed.

Lemma tables_add (self : ChanukaErrorExtractor) (d : delta) :
  typescript_patterns (add now self d) = typescript_patterns self
  /\ react_patterns (add now self d) = react_patterns self
  /\ common_patterns (add now self d) = common_patterns self
  /\ import_patterns (add now self d) = import_patterns self.
Proof. destruct d as [[fs nf] nl]. repeat split. Qed.

Ltac forget_additions now :=
  repeat match goal with
    | |- context [typescript_patterns (add now ?s ?d)] =>
        rewrite (proj1 (tables_add s d))
    | |- context [react_patterns (add now ?s ?d)] =>
        rewrite (proj1 (proj2 (tables_add s d)))
    | |- context [common_patterns (add now ?s ?d)] =>
        rewrite (proj1 (proj2 (proj2 (tables_add s d))))
    | |- context [import_patterns (add now ?s ?d)] =>
        rewrite (proj2 (proj2 (proj2 (tables_add s d))))
    | |- context [lines_findings (add now ?s ?d)] =>
        rewrite (lines_findings_add s d)
    end.

Lemma check_typescript_file_add (self : ChanukaErrorExtractor)
  (file_path : Path) (content : read_outcome) :
  check_typescript_file now self file_path content
  = add now self (handler_delta self Script file_path content).
Proof.
  unfold check_typescript_file, handler_delta, read_failure.
  destruct (read_text content) as [text|e]; [|apply add_error_add].
  cbv zeta. rewrite with_counts_add, !_check_patterns_add, !add_plus.
  forget_additions now. cbn [plus tables flat_map app].
  now rewrite ?Nat.add_0_r, <- ?app_assoc, ?app_nil_r.
Qed.

Lemma check_react_file_add (self : ChanukaErrorExtractor)
  (file_path : Path) (content : read_outcome) :
  check_react_file now self file_path content
  = add now self (handler_delta self Component file_path content).
Proof.
  unfold check_react_file, handler_delta, read_failure.
  destruct (read_text content) as [text|e]; [|apply add_error_add].
  cbv zeta. rewrite with_counts_add, !_check_patterns_add, !add_plus.
  forget_additions now. cbn [plus tables flat_map app].
  now rewrite ?Nat.add_0_r, <- ?app_assoc, ?app_nil_r.
Qed.

Lemma file_extensions_kind (file_ext : str) :
  match file_extensions now file_ext, kind_of file_ext with
  | Some check, Some k =>
      forall self file_path content,
        check self file_path content
        = add now self (handler_delta self k file_path content)
  | None, None => True
  | _, _ => False
  end.
Proof.
  unfold file_extensions, kind_of.
  destruct (str_eqb file_ext (u ".ts")).
  { intros. apply check_typescript_file_add. }
  destruct (str_eqb file_ext (u ".tsx")).
  { intros. apply check_react_file_add. }
  destruct (str_eqb file_ext (u ".js")).
  { intros. apply check_typescript_file_add. }
  destruct (str_eqb file_ext (u ".jsx")).
  { intros. apply check_react_file_add. }
  exact I.
Qed.

Lemma scan_file_add (root : Path) (self : ChanukaErrorExtractor)
  (f : str * read_outcome) :
  scan_file now root self f = add now self (file_delta self root f).
Proof.
  destruct f as [file content]. unfold scan_file, file_delta; simpl.
  pose proof (file_extensions_kind (lower (suffix file))) as H.
  destruct (file_extensions now (lower (suffix file))) as [check|],
           (kind_of (lower (suffix file))) as [k|]; try contradiction.
  - rewrite H.
    replace (with_counts _ _ _)
      with (add now (add now self (handler_delta self k (root ++ [file]) content))
                ([], 1, 0)).
    + now rewrite add_plus.
    + destruct (add now self _); unfold add, with_counts, with_errors; simpl.
      now rewrite app_nil_r, !Nat.add_0_r.
  - now rewrite add_zero.
Qed.

Lemma file_delta_add (self : ChanukaErrorExtractor) (d : delta) (root : Path)
  (f : str * read_outcome) :
  file_delta (add now self d) root f = file_delta self root f.
Proof. destruct d as [[fs nf] nl]. reflexivity. Qed.

Lemma total_cons (d : delta) (ds : list delta) :
  total (d :: ds) = plus d (total ds).
Proof. reflexivity. Qed.

Lemma total_app (a b : list delta) : total (a ++ b) = plus (total a) (total b).
Proof.
  induction a as [|[[fa na] la] a IH]; simpl.
  - destruct (total b) as [[fb nb] lb]. reflexivity.
  - rewrite IH. destruct (total a) as [[f1 n1] l1], (total b) as [[f2 n2] l2].
    simpl. now rewrite app_assoc, !Nat.add_assoc.
Qed.

Lemma scan_yield_add (self : ChanukaErrorExtractor)
  (y : Path * list (str * read_outcome)) :
  scan_yield now self y = add now self (files_delta self (flatten [y])).
Proof.
  unfold scan_yield, files_delta, flatten. simpl. rewrite app_nil_r, map_map.
  simpl.
  apply add_total with (d := fun s f => file_delta s (fst y) f).
  - intros. apply scan_file_add.
  - intros. apply file_delta_add.
Qed.

Lemma files_delta_add (self : ChanukaErrorExtractor) (d : delta)
  (fs : list (Path * (str * read_outcome))) :
  files_delta (add now self d) fs = files_delta self fs.
Proof.
  unfold files_delta. f_equal. apply map_ext. intros. apply file_delta_add.
Qed.

Lemma files_delta_app (self : ChanukaErrorExtractor)
  (a b : list (Path * (str * read_outcome))) :
  files_delta self (a ++ b) = plus (files_delta self a) (files_delta self b).
Proof. unfold files_delta. now rewrite map_app, total_app. Qed.

Lemma flatten_app (a b : list (Path * list (str * read_outcome))) :
  flatten (a ++ b) = flatten a ++ flatten b.
Proof. unfold flatten. apply flat_map_app. Qed.

Lemma scan_yields_add (self : ChanukaErrorExtractor)
  (ys : list (Path * list (str * read_outcome))) :
  fold_left (scan_yield now) ys self
  = add now self (files_delta self (flatten ys)).
Proof.
  revert self. induction ys as [|y ys IH]; intros self.
  - symmetry. apply add_zero.
  - cbn [fold_left]. rewrite IH, scan_yield_add, add_plus, files_delta_add.
    change (y :: ys) with ([y] ++ ys).
    now rewrite flatten_app, files_delta_app.
Qed.

(** The scan of a directory adds what its walked files add. *)
Lemma _scan_directory_add (self : ChanukaErrorExtractor) (directory : Path)
  (tree : entry) :
  _scan_directory now self directory tree
  = add now self
      (files_delta self
         (flatten (os_walk (fun d => negb (str_in d (skip_dirs self)))
                           directory tree))).
Proof. unfold _scan_directory. apply scan_yields_add. Qed.

(** So does the whole scan. *)
Lemma scan_codebase_add (self : ChanukaErrorExtractor) (tree : entry) :
  scan_codebase now self tree
  = add now self (files_delta self (walked self tree)).
Proof.
  unfold scan_codebase, walked.
  generalize (scan_dirs (root_dir self) tree) as ds.
  intros ds.
  rewrite add_total with
    (d := fun s d => files_delta s (flatten (os_walk (kept s) (fst d) (snd d)))).
  - f_equal. induction ds as [|d ds IH]; [reflexivity|].
    cbn [map flat_map]. rewrite total_cons, files_delta_app.
    f_equal. exact IH.
  - intros. apply _scan_directory_add.
  - intros s x [[fs nf] nl]. reflexivity.
Qed.

Lemma errors_add (self : ChanukaErrorExtractor) (d : delta) :
  errors (add now self d) = errors self ++ stamp now (ticks self) (found d).
Proof. destruct d as [[fs nf] nl]. reflexivity. Qed.

Lemma file_count_add (self : ChanukaErrorExtractor) (d : delta) :
  file_count (add now self d) = file_count self + files_counted d.
Proof. destruct d as [[fs nf] nl]. reflexivity. Qed.

Lemma scanned_lines_add (self : ChanukaErrorExtractor) (d : delta) :
  scanned_lines (add now self d) = scanned_lines self + lines_counted d.
Proof. destruct d as [[fs nf] nl]. reflexivity. Qed.

Lemma same_config_add (self : ChanukaErrorExtractor) (d : delta) :
  same_config (add now self d) self.
Proof. destruct d as [[fs nf] nl]. repeat split. Qed.

(** A finding present after an addition was there before or is one of the
    findings added, stamped. *)
Lemma In_errors_add (self : ChanukaErrorExtractor) (d : delta) (f : Finding.t) :
  In f (errors (add now self d)) ->
  In f (errors self)
  \/ exists g time, In g (found d) /\ f = Finding.set_timestamp g time.
Proof.
  rewrite errors_add, in_app_iff. intros [H|H]; [now left|right].
  now apply stamp_In in H.
Qed.

Lemma found_plus (a b : delta) : found (plus a b) = found a ++ found b.
Proof. destruct a as [[fa na] la], b as [[fb nb] lb]. reflexivity. Qed.

Lemma files_counted_plus (a b : delta) :
  files_counted (plus a b) = files_counted a + files_counted b.
Proof. destruct a as [[fa na] la], b as [[fb nb] lb]. reflexivity. Qed.

Lemma lines_counted_plus (a b : delta) :
  lines_counted (plus a b) = lines_counted a + lines_counted b.
Proof. destruct a as [[fa na] la], b as [[fb nb] lb]. reflexivity. Qed.

Lemma found_total (ds : list delta) : found (total ds) = flat_map found ds.
Proof.
  induction ds as [|d ds IH]; [reflexivity|].
  cbn [flat_map]. now rewrite total_cons, found_plus, IH.
Qed.

Lemma found_files_delta (self : ChanukaErrorExtractor)
  (fs : list (Path * (str * read_outcome))) :
  found (files_delta self fs)
  = flat_map (fun rf => found (file_delta self (fst rf) (snd rf))) fs.
Proof.
  unfold files_delta. rewrite found_total, flat_map_concat_map, map_map.
  now rewrite <- flat_map_concat_map.
Qed.

(** Where a finding of the line matcher comes from: a rule that hit a
    line of at most 500 characters, the line being no comment unless the
    rule is a marker rule. *)
Lemma In_lines_findings (self : ChanukaErrorExtractor) (file_path : Path)
  (lines : list str) (patterns : list Pattern) (g : Finding.t) :
  In g (lines_findings self file_path lines patterns) <->
  exists n line pattern,
    nth_error lines n = Some line /\ In pattern patterns
    /\ length line <= 500
    /\ hits pattern line = true
    /\ (in_comment (strip line) = true ->
        str_in (name pattern) marker_names = true)
    /\ g = rule_finding self file_path (S n) line pattern.
Proof.
  unfold lines_findings. rewrite in_flat_map. split.
  - intros ([n line] & Hn & H).
    unfold line_findings in H. cbn [fst snd] in H.
    destruct (500 <? length line) eqn:Hlen; [contradiction|].
    apply Nat.ltb_ge in Hlen.
    apply in_flat_map in H as (pattern & Hp & H).
    unfold pattern_findings in H.
    destruct (hits pattern line) eqn:Hhit; [|contradiction].
    destruct (in_comment (strip line) && negb (str_in (name pattern) marker_names))
      eqn:Hc; [contradiction|].
    destruct H as [H|[]].
    apply enumerate_nth in Hn as [Hn1 Hn2].
    exists (n - 1), line, pattern.
    repeat split; auto.
    + intros Hin. rewrite Hin in Hc. simpl in Hc.
      now apply negb_false_iff in Hc.
    + replace (S (n - 1)) with n by lia. now symmetry.
  - intros (n & line & pattern & Hn & Hp & Hlen & Hhit & Hc & ->).
    exists (S n, line). split.
    + apply (enumerate_In 1) in Hn. exact Hn.
    + unfold line_findings. cbn [fst snd].
      apply Nat.ltb_ge in Hlen. rewrite Hlen.
      apply in_flat_map. exists pattern. split; [assumption|].
      unfold pattern_findings. rewrite Hhit.
      destruct (in_comment (strip line)); cbn [andb];
        [rewrite Hc by reflexivity|]; now left.
Qed.

(** Where a finding of a handler comes from: the read failure, or the
    line matcher on one of the handler's rule tables. *)
Lemma found_handler_delta (self : ChanukaErrorExtractor) (k : kind)
  (file_path : Path) (content : read_outcome) (g : Finding.t) :
  In g (found (handler_delta self k file_path content)) ->
  (exists e, content = Raises e /\ g = read_failure_finding self file_path e)
  \/ (exists text patterns n line pattern,
         read_text content = Ok text
         /\ In patterns (tables self k) /\ In pattern patterns
         /\ nth_error (split NL text) n = Some line
         /\ length line <= 500
         /\ hits pattern line = true
         /\ (in_comment (strip line) = true ->
             str_in (name pattern) marker_names = true)
         /\ g = rule_finding self file_path (S n) line pattern).
Proof.
  clear now. unfold handler_delta.
  destruct content as [data|e]; cbn [read_text found fst].
  - intros H. right.
    set (text := universal_newlines (utf8_ignore (map Byte.to_N data)))
      in H |- *.
    apply in_flat_map in H as (patterns & Hps & H).
    apply In_lines_findings in H as (n & line & pattern & H).
    exists text, patterns, n, line, pattern. tauto.
  - intros [H|[]]. left. exists e. auto.
Qed.

Lemma found_file_delta (self : ChanukaErrorExtractor) (root : Path)
  (f : str * read_outcome) (g : Finding.t) :
  In g (found (file_delta self root f)) ->
  exists k, kind_of (lower (suffix (fst f))) = Some k
            /\ In g (found (handler_delta self k (root ++ [fst f]) (snd f))).
Proof.
  unfold file_delta.
  destruct (kind_of (lower (suffix (fst f)))) as [k|]; [|intros []].
  rewrite found_plus, app_nil_r. eauto.
Qed.

End Steps.

(* ================================================================== *)
(** ** Where the findings of a scan come from *)

Section Provenance.

Context {E : ReEngine}.
Variable now : nat -> str.

(** A finding present after [scan_codebase] was there before, or is the
    stamped finding of a handler on one of the files walked. *)
Lemma scan_provenance (self : ChanukaErrorExtractor) (tree : entry)
  (f : Finding.t) :
  In f (errors (scan_codebase now self tree)) ->
  In f (errors self)
  \/ exists root file content k g time,
       In (root, (file, content)) (walked self tree)
       /\ kind_of (lower (suffix file)) = Some k
       /\ In g (found (handler_delta self k (root ++ [file]) content))
       /\ f = Finding.set_timestamp g time.
Proof.
  rewrite scan_codebase_add. intros H.
  apply In_errors_add in H as [H|(g & time & Hg & ->)]; [now left|right].
  rewrite found_files_delta in Hg.
  apply in_flat_map in Hg as ([root [file content]] & Hw & Hg).
  apply found_file_delta in Hg as (k & Hk & Hg).
  exists root, file, content, k, g, time. auto.
Qed.

(** The same for one handler. *)
Lemma handler_provenance (self : ChanukaErrorExtractor) (k : kind)
  (file_path : Path) (content : read_outcome) (f : Finding.t) :
  In f (errors (add now self (handler_delta self k file_path content))) ->
  In f (errors self)
  \/ exists g time,
       In g (found (handler_delta self k file_path content))
       /\ f = Finding.set_timestamp g time.
Proof. apply In_errors_add. Qed.

Lemma files_counted_handler_delta (self : ChanukaErrorExtractor) (k : kind)
  (file_path : Path) (content : read_outcome) :
  files_counted (handler_delta self k file_path content) = 0.
Proof. unfold handler_delta. now destruct (read_text content). Qed.

Lemma files_counted_file_delta (self : ChanukaErrorExtractor) (root : Path)
  (f : str * read_outcome) :
  files_counted (file_delta self root f) = if eligible (fst f) then 1 else 0.
Proof.
  unfold file_delta, eligible.
  destruct (kind_of (lower (suffix (fst f)))); [|reflexivity].
  now rewrite files_counted_plus, files_counted_handler_delta.
Qed.

Lemma files_counted_files_delta (self : ChanukaErrorExtractor)
  (fs : list (Path * (str * read_outcome))) :
  files_counted (files_delta self fs)
  = length (filter (fun rf => eligible (fst (snd rf))) fs).
Proof.
  unfold files_delta. induction fs as [|rf fs IH]; [reflexivity|].
  cbn [map filter]. rewrite total_cons, files_counted_plus, IH.
  rewrite files_counted_file_delta.
  now destruct (eligible (fst (snd rf))).
Qed.

Lemma lines_counted_file_delta (self : ChanukaErrorExtractor) (root : Path)
  (f : str * read_outcome) :
  lines_counted (file_delta self root f) = lines_of f.
Proof.
  unfold file_delta, lines_of, eligible.
  destruct (kind_of (lower (suffix (fst f)))); [|reflexivity].
  rewrite lines_counted_plus. unfold handler_delta.
  destruct (read_text (snd f)); cbn; lia.
Qed.

Lemma lines_counted_files_delta (self : ChanukaErrorExtractor)
  (fs : list (Path * (str * read_outcome))) :
  lines_counted (files_delta self fs)
  = list_sum (map (fun rf => lines_of (snd rf)) fs).
Proof.
  unfold files_delta. induction fs as [|rf fs IH]; [reflexivity|].
  cbn [map]. rewrite total_cons, lines_counted_plus.
  now rewrite lines_counted_file_delta, IH.
Qed.

End Provenance.

Lemma split_snoc (sep : char) (text : str) :
  split sep (text ++ [sep]) = split sep text ++ [[]].
Proof.
  induction text as [|c text IH]; cbn [app split].
  - now rewrite N.eqb_refl.
  - rewrite IH. destruct (N.eqb c sep); [reflexivity|].
    pose proof (split_length sep text) as Hlen.
    destruct (split sep text); [simpl in Hlen; lia | reflexivity].
Qed.

Lemma split_none (sep : char) (text : str) :
  ~ In sep text -> split sep text = [text].
Proof.
  induction text as [|c text IH]; simpl; intros H; [reflexivity|].
  destruct (N.eqb_spec c sep) as [->|Hne]; [tauto|].
  rewrite IH by tauto. reflexivity.
Qed.

(** The type of a rule finding is never the type of a read failure. *)
Lemma rule_type_not_read_error (E : ReEngine) (self : ChanukaErrorExtractor)
  (pattern : Pattern) :
  _get_category self pattern ++ name pattern <> u "File Read Error".
Proof.
  unfold _get_category.
  destruct (Pattern_in pattern (typescript_patterns self)); [discriminate|].
  destruct (Pattern_in pattern (react_patterns self)); [discriminate|].
  destruct (Pattern_in pattern (import_patterns self)); discriminate.
Qed.

(** The three handlers as additions. *)
Lemma handlers_add (E : ReEngine) (now : nat -> str) (check : handler) :
  In check [check_typescript_file now; check_react_file now;
            check_javascript_file now] ->
  exists k, forall self file_path content,
      check self file_path content
      = add now self (handler_delta self k file_path content).
Proof.
  intros [<-|[<-|[<-|[]]]].
  - exists Script. apply check_typescript_file_add.
  - exists Component. apply check_react_file_add.
  - exists Script. apply check_typescript_file_add.
Qed.

(* ================================================================== *)
(** ** Stable sorting *)

Section SortedFacts.

Variable A : Type.
Variable le : A -> A -> bool.
Hypothesis le_total : forall a b, le a b = true \/ le b a = true.
Hypothesis le_trans : forall a b c, le a b = true -> le b c = true -> le a c = true.

Lemma insert_perm (x : A) (l : list A) : Permutation (x :: l) (insert le x l).
Proof.
  induction l as [|y l IH]; simpl; [reflexivity|].
  destruct (le x y); [reflexivity|].
  rewrite perm_swap. now constructor.
Qed.

Lemma sorted_perm (l : list A) : Permutation l (sorted le l).
Proof.
  induction l as [|x l IH]; simpl; [constructor|].
  rewrite <- insert_perm. now constructor.
Qed.

Lemma insert_sorted (x : A) (l : list A) :
  StronglySorted (fun a b => le a b = true) l ->
  StronglySorted (fun a b => le a b = true) (insert le x l).
Proof.
  induction 1 as [|y l Hl IH Hy]; simpl.
  - repeat constructor.
  - destruct (le x y) eqn:Hxy.
    + constructor; [now constructor|].
      constructor; [assumption|].
      rewrite Forall_forall in *. eauto.
    + constructor; [assumption|].
      rewrite Forall_forall in *. intros z Hz.
      apply (Permutation_in _ (Permutation_sym (insert_perm x l))) in Hz.
      destruct Hz as [<-|Hz]; [|auto].
      destruct (le_total x y); congruence.
Qed.

Lemma sorted_sorted (l : list A) :
  StronglySorted (fun a b => le a b = true) (sorted le l).
Proof.
  induction l; simpl; [constructor | now apply insert_sorted].
Qed.

(** In a sorted list, what comes first has the smaller key. *)
Lemma StronglySorted_split (R : A -> A -> Prop) (l1 l2 l3 : list A) (a b : A) :
  StronglySorted R (l1 ++ a :: l2 ++ b :: l3) -> R a b.
Proof.
  induction l1 as [|x l1 IH]; simpl; intros H.
  - apply StronglySorted_inv in H as [_ H].
    rewrite Forall_forall in H. apply H.
    apply in_or_app. right. now left.
  - apply StronglySorted_inv in H as [H _]. auto.
Qed.

(** Stability: the elements of one key stay in the order they had. *)
Lemma insert_stable (a x : A) (l : list A) :
  filter (same_key le a) (insert le x l) = filter (same_key le a) (x :: l).
Proof.
  induction l as [|y l IH]; [reflexivity|].
  cbn [insert]. destruct (le x y) eqn:Hxy; [reflexivity|].
  cbn [filter] in *. rewrite IH.
  destruct (same_key le a x) eqn:Hx, (same_key le a y) eqn:Hy; try reflexivity.
  unfold same_key in Hx, Hy.
  apply andb_true_iff in Hx as [_ Hx], Hy as [Hy _].
  rewrite (le_trans Hx Hy) in Hxy. discriminate.
Qed.

Lemma sorted_stable (a : A) (l : list A) :
  filter (same_key le a) (sorted le l) = filter (same_key le a) l.
Proof.
  induction l as [|x l IH]; [reflexivity|].
  cbn [sorted]. rewrite insert_stable. cbn [filter]. now rewrite IH.
Qed.

Lemma same_key_refl (a : A) : same_key le a a = true.
Proof. unfold same_key. destruct (le_total a a) as [H|H]; now rewrite H. Qed.

(** A stable sort has one result: a sorted list that keeps the elements
    of every key in the order [l] has them in is [sorted le l]. *)
Lemma sorted_unique_aux (l1 l2 : list A) :
  StronglySorted (fun a b => le a b = true) l1 ->
  StronglySorted (fun a b => le a b = true) l2 ->
  (forall a, filter (same_key le a) l1 = filter (same_key le a) l2) ->
  l1 = l2.
Proof.
  intros H1. revert l2.
  induction H1 as [|x l1 Hs1 IH Hx]; intros l2 H2 Hf.
  - destruct l2 as [|y l2]; [reflexivity|].
    specialize (Hf y). cbn [filter] in Hf.
    rewrite same_key_refl in Hf. discriminate.
  - destruct H2 as [|y l2 Hs2 Hy].
    { specialize (Hf x). cbn [filter] in Hf.
      rewrite same_key_refl in Hf. discriminate. }
    assert (Hin : forall (l l' : list A) (z : A),
               filter (same_key le z) l = filter (same_key le z) l' ->
               In z l -> In z l').
    { intros l l' z Hz Hl.
      assert (Hz' : In z (filter (same_key le z) l))
        by (apply filter_In; split; [assumption | apply same_key_refl]).
      rewrite Hz in Hz'. now apply filter_In in Hz'. }
    assert (Hxy : le x y = true).
    { assert (Hyin : In y (x :: l1))
        by (apply (Hin (y :: l2)); [now rewrite Hf | now left]).
      destruct Hyin as [->|Hyin].
      - destruct (le_total y y); assumption.
      - rewrite Forall_forall in Hx. auto. }
    assert (Hyx : le y x = true).
    { assert (Hxin : In x (y :: l2))
        by (apply (Hin (x :: l1)); [now rewrite Hf | now left]).
      destruct Hxin as [->|Hxin].
      - destruct (le_total x x); assumption.
      - rewrite Forall_forall in Hy. auto. }
    assert (Heq : x = y).
    { specialize (Hf x). cbn [filter] in Hf.
      rewrite same_key_refl in Hf.
      unfold same_key at 2 in Hf. rewrite Hxy, Hyx in Hf. cbn in Hf.
      now inversion Hf. }
    subst y. f_equal. apply IH; [assumption|].
    intros a. specialize (Hf a). cbn [filter] in Hf.
    destruct (same_key le a x); [now inversion Hf | assumption].
Qed.

Lemma sorted_unique (l l' : list A) :
  StronglySorted (fun a b => le a b = true) l' ->
  (forall a, filter (same_key le a) l' = filter (same_key le a) l) ->
  l' = sorted le l.
Proof.
  intros Hs Hf. apply sorted_unique_aux; [assumption | apply sorted_sorted |].
  intros a. now rewrite sorted_stable.
Qed.

End SortedFacts.

(* ================================================================== *)
(** ** The order of the report *)

Lemma key_le_total (a b : nat * str * nat) :
  key_le a b = true \/ key_le b a = true.
Proof.
  destruct a as [[ra fa] la], b as [[rb fb] lb]. unfold key_le.
  rewrite (Nat.compare_antisym ra rb), (str_compare_antisym fa fb).
  destruct (Nat.compare ra rb); cbn; auto.
  destruct (str_compare fa fb); cbn; auto.
  rewrite !Nat.leb_le. lia.
Qed.

Lemma key_le_iff (a b : nat * str * nat) :
  key_le a b = true <->
  fst (fst a) < fst (fst b)
  \/ (fst (fst a) = fst (fst b)
      /\ (str_compare (snd (fst a)) (snd (fst b)) = Lt
          \/ (snd (fst a) = snd (fst b) /\ snd a <= snd b))).
Proof.
  destruct a as [[ra fa] la], b as [[rb fb] lb]. unfold key_le. cbn [fst snd].
  destruct (Nat.compare_spec ra rb) as [Hr|Hr|Hr].
  - destruct (str_compare fa fb) eqn:Hf.
    + apply str_compare_eq in Hf. rewrite Nat.leb_le. split.
      * intros H. right. split; [assumption|]. right. auto.
      * intros [H|[_ [H|[_ H]]]]; [lia| |assumption].
        subst. assert (Hrefl : str_compare fb fb = Eq) by now apply str_compare_eq.
        congruence.
    + split; [intros _; right; auto | reflexivity].
    + split; [discriminate|].
      intros [H|[_ [H|[H _]]]]; [lia|discriminate|].
      apply str_compare_eq in H. congruence.
  - split; [intros _; now left | reflexivity].
  - split; [discriminate|]. intros [H|[H _]]; lia.
Qed.

Lemma key_le_trans (a b c : nat * str * nat) :
  key_le a b = true -> key_le b c = true -> key_le a c = true.
Proof.
  rewrite !key_le_iff.
  destruct a as [[ra fa] la], b as [[rb fb] lb], c as [[rc fc] lc].
  cbn [fst snd].
  intros [H1|[H1 H1']] [H2|[H2 H2']]; try (left; lia).
  right. split; [lia|].
  assert (Hlt : forall x y z, str_compare x y = Lt -> str_compare y z <> Gt ->
                              str_compare x z = Lt).
  { intros x y z Hxy Hyz.
    destruct (str_compare x z) eqn:Hxz; [|reflexivity|].
    - apply str_compare_eq in Hxz. subst z.
      rewrite (str_compare_antisym x y), Hxy in Hyz. now elim Hyz.
    - exfalso. apply (@str_compare_trans x y z); congruence. }
  destruct H1' as [H1'|[-> H1']], H2' as [H2'|[-> H2']].
  - left. apply (Hlt _ _ _ H1'). congruence.
  - now left.
  - now left.
  - right. split; [reflexivity | lia].
Qed.

Lemma key_le_antisym (a b : nat * str * nat) :
  key_le a b = true -> key_le b a = true -> a = b.
Proof.
  rewrite !key_le_iff.
  destruct a as [[ra fa] la], b as [[rb fb] lb]. cbn [fst snd].
  intros [H1|[H1 H1']] [H2|[H2 H2']]; try lia.
  destruct H1' as [H1'|[-> H1']], H2' as [H2'|[H2' H2'']].
  - rewrite (str_compare_antisym fa fb), H1' in H2'. discriminate.
  - subst. assert (Hrefl : str_compare fa fa = Eq) by now apply str_compare_eq.
    congruence.
  - assert (Hrefl : str_compare fb fb = Eq) by now apply str_compare_eq.
    congruence.
  - repeat f_equal; lia.
Qed.

Lemma report_le_total (a b : Finding.t) :
  report_le a b = true \/ report_le b a = true.
Proof. apply key_le_total. Qed.

Lemma report_le_trans (a b c : Finding.t) :
  report_le a b = true -> report_le b c = true -> report_le a c = true.
Proof. apply key_le_trans. Qed.

Lemma same_report_key (a b : Finding.t) :
  same_key report_le a b = true <-> report_key a = report_key b.
Proof.
  unfold same_key, report_le. rewrite andb_true_iff. split.
  - intros [H1 H2]. now apply key_le_antisym.
  - intros ->. destruct (key_le_total (report_key b) (report_key b)); auto.
Qed.

(* ================================================================== *)
(** ** Counting *)

Lemma get_incr (k k' : str) (d : counter) :
  get k (incr k' d) = if str_eqb k' k then S (get k d) else get k d.
Proof.
  induction d as [|[k0 n] d IH]; cbn [incr get].
  - destruct (str_eqb k' k); reflexivity.
  - destruct (str_eqb k0 k') eqn:H0'; cbn [get].
    + apply str_eqb_eq in H0'. subst k'.
      destruct (str_eqb k0 k); reflexivity.
    + destruct (str_eqb k0 k) eqn:H0; [|exact IH].
      apply str_eqb_eq in H0. subst k0.
      rewrite str_eqb_sym, H0'. reflexivity.
Qed.

Lemma get_count_by (key : Finding.t -> str) (k : str)
  (errors : list Finding.t) (d : counter) :
  get k (count_by key errors d) = get k d + count_key key k errors.
Proof.
  unfold count_by, count_key. revert d.
  induction errors as [|e errors IH]; intros d; cbn [fold_left filter].
  - cbn. lia.
  - rewrite IH, get_incr. destruct (str_eqb (key e) k); cbn [length]; lia.
Qed.

Lemma keys_incr (k : str) (d : counter) :
  map fst (incr k d)
  = if str_in k (map fst d) then map fst d else map fst d ++ [k].
Proof.
  induction d as [|[k0 n] d IH]; [reflexivity|].
  cbn [incr map fst str_in existsb]. rewrite (str_eqb_sym k k0).
  destruct (str_eqb k0 k); [reflexivity|].
  cbn [map fst orb]. rewrite IH. fold (str_in k (map fst d)).
  destruct (str_in k (map fst d)); reflexivity.
Qed.

Lemma keys_count_by (key : Finding.t -> str) (errors : list Finding.t)
  (d : counter) :
  map fst (count_by key errors d)
  = map fst d ++ first_seen (map key errors) (map fst d).
Proof.
  unfold count_by. revert d.
  induction errors as [|e errors IH]; intros d; cbn [fold_left map first_seen].
  - now rewrite app_nil_r.
  - rewrite IH, keys_incr.
    destruct (str_in (key e) (map fst d)); [reflexivity|].
    now rewrite <- app_assoc.
Qed.

Lemma tally_count_by (errors : list Finding.t) (a b c d : counter) :
  fold_left tally errors (a, b, c, d)
  = (count_by Finding.severity errors a, count_by Finding.error_type errors b,
     count_by Finding.module errors c, count_by Finding.relative_path errors d).
Proof.
  unfold count_by. revert a b c d.
  induction errors as [|e errors IH]; intros; [reflexivity|].
  cbn [fold_left tally]. apply IH.
Qed.

Lemma count_by_untimed (key : Finding.t -> str) (errors : list Finding.t)
  (d : counter) :
  (forall f, key (Finding.untimed f) = key f) ->
  count_by key (map Finding.untimed errors) d = count_by key errors d.
Proof.
  intros Hkey. unfold count_by. revert d.
  induction errors as [|e errors IH]; intros d; [reflexivity|].
  cbn [map fold_left]. now rewrite Hkey, IH.
Qed.

Lemma by_count_desc_total (a b : str * nat) :
  by_count_desc a b = true \/ by_count_desc b a = true.
Proof. unfold by_count_desc. rewrite !Nat.leb_le. lia. Qed.

Lemma by_count_desc_trans (a b c : str * nat) :
  by_count_desc a b = true -> by_count_desc b c = true ->
  by_count_desc a c = true.
Proof. unfold by_count_desc. rewrite !Nat.leb_le. lia. Qed.

Lemma same_count (a b : str * nat) :
  same_key by_count_desc a b = true <-> snd a = snd b.
Proof.
  unfold same_key, by_count_desc. rewrite andb_true_iff, !Nat.leb_le. lia.
Qed.

(** What [most_common] gives: the entries, those with more findings
    first, those with as many in the order of the dictionary. *)
Lemma most_common_spec (d : counter) :
  Permutation d (most_common d)
  /\ StronglySorted (fun a b => snd b <= snd a) (most_common d)
  /\ forall c, filter (fun x => snd x =? c) (most_common d)
               = filter (fun x => snd x =? c) d.
Proof.
  unfold most_common. split; [apply sorted_perm|]. split.
  - pose proof (@sorted_sorted _ _ by_count_desc_total by_count_desc_trans d) as H.
    induction H as [|x l Hl IH Hx]; constructor; [assumption|].
    eapply Forall_impl; [|exact Hx].
    intros y Hy. now apply Nat.leb_le in Hy.
  - intros c.
    assert (Hsame : forall x : str * nat,
               (snd x =? c) = same_key by_count_desc ([], c) x).
    { intros x. destruct (same_key by_count_desc ([], c) x) eqn:Hs.
      - apply same_count in Hs. cbn [snd] in Hs. subst. apply Nat.eqb_refl.
      - apply Nat.eqb_neq. intros Heq.
        assert (Ht : same_key by_count_desc ([], c) x = true)
          by (apply same_count; cbn [snd]; congruence).
        congruence. }
    rewrite !(filter_ext _ _ Hsame).
    apply (@sorted_stable _ _ by_count_desc_trans).
Qed.

Lemma generate_statistics_eq (E : ReEngine) (self : ChanukaErrorExtractor) :
  generate_statistics self
  = {| total_errors := length (errors self);
       by_severity := count_by Finding.severity (errors self) [];
       by_type := count_by Finding.error_type (errors self) [];
       by_module := count_by Finding.module (errors self) [];
       by_file := count_by Finding.relative_path (errors self) [];
       top_errors :=
         firstn 15 (most_common (count_by Finding.error_type (errors self) []));
       critical_files :=
         firstn 10
           (most_common (count_by Finding.relative_path (errors self) [])) |}.
Proof. unfold generate_statistics. now rewrite tally_count_by. Qed.

(* ================================================================== *)
(** ** Rules that do not compile *)

Lemma Patterns_app (E : ReEngine) (a b : list (str * str * str * str)) :
  Patterns (a ++ b)
  = (fst (Patterns a) ++ fst (Patterns b), snd (Patterns a) ++ snd (Patterns b)).
Proof.
  induction a as [|[[[n r] s] m] a IH]; cbn [app Patterns].
  - now destruct (Patterns b).
  - rewrite IH. destruct (Pattern_init n r s m), (Patterns a).
    cbn [fst snd app]. now rewrite app_assoc.
Qed.

Lemma Patterns_args (E : ReEngine) (args : list (str * str * str * str)) :
  map (fun p => (name p, regex p, severity p, message p)) (fst (Patterns args))
  = args.
Proof.
  induction args as [|[[[n r] s] m] args IH]; [reflexivity|].
  cbn [Patterns]. unfold Pattern_init at 1.
  destruct (re_compile r), (Patterns args); cbn [fst map] in *;
    now rewrite IH.
Qed.

Lemma lines_findings_without (E : ReEngine) (self : ChanukaErrorExtractor)
  (file_path : Path) (lines : list str) (before after : list Pattern)
  (pattern : Pattern) :
  compiled pattern = None ->
  lines_findings self file_path lines (before ++ pattern :: after)
  = lines_findings self file_path lines (before ++ after).
Proof.
  intros Hnone. unfold lines_findings.
  apply flat_map_ext. intros [n line]. unfold line_findings. cbn [fst snd].
  destruct (500 <? length line); [reflexivity|].
  rewrite !flat_map_app. cbn [flat_map]. f_equal.
  unfold pattern_findings at 1, hits. now rewrite Hnone.
Qed.

(* ================================================================== *)
(** ** The walk *)

(** Induction on a directory tree. *)
Section EntryInduction.
Variable P : entry -> Prop.
Hypothesis Hfile : forall n c, P (File n c).
Hypothesis Hnone : forall n, P (Dir n None).
Hypothesis Hsome : forall n es, Forall P es -> P (Dir n (Some es)).

Fixpoint entry_induction (e : entry) {struct e} : P e :=
  match e with
  | File n c => Hfile n c
  | Dir n None => Hnone n
  | Dir n (Some es) =>
      Hsome n
        ((fix all (l : list entry) : Forall P l :=
            match l with
            | [] => Forall_nil P
            | x :: l' => Forall_cons x (entry_induction x) (all l')
            end) es)
  end.
End EntryInduction.

Lemma files_of_map (h : entry -> entry) (es : list entry) :
  (forall n c, h (File n c) = File n c) ->
  (forall n l, is_dir (h (Dir n l)) = true) ->
  files_of (map h es) = files_of es.
Proof.
  intros Hfile Hdir. induction es as [|[n c|n l] es IH]; cbn [map files_of].
  - reflexivity.
  - now rewrite Hfile, IH.
  - specialize (Hdir n l). destruct (h (Dir n l)); [discriminate|exact IH].
Qed.

(** The walk does not look below a directory it does not keep. *)
Lemma os_walk_prune (keep : str -> bool) (e : entry) :
  forall top, os_walk keep top (prune keep e) = os_walk keep top e.
Proof.
  induction e as [n c|n|n es IH] using entry_induction; intros top;
    try reflexivity.
  cbn [prune os_walk]. f_equal.
  - f_equal. apply files_of_map.
    + reflexivity.
    + intros n' l. destruct (keep n'); [|reflexivity]. now destruct l.
  - rewrite flat_map_concat_map, map_map, <- flat_map_concat_map.
    induction IH as [|e es He _ IHes]; [reflexivity|].
    cbn [flat_map]. rewrite IHes. f_equal.
    destruct e as [n' c|n' l]; [reflexivity|].
    destruct (keep n') eqn:Hk; [|now rewrite Hk].
    rewrite <- (He (top ++ [n'])).
    destruct l as [es'|]; cbn [prune]; now rewrite Hk.
Qed.

(** The directories the walk yields lie below its top along kept names. *)
Lemma os_walk_roots (keep : str -> bool) (e : entry) :
  forall top root files,
    In (root, files) (os_walk keep top e) ->
    exists rel, root = top ++ rel /\ Forall (fun d => keep d = true) rel.
Proof.
  induction e as [n c|n|n es IH] using entry_induction;
    intros top root files H; try contradiction.
  cbn [os_walk] in H. destruct H as [H|H].
  - inversion H; subst. exists []. now rewrite app_nil_r.
  - apply in_flat_map in H as (e & He & H).
    rewrite Forall_forall in IH. specialize (IH e He).
    destruct e as [n' c|n' l]; [contradiction|].
    destruct (keep n') eqn:Hk; [|contradiction].
    apply IH in H as (rel & -> & Hrel).
    exists (n' :: rel). rewrite <- app_assoc. split; [reflexivity|].
    now constructor.
Qed.

(** The directories [scan_codebase] settles on: the project root, or
    conventional directories below it. *)
Lemma scan_dirs_below (root_dir : Path) (tree : entry) (d : Path) (e : entry) :
  In (d, e) (scan_dirs root_dir tree) ->
  exists rel, d = root_dir ++ rel /\ (rel = [] \/ In rel possible_dirs).
Proof.
  unfold scan_dirs.
  set (found := flat_map _ possible_dirs).
  assert (Hfound : forall x, In x found ->
                             exists rel, fst x = root_dir ++ rel
                                         /\ In rel possible_dirs).
  { intros x Hx. unfold found in Hx.
    apply in_flat_map in Hx as (rel & Hrel & Hx).
    destruct (lookup tree rel) as [e'|]; [|contradiction].
    destruct (is_dir e'); [|contradiction].
    destruct Hx as [<-|[]]. exists rel. split; [reflexivity|assumption]. }
  destruct found as [|x found'] eqn:Hf.
  - intros [H|[]]. inversion H; subst. exists []. rewrite app_nil_r. auto.
  - intros H. apply Hfound in H as (rel & H & Hrel). cbn [fst] in H. eauto.
Qed.

Lemma kept_iff (E : ReEngine) (self : ChanukaErrorExtractor) (d : str) :
  kept self d = true <-> ~ In d (skip_dirs self).
Proof.
  unfold kept. rewrite negb_true_iff, <- str_in_In.
  destruct (str_in d (skip_dirs self)); intuition congruence.
Qed.

(* ================================================================== *)
(** ** The claims *)

(** A line that opens a block comment, or starts with a hash, does not
    pass the comment test. *)
Lemma startswith_block_comment (s : str) :
  startswith s (u "/*") = true \/ startswith s (u "#") = true ->
  in_comment s = false.
Proof.
  unfold in_comment. intros [H|H].
  - destruct s as [|a [|b s]]; cbn in H; try discriminate.
    + destruct (a =? 47)%N; discriminate.
    + destruct (a =? 47)%N eqn:Ha; [|discriminate].
      destruct (b =? 42)%N eqn:Hb; [|discriminate].
      apply N.eqb_eq in Ha, Hb. subst. reflexivity.
  - destruct s as [|a s]; cbn in H; try discriminate.
    destruct (a =? 35)%N eqn:Ha; [|discriminate].
    apply N.eqb_eq in Ha. subst. reflexivity.
Qed.

(** C1, as the code has it.  The comment test of [_check_patterns] is
    that the stripped line starts with two slashes or with a star (5).  A
    finding recorded for a line that passes it comes from one of the
    marker rules TODO, FIXME, BUG, HACK, XXX (1): the match of any other
    rule on such a line is discarded, the state being left as it was,
    while the match of a marker rule is recorded (2).  In particular, a
    source file whose only line is [// TODO fix this] yields exactly one
    finding, the one of the TODO rule (3), and a file whose only line is
    [// const any = 5 as any] yields none, although the any-usage rule
    matches the line (4).  A line that opens a block comment with a slash
    and a star does not pass the test: the match of any rule on it is
    recorded (6). *)
Theorem C1_comment_suppression :
  (forall (E : ReEngine) (now : nat -> str) (self : ChanukaErrorExtractor)
          (file_path : Path) (lines : list str) (patterns : list Pattern)
          (f : Finding.t),
      In f (errors (_check_patterns now self file_path lines patterns)) ->
      In f (errors self)
      \/ exists n line pattern,
           nth_error lines n = Some line /\ In pattern patterns
           /\ hits pattern line = true
           /\ Finding.line f = S n
           /\ Finding.error_type f = _get_category self pattern ++ name pattern
           /\ (in_comment (strip line) = true ->
               In (name pattern) marker_names))
  /\ (forall (E : ReEngine) (now : nat -> str) (self : ChanukaErrorExtractor)
             (file_path : Path) (line_num : nat) (line : str)
             (pattern : Pattern),
         in_comment (strip line) = true ->
         (~ In (name pattern) marker_names ->
          check_pattern now file_path line_num line self pattern = self)
         /\ (In (name pattern) marker_names -> hits pattern line = true ->
             exists f,
               errors (check_pattern now file_path line_num line self pattern)
               = errors self ++ [f]
               /\ Finding.line f = line_num
               /\ Finding.error_type f
                  = _get_category self pattern ++ name pattern
               /\ Finding.code_snippet f = slice_to 150 (strip line)))
  /\ (forall (ucd : char -> bool) (now : nat -> str) (file : string),
         In file source_names ->
         errors (scan_project (PyRe ucd) now file
                   (Bytes (bytes_of "// TODO fix this")))
         = [Finding.make (u "/proj/" ++ u file) (u file) (u "unknown")
              (u "Code Quality - TODO") (u "warning") (u "TODO comment")
              1 0 (now 0) (u "// TODO fix this")])
  /\ (forall (ucd : char -> bool) (now : nat -> str) (file : string),
         In file source_names ->
         (exists pattern,
             In pattern (typescript_patterns (fresh (PyRe ucd)))
             /\ name pattern = u "any_usage"
             /\ hits pattern (u "// const any = 5 as any") = true)
         /\ errors (scan_project (PyRe ucd) now file
                      (Bytes (bytes_of "// const any = 5 as any")))
            = [])
  /\ (forall stripped : str,
         in_comment stripped = true <->
         startswith stripped (u "//") = true
         \/ startswith stripped (u "*") = true)
  /\ (forall (E : ReEngine) (now : nat -> str) (self : ChanukaErrorExtractor)
             (file_path : Path) (line_num : nat) (line : str)
             (pattern : Pattern),
         startswith (strip line) (u "/*") = true ->
         hits pattern line = true ->
         exists f,
           errors (check_pattern now file_path line_num line self pattern)
           = errors self ++ [f]
           /\ Finding.line f = line_num
           /\ Finding.error_type f
              = _get_category self pattern ++ name pattern
           /\ Finding.code_snippet f = slice_to 150 (strip line)).
Proof.
  split; [|split; [|split; [|split; [|split]]]].
  - intros E now self file_path lines patterns f H.
    rewrite _check_patterns_add in H.
    apply In_errors_add in H as [H|(g & time & Hg & ->)]; [now left|right].
    apply In_lines_findings in Hg
      as (n & line & pattern & Hn & Hp & _ & Hhit & Hc & ->).
    exists n, line, pattern. repeat split; auto.
    intros Hin. apply str_in_In. auto.
  - intros E now self file_path line_num line pattern Hc. split.
    + intros Hm. unfold check_pattern.
      destruct (hits pattern line); [|reflexivity].
      rewrite Hc.
      destruct (str_in (name pattern) marker_names) eqn:Hin; [|reflexivity].
      apply str_in_In in Hin. contradiction.
    + intros Hm Hhit. apply str_in_In in Hm.
      unfold check_pattern. rewrite Hhit, Hc, Hm. cbn [andb negb].
      eexists. split; [reflexivity|]. repeat split.
  - intros ucd now file Hin.
    repeat (destruct Hin as [<-|Hin]; [vm_compute; reflexivity|]).
    destruct Hin.
  - intros ucd now file Hin. split.
    + eexists. split; [left; reflexivity|]. split; vm_compute; reflexivity.
    + repeat (destruct Hin as [<-|Hin]; [vm_compute; reflexivity|]).
      destruct Hin.
  - intros stripped. unfold in_comment. apply orb_true_iff.
  - intros E now self file_path line_num line pattern Hstart Hhit.
    unfold check_pattern.
    rewrite Hhit, (startswith_block_comment _ (or_introl Hstart)).
    cbn [andb]. eexists. split; [reflexivity|]. repeat split.
Qed.

Lemma C1_comment_suppression_witness :
  hits (nth 0 (typescript_patterns (fresh (PyRe ascii_only)))
            (Build_Pattern (E := PyRe ascii_only) [] [] [] [] None))
       (u "// const any = 5 as any") = true
  /\ check_pattern (E := PyRe ascii_only) stopped [u "proj"; u "a.ts"] 1
       (u "// const any = 5 as any") (fresh (PyRe ascii_only))
       (nth 0 (typescript_patterns (fresh (PyRe ascii_only)))
            (Build_Pattern (E := PyRe ascii_only) [] [] [] [] None))
     = fresh (PyRe ascii_only).
Proof.
  split; [vm_compute; reflexivity|].
  refine (proj1 (proj1 (proj2 C1_comment_suppression) (PyRe ascii_only)
                   stopped (fresh (PyRe ascii_only)) [u "proj"; u "a.ts"] 1
                   (u "// const any = 5 as any") _ eq_refl) _).
  vm_compute. intuition discriminate.
Defined.

(** C1 as the specification words it fails on a line that opens a block
    comment: the stripped line starts with a slash and a star, the
    any-usage rule is no marker rule, and yet its match is recorded, as
    is that of the rule for type assertions. *)
Lemma C1_counterexample :
  startswith (strip (u "/* const any = 5 as any */")) (u "/*") = true
  /\ str_in (u "any_usage") marker_names = false
  /\ map (fun f => (Finding.error_type f, Finding.line f,
                    Finding.code_snippet f))
         (errors (scan_project (PyRe ascii_only) stopped "a.ts"
                    (Bytes (bytes_of "/* const any = 5 as any */"))))
     = [ (u "TypeScript - any_usage", 1, u "/* const any = 5 as any */");
         (u "TypeScript - type_assertion", 1,
          u "/* const any = 5 as any */") ].
Proof. repeat split; vm_compute; reflexivity. Qed.

(** C2, as the code has it.  A finding recorded by [scan_codebase] is
    either the finding of a rule on a line, and then its line number is at
    least 1 and its snippet has at most 150 characters, or the finding of
    a read failure, and then its line number is 0 and its snippet is
    empty. *)
Theorem C2_line_and_snippet_bounds (E : ReEngine) (now : nat -> str)
  (self : ChanukaErrorExtractor) (tree : entry) (f : Finding.t) :
  In f (errors (scan_codebase now self tree)) ->
  In f (errors self)
  \/ (1 <= Finding.line f /\ length (Finding.code_snippet f) <= 150
      /\ exists pattern,
           Finding.error_type f = _get_category self pattern ++ name pattern)
  \/ (Finding.line f = 0 /\ Finding.code_snippet f = []
      /\ Finding.error_type f = u "File Read Error").
Proof.
  intros H.
  apply scan_provenance in H
    as [H|(root & file & content & k & g & time & _ & _ & Hg & ->)];
    [now left|right].
  apply found_handler_delta in Hg
    as [(e & _ & ->)
       |(text & patterns & n & line & pattern & _ & _ & _ & _ & _ & _ & _ & ->)].
  - right. split; [|split]; reflexivity.
  - left. split; [|split].
    + change (1 <= S n). lia.
    + change (length (slice_to 150 (strip line)) <= 150).
      apply firstn_length_le.
    + now exists pattern.
Qed.

Lemma C2_line_and_snippet_bounds_witness :
  In (Finding.make (u "/proj/a.ts") (u "a.ts") (u "unknown")
        (u "Code Quality - TODO") (u "warning") (u "TODO comment") 1 0
        (stopped 0) (u "// TODO fix this"))
     (errors (fresh (PyRe ascii_only)))
  \/ (1 <= 1 /\ length (u "// TODO fix this") <= 150
      /\ exists pattern,
           u "Code Quality - TODO"
           = _get_category (fresh (PyRe ascii_only)) pattern ++ name pattern)
  \/ (1 = 0 /\ u "// TODO fix this" = []
      /\ u "Code Quality - TODO" = u "File Read Error").
Proof.
  apply (@C2_line_and_snippet_bounds (PyRe ascii_only) stopped
           (fresh (PyRe ascii_only))
           (proj_with "a.ts" (Bytes (bytes_of "// TODO fix this")))
           (Finding.make (u "/proj/a.ts") (u "a.ts") (u "unknown")
              (u "Code Quality - TODO") (u "warning") (u "TODO comment") 1 0
              (stopped 0) (u "// TODO fix this"))).
  vm_compute. left. reflexivity.
Defined.

(** C2 as stated fails: the finding recorded for a file that cannot be
    read has line number 0. *)
Lemma C2_counterexample :
  exists f,
    In f (errors (scan_project (PyRe ascii_only) stopped "a.ts"
                    (Raises (u "[Errno 13] Permission denied"))))
    /\ Finding.line f = 0 /\ ~ 1 <= Finding.line f.
Proof.
  eexists. split; [vm_compute; left; reflexivity|]. cbn. split; [reflexivity|lia].
Qed.

(** C3.  The findings list of the document [save_to_json] writes is the
    findings list of the scan, reordered (1) so that of two findings the
    one that comes first has the better severity rank (critical, then
    error, warning, info, anything else), or the same rank and the smaller
    file path, or the same rank and path and a line number that is not
    greater (2, 3).  Hence a finding of strictly better severity comes
    before one of worse severity (4).  The sort is stable: findings with
    the same rank, file and line stay in the order the scan recorded them
    in (5); and these properties leave one possible list (6), so that the
    order is a function of the findings recorded. *)
Theorem C3_report_order (E : ReEngine) (now : nat -> str)
  (self : ChanukaErrorExtractor) :
  Permutation (errors self) (out_errors (save_to_json now self))
  /\ (severity_rank (u "critical") = 0 /\ severity_rank (u "error") = 1
      /\ severity_rank (u "warning") = 2 /\ severity_rank (u "info") = 3
      /\ forall s, ~ In s [u "critical"; u "error"; u "warning"; u "info"] ->
                   severity_rank s = 4)
  /\ (forall (l1 l2 l3 : list Finding.t) (a b : Finding.t),
         out_errors (save_to_json now self) = l1 ++ a :: l2 ++ b :: l3 ->
         severity_rank (Finding.severity a) < severity_rank (Finding.severity b)
         \/ (severity_rank (Finding.severity a)
             = severity_rank (Finding.severity b)
             /\ (str_compare (Finding.file a) (Finding.file b) = Lt
                 \/ (Finding.file a = Finding.file b
                     /\ Finding.line a <= Finding.line b))))
  /\ (forall a b : Finding.t,
         In a (errors self) -> In b (errors self) ->
         severity_rank (Finding.severity a) < severity_rank (Finding.severity b) ->
         exists l1 l2 l3,
           out_errors (save_to_json now self) = l1 ++ a :: l2 ++ b :: l3)
  /\ (forall a : Finding.t,
         filter (fun x => same_key report_le a x)
                (out_errors (save_to_json now self))
         = filter (fun x => same_key report_le a x) (errors self))
  /\ (forall a b : Finding.t,
         same_key report_le a b = true <->
         severity_rank (Finding.severity a) = severity_rank (Finding.severity b)
         /\ Finding.file a = Finding.file b /\ Finding.line a = Finding.line b)
  /\ (forall l : list Finding.t,
         StronglySorted (fun a b => report_le a b = true) l ->
         (forall a, filter (same_key report_le a) l
                    = filter (same_key report_le a) (errors self)) ->
         l = out_errors (save_to_json now self)).
Proof.
  cbn [out_errors save_to_json].
  pose proof (@sorted_sorted _ _ report_le_total report_le_trans (errors self))
    as Hsorted.
  assert (Hpair : forall l1 l2 l3 a b,
             sorted report_le (errors self) = l1 ++ a :: l2 ++ b :: l3 ->
             report_le a b = true).
  { intros l1 l2 l3 a b Heq. rewrite Heq in Hsorted.
    now apply StronglySorted_split in Hsorted. }
  split; [apply sorted_perm|].
  split.
  { repeat split. intros s Hs. unfold severity_rank.
    repeat match goal with
           | |- context [str_eqb s ?k] =>
               let H := fresh "H" in
               destruct (str_eqb s k) eqn:H;
               [apply str_eqb_eq in H; exfalso; apply Hs; rewrite H;
                cbn [In]; tauto | clear H]
           end.
    reflexivity. }
  split.
  { intros l1 l2 l3 a b Heq. apply Hpair in Heq.
    apply key_le_iff in Heq. exact Heq. }
  split.
  { intros a b Ha Hb Hlt.
    apply (Permutation_in _ (sorted_perm report_le (errors self))) in Ha, Hb.
    apply in_split in Ha as (l1 & r & Heq).
    rewrite Heq in Hb. apply in_app_iff in Hb as [Hb|[Hb|Hb]].
    - apply in_split in Hb as (m1 & m2 & ->).
      rewrite <- app_assoc in Heq. cbn [app] in Heq.
      apply Hpair in Heq. apply key_le_iff in Heq. cbn [fst snd report_key] in Heq.
      lia.
    - subst. lia.
    - apply in_split in Hb as (m1 & m2 & ->). now exists l1, m1, m2. }
  split; [intros a; apply (@sorted_stable _ _ report_le_trans)|].
  split.
  { intros a b. rewrite same_report_key. unfold report_key. split.
    - intros H. now inversion H.
    - intros (-> & -> & ->). reflexivity. }
  intros l Hl Hf. now apply (@sorted_unique _ _ report_le_total report_le_trans).
Qed.

Lemma C3_report_order_witness :
  map Finding.error_type
    (out_errors
       (save_to_json stopped
          (scan_codebase stopped (fresh (PyRe ascii_only)) three_files)))
  = [u "Code Quality - eval"; u "File Read Error"; u "Code Quality - TODO"]
  /\ exists l1 l2 l3,
       out_errors
         (save_to_json stopped
            (scan_codebase stopped (fresh (PyRe ascii_only)) three_files))
       = l1 ++ Finding.make (u "/proj/c.tsx") (u "c.tsx") (u "unknown")
                 (u "Code Quality - eval") (u "critical")
                 (u "eval() used - security risk") 1 0
                 (stopped 2) (u "eval(x)")
            :: l2 ++ Finding.make (u "/proj/a.ts") (u "a.ts") (u "unknown")
                       (u "Code Quality - TODO") (u "warning")
                       (u "TODO comment") 1 0 (stopped 0)
                       (u "// TODO fix this")
                 :: l3.
Proof.
  split; [vm_compute; reflexivity|].
  apply (proj1 (proj2 (proj2 (proj2
           (C3_report_order stopped
              (scan_codebase stopped (fresh (PyRe ascii_only)) three_files)))))).
  - vm_compute. auto.
  - vm_compute. auto.
  - vm_compute. repeat constructor.
Defined.

(** C4.  A line of more than 500 characters is passed over by
    [_check_patterns] whatever the rules are: the state is left as it was.
    So every finding of a scan that is not a read failure is the finding
    of a line of at most 500 characters of a walked file.  The files
    counted are the walked files with a known extension, whatever their
    lines are.  In particular a source file whose only line has 600
    characters and calls [eval] yields no finding and is counted as one
    file scanned, while the same line cut to 500 characters yields the
    finding of the eval rule. *)
Theorem C4_long_lines_skipped :
  (forall (E : ReEngine) (now : nat -> str) (self : ChanukaErrorExtractor)
          (file_path : Path) (patterns : list Pattern) (line_num : nat)
          (line : str),
      500 < length line ->
      check_line now file_path patterns self (line_num, line) = self)
  /\ (forall (E : ReEngine) (now : nat -> str) (self : ChanukaErrorExtractor)
             (tree : entry) (f : Finding.t),
         In f (errors (scan_codebase now self tree)) ->
         In f (errors self)
         \/ Finding.error_type f = u "File Read Error"
         \/ exists root file content text line,
              In (root, (file, content)) (walked self tree)
              /\ Finding.file f = str_of_Path (root ++ [file])
              /\ read_text content = Ok text
              /\ nth_error (split NL text) (Finding.line f - 1) = Some line
              /\ length line <= 500)
  /\ (forall (E : ReEngine) (now : nat -> str) (self : ChanukaErrorExtractor)
             (tree : entry),
         file_count (scan_codebase now self tree)
         = file_count self
           + length (filter (fun rf => eligible (fst (snd rf)))
                            (walked self tree)))
  /\ (forall (ucd : char -> bool) (now : nat -> str) (file : string),
         In file source_names ->
         length (line_of 600) = 600
         /\ errors (scan_project (PyRe ucd) now file (Bytes (line_of 600))) = []
         /\ file_count (scan_project (PyRe ucd) now file (Bytes (line_of 600)))
            = 1
         /\ map Finding.error_type
              (errors (scan_project (PyRe ucd) now file (Bytes (line_of 500))))
            = [u "Code Quality - eval"]).
Proof.
  split; [|split; [|split]].
  - intros E now self file_path patterns line_num line Hlen.
    unfold check_line. apply Nat.ltb_lt in Hlen. now rewrite Hlen.
  - intros E now self tree f H.
    apply scan_provenance in H
      as [H|(root & file & content & k & g & time & Hw & _ & Hg & ->)];
      [now left|right].
    apply found_handler_delta in Hg
      as [(e & _ & ->)
         |(text & patterns & n & line & pattern & Ht & _ & _ & Hn & Hl & _ & _ & ->)].
    + now left.
    + right. exists root, file, content, text, line.
      repeat split; auto.
      change (nth_error (split NL text) (S n - 1) = Some line).
      now rewrite Nat.sub_1_r.
  - intros E now self tree.
    now rewrite scan_codebase_add, file_count_add, files_counted_files_delta.
  - intros ucd now file Hin.
    repeat (destruct Hin as [<-|Hin];
            [repeat split; vm_compute; reflexivity|]).
    destruct Hin.
Qed.

Lemma C4_long_lines_skipped_witness :
  check_line (E := PyRe ascii_only) stopped [u "proj"; u "a.ts"]
    (common_patterns (fresh (PyRe ascii_only))) (fresh (PyRe ascii_only))
    (1, u "eval(x); //" ++ repeat (re.ch "a") 589)
  = fresh (PyRe ascii_only).
Proof.
  apply (proj1 C4_long_lines_skipped (PyRe ascii_only) stopped).
  vm_compute. repeat constructor.
Defined.

(** C5.  The scan of a directory is the scan of the same directory with
    nothing below the sub-directories, at any depth, whose names are in
    the ignore set: the walk filters them out of what it descends into
    before it descends (1).  Every directory the walk yields is reached
    from the scanned directory along names that are not in the ignore set
    (2); so the files a scan is handed, the files it counts and the files
    its findings are about lie below the project root along such names (3
    to 5: the conventional scan directories are not in the default ignore
    set).  In particular, of a project with a source file beside a
    [node_modules] directory that holds source files at two depths, the
    one file outside is scanned (6). *)
Theorem C5_ignored_directories_pruned :
  (forall (E : ReEngine) (now : nat -> str) (self : ChanukaErrorExtractor)
          (directory : Path) (tree : entry),
      _scan_directory now self directory tree
      = _scan_directory now self directory (prune (kept self) tree))
  /\ (forall (keep : str -> bool) (top : Path) (tree : entry) (root : Path)
             (files : list (str * read_outcome)),
         In (root, files) (os_walk keep top tree) ->
         exists rel, root = top ++ rel /\ Forall (fun d => keep d = true) rel)
  /\ (forall (E : ReEngine) (self : ChanukaErrorExtractor) (tree : entry)
             (root : Path) (file : str) (content : read_outcome),
         (forall rel d, In rel possible_dirs -> In d rel ->
                        ~ In d (skip_dirs self)) ->
         In (root, (file, content)) (walked self tree) ->
         exists rel, root = root_dir self ++ rel
                     /\ Forall (fun d => ~ In d (skip_dirs self)) rel)
  /\ (forall (E : ReEngine) (now : nat -> str) (self : ChanukaErrorExtractor)
             (tree : entry),
         file_count (scan_codebase now self tree)
         = file_count self
           + length (filter (fun rf => eligible (fst (snd rf)))
                            (walked self tree)))
  /\ (forall (E : ReEngine) (now : nat -> str) (self : ChanukaErrorExtractor)
             (tree : entry) (f : Finding.t),
         (forall rel d, In rel possible_dirs -> In d rel ->
                        ~ In d (skip_dirs self)) ->
         In f (errors (scan_codebase now self tree)) ->
         In f (errors self)
         \/ exists rel file,
              Finding.file f = str_of_Path (root_dir self ++ rel ++ [file])
              /\ Forall (fun d => ~ In d (skip_dirs self)) rel)
  /\ (forall (ucd : char -> bool) (now : nat -> str),
         In (u "node_modules") (skip_dirs (fresh (PyRe ucd)))
         /\ (forall rel d, In rel possible_dirs -> In d rel ->
                           ~ In d (skip_dirs (fresh (PyRe ucd))))
         /\ file_count (scan_codebase now (fresh (PyRe ucd)) with_node_modules)
            = 1
         /\ errors (scan_codebase now (fresh (PyRe ucd)) with_node_modules)
            = [Finding.make (u "/proj/a.ts") (u "a.ts") (u "unknown")
                 (u "Code Quality - TODO") (u "warning") (u "TODO comment")
                 1 0 (now 0) (u "// TODO fix this")]).
Proof.
  assert (Hwalked : forall (E : ReEngine) (self : ChanukaErrorExtractor)
                           (tree : entry) (root : Path) (file : str)
                           (content : read_outcome),
             (forall rel d, In rel possible_dirs -> In d rel ->
                            ~ In d (skip_dirs self)) ->
             In (root, (file, content)) (walked self tree) ->
             exists rel, root = root_dir self ++ rel
                         /\ Forall (fun d => ~ In d (skip_dirs self)) rel).
  { intros E self tree root file content Hconv H.
    unfold walked in H. apply in_flat_map in H as ([d e] & Hd & H).
    cbn [fst snd] in H. unfold flatten in H.
    apply in_flat_map in H as ([root' files] & Hy & H).
    cbn [fst snd] in H. apply in_map_iff in H as (x & Hx & _).
    inversion Hx; subst root'.
    apply os_walk_roots in Hy as (rel & -> & Hrel).
    apply scan_dirs_below in Hd as (rel0 & -> & Hrel0).
    exists (rel0 ++ rel). rewrite app_assoc. split; [reflexivity|].
    apply Forall_app. split.
    - destruct Hrel0 as [->|Hrel0]; [constructor|].
      apply Forall_forall. intros d Hd. now apply (Hconv rel0).
    - eapply Forall_impl; [|exact Hrel]. intros d. apply kept_iff. }
  split; [|split; [|split; [|split; [|split]]]].
  - intros E now self directory tree. unfold _scan_directory.
    change (fun d => negb (str_in d (skip_dirs self))) with (kept self).
    now rewrite os_walk_prune.
  - intros keep top tree. apply os_walk_roots.
  - exact Hwalked.
  - intros E now self tree.
    now rewrite scan_codebase_add, file_count_add, files_counted_files_delta.
  - intros E now self tree f Hconv H.
    apply scan_provenance in H
      as [H|(root & file & content & k & g & time & Hw & _ & Hg & ->)];
      [now left|right].
    apply (Hwalked E self tree) in Hw as (rel & -> & Hrel); [|assumption].
    exists rel, file. split; [|assumption].
    rewrite app_assoc.
    apply found_handler_delta in Hg
      as [(e & _ & ->)|(? & ? & ? & ? & ? & _ & _ & _ & _ & _ & _ & _ & ->)];
      reflexivity.
  - intros ucd now. split; [|split; [|split]].
    + vm_compute. tauto.
    + intros rel d Hrel Hd Hin.
      cbn in Hrel. 
      repeat (destruct Hrel as [<-|Hrel];
              [cbn in Hd;
               repeat (destruct Hd as [<-|Hd];
                       [vm_compute in Hin; intuition discriminate|]);
               destruct Hd|]).
      destruct Hrel.
    + vm_compute. reflexivity.
    + vm_compute. reflexivity.
Qed.

Lemma C5_ignored_directories_pruned_witness :
  exists rel,
    [u "proj"] = root_dir (fresh (PyRe ascii_only)) ++ rel
    /\ Forall (fun d => ~ In d (skip_dirs (fresh (PyRe ascii_only)))) rel.
Proof.
  apply (proj1 (proj2 (proj2 C5_ignored_directories_pruned))
           (PyRe ascii_only) (fresh (PyRe ascii_only)) with_node_modules
           [u "proj"] (u "a.ts") (Bytes (bytes_of "// TODO fix this"))).
  - exact (proj1 (proj2
             (proj2 (proj2 (proj2 (proj2 (proj2 C5_ignored_directories_pruned))))
                ascii_only stopped))).
  - vm_compute. left. reflexivity.
Defined.

(** C6.  Constructing a rule whose pattern does not compile gives a rule
    all the same, with nothing compiled, and prints one warning that names
    the rule (1); a collection is built from its list of rules whatever
    compiles, rule by rule (2, 3).  Such a rule leaves the state as it was
    on every line (4), and [_check_patterns] does with it in the
    collection what it does without it (5).  Of the rules of the scanner
    itself, [useState_initial] is the one that does not compile: its
    warning is what construction prints, and every other rule is
    compiled (6). *)
Theorem C6_invalid_pattern_disabled :
  (forall (E : ReEngine) (name regex severity message e : str),
      re_compile regex = Err e ->
      Pattern_init name regex severity message
      = (Build_Pattern name regex severity message None,
         [u "Warning: Invalid regex for " ++ name ++ u ": " ++ e]))
  /\ (forall (E : ReEngine) (args : list (str * str * str * str)),
         map (fun p => (name p, regex p, severity p, message p))
             (fst (Patterns args))
         = args)
  /\ (forall (E : ReEngine) (a b : list (str * str * str * str)),
         Patterns (a ++ b)
         = (fst (Patterns a) ++ fst (Patterns b),
            snd (Patterns a) ++ snd (Patterns b)))
  /\ (forall (E : ReEngine) (now : nat -> str) (self : ChanukaErrorExtractor)
             (file_path : Path) (line_num : nat) (line : str)
             (pattern : Pattern),
         compiled pattern = None ->
         check_pattern now file_path line_num line self pattern = self)
  /\ (forall (E : ReEngine) (now : nat -> str) (self : ChanukaErrorExtractor)
             (file_path : Path) (lines : list str)
             (before after : list Pattern) (pattern : Pattern),
         compiled pattern = None ->
         _check_patterns now self file_path lines (before ++ pattern :: after)
         = _check_patterns now self file_path lines (before ++ after))
  /\ (forall (ucd : char -> bool) (root : Path) (output_file : str),
         snd (__init__ (E := PyRe ucd) root output_file)
         = [u "Warning: Invalid regex for useState_initial: incomplete escape \u at position 16"]
         /\ disabled (react_patterns (fst (__init__ (E := PyRe ucd) root output_file)))
            = [u "useState_initial"]
         /\ disabled (typescript_patterns (fst (__init__ (E := PyRe ucd) root output_file)))
            = []
         /\ disabled (common_patterns (fst (__init__ (E := PyRe ucd) root output_file)))
            = []
         /\ disabled (import_patterns (fst (__init__ (E := PyRe ucd) root output_file)))
            = []).
Proof.
  split; [|split; [|split; [|split; [|split]]]].
  - intros E name regex severity message e He.
    unfold Pattern_init. now rewrite He.
  - intros. apply Patterns_args.
  - intros. apply Patterns_app.
  - intros E now self file_path line_num line pattern Hnone.
    unfold check_pattern, hits. now rewrite Hnone.
  - intros E now self file_path lines before after pattern Hnone.
    rewrite !_check_patterns_add. now rewrite lines_findings_without.
  - intros ucd root output_file. repeat split; vm_compute; reflexivity.
Qed.

Lemma C6_invalid_pattern_disabled_witness :
  Pattern_init (E := PyRe ascii_only) (u "useState_initial")
    (u "useState\(\s*\{|\useState\(\s*\[") (u "info")
    (u "useState with object/array - ensure intentional")
  = (Build_Pattern (E := PyRe ascii_only) (u "useState_initial")
       (u "useState\(\s*\{|\useState\(\s*\[") (u "info")
       (u "useState with object/array - ensure intentional") None,
     [u "Warning: Invalid regex for " ++ u "useState_initial" ++ u ": "
      ++ u "incomplete escape \u at position 16"]).
Proof.
  apply (proj1 C6_invalid_pattern_disabled (PyRe ascii_only)).
  vm_compute. reflexivity.
Defined.

(** C7.  A handler given a file whose opening or reading raises records
    exactly one finding: of type [File Read Error], at line 0, of
    severity [error], with the text of the exception for message; it
    counts no line.  The rest of the scan is as without that file: the
    findings of a scan over a tree that holds the unreadable file are,
    times apart, those of the scan over the tree without it, with that one
    finding put in where the file is met; the lines counted are the same,
    and the unreadable file is itself counted as a file scanned. *)
Theorem C7_read_failure :
  (forall (E : ReEngine) (now : nat -> str) (check : handler)
          (self : ChanukaErrorExtractor) (file_path : Path) (e : str),
      In check [check_typescript_file now; check_react_file now;
                check_javascript_file now] ->
      exists f,
        errors (check self file_path (Raises e)) = errors self ++ [f]
        /\ Finding.file f = str_of_Path file_path
        /\ Finding.error_type f = u "File Read Error"
        /\ Finding.severity f = u "error"
        /\ Finding.message f = e
        /\ Finding.line f = 0
        /\ scanned_lines (check self file_path (Raises e))
           = scanned_lines self)
  /\ (forall (E : ReEngine) (now now' : nat -> str)
             (self : ChanukaErrorExtractor) (tree tree' : entry)
             (before after : list (Path * (str * read_outcome)))
             (root : Path) (file e : str),
         eligible file = true ->
         walked self tree = before ++ (root, (file, Raises e)) :: after ->
         walked self tree' = before ++ after ->
         exists f pre post,
           Finding.file f = str_of_Path (root ++ [file])
           /\ Finding.error_type f = u "File Read Error"
           /\ Finding.message f = e
           /\ Finding.line f = 0
           /\ map Finding.untimed (errors (scan_codebase now' self tree'))
              = pre ++ post
           /\ map Finding.untimed (errors (scan_codebase now self tree))
              = pre ++ f :: post
           /\ scanned_lines (scan_codebase now self tree)
              = scanned_lines (scan_codebase now' self tree')
           /\ file_count (scan_codebase now self tree)
              = file_count (scan_codebase now' self tree') + 1).
Proof.
  split.
  - intros E now check self file_path e Hin.
    apply handlers_add in Hin as (k & Hk). rewrite Hk.
    eexists. rewrite errors_add, scanned_lines_add.
    split; [reflexivity|]. repeat split. cbn. lia.
  - intros E now now' self tree tree' before after root file e Hel Hw Hw'.
    exists (read_failure_finding self (root ++ [file]) e),
      (map Finding.untimed (errors self) ++ found (files_delta self before)),
      (found (files_delta self after)).
    rewrite !scan_codebase_add, !errors_add, !scanned_lines_add, !file_count_add.
    rewrite !map_app, !untimed_stamp, Hw, Hw'.
    change ((root, (file, Raises e)) :: after)
      with ([(root, (file, Raises e))] ++ after).
    rewrite !files_delta_app, !found_plus, !lines_counted_plus,
      !files_counted_plus, !lines_counted_files_delta,
      !files_counted_files_delta.
    assert (Hk : exists k, kind_of (lower (suffix file)) = Some k).
    { unfold eligible in Hel.
      destruct (kind_of (lower (suffix file))) as [k|]; [eauto|discriminate]. }
    destruct Hk as (k & Hk).
    assert (Hfound : found (files_delta self [(root, (file, Raises e))])
                     = [read_failure_finding self (root ++ [file]) e]).
    { unfold files_delta, file_delta. cbn [map fst snd]. now rewrite Hk. }
    rewrite Hfound.
    assert (Huntimed : forall l : list Finding.t,
               (forall g, In g l -> Finding.timestamp g = []) ->
               map Finding.untimed l = l).
    { intros l Hl. rewrite <- (map_id l) at 2. apply map_ext_in.
      intros [] Hg. apply Hl in Hg. cbn in Hg. now subst. }
    repeat split.
    + rewrite (Huntimed (found (files_delta self before) ++ _));
        [now rewrite <- app_assoc|].
      intros g Hg. apply in_app_iff in Hg.
      rewrite !found_files_delta in Hg.
      destruct Hg as [Hg|Hg];
        apply in_flat_map in Hg as (rf & _ & Hg);
        apply found_file_delta in Hg as (k' & _ & Hg);
        apply found_handler_delta in Hg
          as [(e' & _ & ->)|(? & ? & ? & ? & ? & _ & _ & _ & _ & _ & _ & _ & ->)];
        reflexivity.
    + rewrite (Huntimed (found (files_delta self before) ++ _)).
      * rewrite <- !app_assoc. reflexivity.
      * intros g Hg. rewrite !in_app_iff in Hg.
        destruct Hg as [Hg|[[<-|[]]|Hg]]; [|reflexivity|];
          rewrite found_files_delta in Hg;
          apply in_flat_map in Hg as (rf & _ & Hg);
          apply found_file_delta in Hg as (k' & _ & Hg);
          apply found_handler_delta in Hg
            as [(e' & _ & ->)|(? & ? & ? & ? & ? & _ & _ & _ & _ & _ & _ & _ & ->)];
          reflexivity.
    + cbn [map list_sum fold_right snd]. unfold lines_of at 2.
      cbn [fst snd read_text]. rewrite Hel. lia.
    + cbn [filter fst snd length]. rewrite Hel. cbn [length]. lia.
Qed.

Lemma C7_read_failure_witness :
  exists f pre post,
    Finding.file f = str_of_Path ([u "proj"] ++ [u "b.ts"])
    /\ Finding.error_type f = u "File Read Error"
    /\ Finding.message f = u "[Errno 13] Permission denied"
    /\ Finding.line f = 0
    /\ map Finding.untimed
         (errors (scan_codebase stopped (fresh (PyRe ascii_only)) two_files))
       = pre ++ post
    /\ map Finding.untimed
         (errors (scan_codebase stopped (fresh (PyRe ascii_only)) three_files))
       = pre ++ f :: post
    /\ scanned_lines (scan_codebase stopped (fresh (PyRe ascii_only)) three_files)
       = scanned_lines (scan_codebase stopped (fresh (PyRe ascii_only)) two_files)
    /\ file_count (scan_codebase stopped (fresh (PyRe ascii_only)) three_files)
       = file_count (scan_codebase stopped (fresh (PyRe ascii_only)) two_files) + 1.
Proof.
  apply (proj2 C7_read_failure (PyRe ascii_only) stopped stopped
           (fresh (PyRe ascii_only)) three_files two_files
           [([u "proj"], (u "a.ts", Bytes (bytes_of "// TODO fix this")))]
           [([u "proj"], (u "c.tsx", Bytes (bytes_of "eval(x)")))]).
  - vm_compute. reflexivity.
  - vm_compute. reflexivity.
  - vm_compute. reflexivity.
Defined.

(** C8.  The statistics are a function of the findings list alone, and
    not of the times in it (1): the number of findings (2); for each
    severity, each type of finding, each module and each file, the number
    of findings that have it (3 to 6), the types and files being kept in
    the order they were first met in (7, 8); the first 15 types and the
    first 10 files when those with more findings are put first and those
    with as many are left in the order they were first met in (9, 10). *)
Theorem C8_statistics (E : ReEngine) (self : ChanukaErrorExtractor) :
  (forall (E' : ReEngine) (self' : @ChanukaErrorExtractor E'),
      map Finding.untimed (errors self') = map Finding.untimed (errors self) ->
      generate_statistics self' = generate_statistics self)
  /\ total_errors (generate_statistics self) = length (errors self)
  /\ (forall k, get k (by_severity (generate_statistics self))
                = count_key Finding.severity k (errors self))
  /\ (forall k, get k (by_type (generate_statistics self))
                = count_key Finding.error_type k (errors self))
  /\ (forall k, get k (by_module (generate_statistics self))
                = count_key Finding.module k (errors self))
  /\ (forall k, get k (by_file (generate_statistics self))
                = count_key Finding.relative_path k (errors self))
  /\ map fst (by_type (generate_statistics self))
     = first_seen (map Finding.error_type (errors self)) []
  /\ map fst (by_file (generate_statistics self))
     = first_seen (map Finding.relative_path (errors self)) []
  /\ (exists ranked,
         top_errors (generate_statistics self) = firstn 15 ranked
         /\ Permutation (by_type (generate_statistics self)) ranked
         /\ StronglySorted (fun a b => snd b <= snd a) ranked
         /\ forall c, filter (fun x => snd x =? c) ranked
                      = filter (fun x => snd x =? c)
                               (by_type (generate_statistics self)))
  /\ (exists ranked,
         critical_files (generate_statistics self) = firstn 10 ranked
         /\ Permutation (by_file (generate_statistics self)) ranked
         /\ StronglySorted (fun a b => snd b <= snd a) ranked
         /\ forall c, filter (fun x => snd x =? c) ranked
                      = filter (fun x => snd x =? c)
                               (by_file (generate_statistics self))).
Proof.
  split.
  { intros E' self' Heq. rewrite !generate_statistics_eq.
    rewrite <- (count_by_untimed Finding.severity (errors self')),
      <- (count_by_untimed Finding.error_type (errors self')),
      <- (count_by_untimed Finding.module (errors self')),
      <- (count_by_untimed Finding.relative_path (errors self')),
      <- (count_by_untimed Finding.severity (errors self)),
      <- (count_by_untimed Finding.error_type (errors self)),
      <- (count_by_untimed Finding.module (errors self)),
      <- (count_by_untimed Finding.relative_path (errors self))
      by reflexivity.
    rewrite <- (length_map Finding.untimed (errors self')),
      <- (length_map Finding.untimed (errors self)).
    now rewrite Heq. }
  rewrite generate_statistics_eq.
  cbn [total_errors by_severity by_type by_module by_file top_errors
       critical_files].
  split; [reflexivity|].
  split; [intros k; now rewrite get_count_by|].
  split; [intros k; now rewrite get_count_by|].
  split; [intros k; now rewrite get_count_by|].
  split; [intros k; now rewrite get_count_by|].
  split; [now rewrite keys_count_by|].
  split; [now rewrite keys_count_by|].
  split.
  - eexists. split; [reflexivity|]. apply most_common_spec.
  - eexists. split; [reflexivity|]. apply most_common_spec.
Qed.

Lemma C8_statistics_witness :
  generate_statistics
    (scan_codebase (fun n => str_of_nat n) (fresh (PyRe (fun _ => true)))
                   three_files)
  = generate_statistics
      (scan_codebase stopped (fresh (PyRe ascii_only)) three_files)
  /\ top_errors
       (generate_statistics
          (scan_codebase stopped (fresh (PyRe ascii_only)) three_files))
     = [(u "Code Quality - TODO", 1); (u "File Read Error", 1);
        (u "Code Quality - eval", 1)].
Proof.
  split; [|vm_compute; reflexivity].
  apply (proj1 (C8_statistics
                  (scan_codebase stopped (fresh (PyRe ascii_only)) three_files))).
  vm_compute. reflexivity.
Defined.

(** C9.  A handler adds to [scanned_lines], for a file it could read, the
    length of [content.split('\n')]: the number of line feeds of the text
    plus one.  A text that ends with a line feed has an empty last line,
    which is counted; a text with no line feed is one line.  Over a whole
    scan the counter grows by these numbers for the walked files with a
    known extension. *)
Theorem C9_lines_scanned :
  (forall (E : ReEngine) (now : nat -> str) (check : handler)
          (self : ChanukaErrorExtractor) (file_path : Path)
          (data : list Byte.byte) (text : str),
      In check [check_typescript_file now; check_react_file now;
                check_javascript_file now] ->
      read_text (Bytes data) = Ok text ->
      scanned_lines (check self file_path (Bytes data))
      = scanned_lines self + length (split NL text)
      /\ length (split NL text) = count_occ N.eq_dec text NL + 1)
  /\ (forall text : str, split NL (text ++ [NL]) = split NL text ++ [[]])
  /\ (forall text : str, ~ In NL text -> length (split NL text) = 1)
  /\ (forall (E : ReEngine) (now : nat -> str) (self : ChanukaErrorExtractor)
             (tree : entry),
         scanned_lines (scan_codebase now self tree)
         = scanned_lines self
           + list_sum (map (fun rf => lines_of (snd rf)) (walked self tree))).
Proof.
  split; [|split; [|split]].
  - intros E now check self file_path data text Hin Hread.
    apply handlers_add in Hin as (k & ->).
    rewrite scanned_lines_add. unfold handler_delta. rewrite Hread.
    split; [reflexivity | apply split_length].
  - intros. apply split_snoc.
  - intros text H. now rewrite split_none.
  - intros E now self tree.
    now rewrite scan_codebase_add, scanned_lines_add, lines_counted_files_delta.
Qed.

Lemma C9_lines_scanned_witness :
  scanned_lines
    (check_typescript_file (E := PyRe ascii_only) stopped
       (fresh (PyRe ascii_only)) [u "proj"; u "a.ts"]
       (Bytes (bytes_of "const x: any = 1;" ++ [Byte.x0a]
               ++ bytes_of "// TODO refactor" ++ [Byte.x0a])))
  = 0 + 3.
Proof.
  refine (eq_trans
            (proj1 (proj1 C9_lines_scanned (PyRe ascii_only) stopped _
                      (fresh (PyRe ascii_only)) [u "proj"; u "a.ts"] _ _
                      (or_introl eq_refl) eq_refl)) _).
  vm_compute. reflexivity.
Defined.

(** C10.  Reading a file that holds any bytes at all gives a text, never
    an exception: a byte that cannot start a UTF-8 sequence is dropped and
    the bytes after it are decoded as usual, so the rest of the file is
    scanned.  A read-failure finding is recorded by a handler only for a
    file whose opening or reading raises.  In particular a source file
    with the line [// TODO fix this], a stray byte FF in its middle and a
    truncated three-byte sequence at its end yields the one finding of the
    TODO rule, its snippet without those bytes. *)
Theorem C10_undecodable_bytes_ignored :
  (forall data : list Byte.byte, exists text, read_text (Bytes data) = Ok text)
  /\ (forall (E : ReEngine) (now : nat -> str) (check : handler)
             (self : ChanukaErrorExtractor) (file_path : Path)
             (content : read_outcome) (f : Finding.t),
         In check [check_typescript_file now; check_react_file now;
                   check_javascript_file now] ->
         In f (errors (check self file_path content)) ->
         Finding.error_type f = u "File Read Error" ->
         In f (errors self) \/ exists e, content = Raises e)
  /\ (forall (a rest : list N) (b : N),
         Forall (fun x => (x < 128)%N) a ->
         (128 <= b < 194)%N \/ (245 <= b)%N ->
         utf8_ignore (a ++ b :: rest) = a ++ utf8_ignore rest)
  /\ (forall (ucd : char -> bool) (now : nat -> str) (file : string),
         In file source_names ->
         errors (scan_project (PyRe ucd) now file
                   (Bytes (bytes_of "// TODO" ++ [Byte.xff]
                           ++ bytes_of " fix this" ++ [Byte.xe4; Byte.xb8])))
         = [Finding.make (u "/proj/" ++ u file) (u file) (u "unknown")
              (u "Code Quality - TODO") (u "warning") (u "TODO comment")
              1 0 (now 0) (u "// TODO fix this")]).
Proof.
  split; [|split; [|split]].
  - intros data. eexists. reflexivity.
  - intros E now check self file_path content f Hin Hf Htype.
    apply handlers_add in Hin as (k & Hk). rewrite Hk in Hf.
    apply In_errors_add in Hf as [Hf|(g & time & Hg & ->)]; [now left|right].
    apply found_handler_delta in Hg
      as [(e & -> & _)
         |(text & patterns & n & line & pattern & _ & _ & _ & _ & _ & _ & _ & ->)].
    + now exists e.
    + exfalso. exact (rule_type_not_read_error self pattern Htype).
  - intros a rest b Ha Hb.
    now rewrite utf8_ignore_ascii, utf8_ignore_bad_start.
  - intros ucd now file Hin.
    repeat (destruct Hin as [<-|Hin]; [vm_compute; reflexivity|]).
    destruct Hin.
Qed.

Lemma C10_undecodable_bytes_ignored_witness :
  utf8_ignore ([47; 47] ++ 255 :: [32; 120])%N = ([47; 47] ++ [32; 120])%N.
Proof.
  refine (eq_trans
            (proj1 (proj2 (proj2 C10_undecodable_bytes_ignored))
               [47; 47]%N [32; 120]%N 255%N _ _) _).
  - repeat constructor.
  - right. vm_compute. discriminate.
  - reflexivity.
Defined.

(* ================================================================== *)
(** ** Further properties of the scanner *)

Lemma files_of_In (es : list entry) (name : str) (c : read_outcome) :
  In (name, c) (files_of es) <-> In (File name c) es.
Proof.
  induction es as [|[n c'|n l] es IH]; cbn [files_of In].
  - tauto.
  - rewrite IH. split.
    + intros [H|H]; [inversion H; subst|]; auto.
    + intros [H|H]; [inversion H; subst|]; auto.
  - rewrite IH. split; [auto|]. intros [H|H]; [discriminate|assumption].
Qed.

Lemma flatten_In (ys : list (Path * list (str * read_outcome))) (root : Path)
  (f : str * read_outcome) :
  In (root, f) (flatten ys) <-> exists files, In (root, files) ys /\ In f files.
Proof.
  unfold flatten. rewrite in_flat_map. split.
  - intros ([root' files] & Hy & H). cbn [fst snd] in H.
    apply in_map_iff in H as (f' & H & Hf). inversion H; subst. eauto.
  - intros (files & Hy & Hf). exists (root, files). split; [assumption|].
    cbn [fst snd]. now apply in_map.
Qed.

(** What a walk meets lies in the directory walked, below listable
    directories that the filter keeps. *)
Lemma os_walk_file_at (keep : str -> bool) (e : entry) :
  forall (top root : Path) (name : str) (c : read_outcome),
    In (root, (name, c)) (flatten (os_walk keep top e)) ->
    exists rel, root = top ++ rel /\ file_at e rel name c
                /\ Forall (fun d => keep d = true) rel.
Proof.
  induction e as [n c0|n|n es IH] using entry_induction;
    intros top root name c; rewrite flatten_In.
  - intros (files & [] & _).
  - intros (files & [] & _).
  - cbn [os_walk]. rewrite Forall_forall in IH.
    intros (files & [H|H] & Hf).
    + inversion H; subst. exists []. rewrite app_nil_r.
      repeat split; [|constructor]. constructor. now apply files_of_In.
    + apply in_flat_map in H as (e' & He' & H).
      destruct e' as [n' c'|n' l]; [contradiction|].
      destruct (keep n') eqn:Hk; [|contradiction].
      assert (Hin : In (root, (name, c))
                       (flatten (os_walk keep (top ++ [n']) (Dir n' l))))
        by (apply flatten_In; eauto).
      apply (IH _ He') in Hin as (rel & -> & Hat & Hrel).
      exists (n' :: rel). rewrite <- app_assoc.
      repeat split; [|now constructor]. econstructor; eassumption.
Qed.

(** X1.  The walk of [_scan_directory] hands over exactly the files the
    scanned directory holds at the end of a chain of listable directories
    whose names the in-place filter keeps: each such file is met, in the
    directory it lies in, and nothing else is. *)
Theorem X1_walk_exact (keep : str -> bool) (e : entry) :
  forall (top root : Path) (name : str) (c : read_outcome),
    In (root, (name, c)) (flatten (os_walk keep top e)) <->
    exists rel, root = top ++ rel /\ file_at e rel name c
                /\ Forall (fun d => keep d = true) rel.
Proof.
  intros top root name c. split; [apply os_walk_file_at|].
  revert top root name c.
  induction e as [n c0|n|n es IH] using entry_induction;
    intros top root name c (rel & -> & Hat & Hrel); try (now inversion Hat).
  rewrite flatten_In. cbn [os_walk]. rewrite Forall_forall in IH.
  inversion Hat as [? ? ? ? Hfile|? ? d l rel0 ? ? Hdir Hsub]; subst.
  - exists (files_of es). rewrite app_nil_r. split; [now left|].
    now apply files_of_In.
  - inversion Hrel as [|? ? Hkd Hrel0]; subst.
    assert (Hin : In (top ++ d :: rel0, (name, c))
                     (flatten (os_walk keep (top ++ [d]) (Dir d l)))).
    { apply (IH _ Hdir). exists rel0. rewrite <- app_assoc. auto. }
    apply flatten_In in Hin as (files & Hy & Hf).
    exists files. split; [right|assumption].
    apply in_flat_map. exists (Dir d l). split; [assumption|].
    now rewrite Hkd.
Qed.

Lemma rfind_None (c : char) (name : str) :
  rfind c name = None <-> ~ In c name.
Proof.
  induction name as [|x name IH]; cbn [rfind In]; [tauto|].
  destruct (rfind c name) as [i|].
  - split; [discriminate|]. intros H. exfalso. apply H. right.
    destruct (in_dec N.eq_dec c name) as [Hin|Hin]; [assumption|].
    apply IH in Hin. discriminate.
  - destruct (N.eqb_spec x c) as [->|Hne].
    + split; [discriminate|]. intros H. exfalso. apply H. now left.
    + split; [|reflexivity]. intros _ [H|H]; [congruence|].
      now apply (proj1 IH).
Qed.

Lemma rfind_app (c : char) (a b : str) :
  ~ In c b -> rfind c (a ++ c :: b) = Some (length a).
Proof.
  intros Hb. induction a as [|x a IH]; cbn [app rfind length].
  - apply rfind_None in Hb. now rewrite Hb, N.eqb_refl.
  - now rewrite IH.
Qed.

Lemma rfind_Some (c : char) (name : str) (i : nat) :
  rfind c name = Some i ->
  exists a b, name = a ++ c :: b /\ ~ In c b /\ length a = i.
Proof.
  revert i. induction name as [|x name IH]; cbn [rfind]; intros i H;
    [discriminate|].
  destruct (rfind c name) as [j|] eqn:Hj.
  - inversion H; subst. destruct (IH j eq_refl) as (a & b & -> & Hb & Ha).
    exists (x :: a), b. cbn. auto.
  - destruct (N.eqb_spec x c) as [->|Hne]; [|discriminate].
    inversion H; subst. exists [], name. repeat split.
    now apply rfind_None.
Qed.

(** [path.suffix] by cases: the part of the name from its last dot on,
    when that dot neither starts nor ends the name. *)
Lemma suffix_spec (name : str) :
  (exists stem ext,
      name = stem ++ re.ch "." :: ext /\ stem <> [] /\ ext <> []
      /\ ~ In (re.ch ".") ext /\ suffix name = re.ch "." :: ext)
  \/ (suffix name = []
      /\ forall stem ext,
           name = stem ++ re.ch "." :: ext -> ~ In (re.ch ".") ext ->
           stem = [] \/ ext = []).
Proof.
  unfold suffix. destruct (rfind (re.ch ".") name) as [i|] eqn:Hr.
  - apply rfind_Some in Hr as (a & b & -> & Hb & <-).
    rewrite length_app. cbn [length].
    destruct a as [|x a]; [|destruct b as [|y b]].
    + right. split; [reflexivity|]. intros stem ext Heq Hext.
      destruct stem as [|z stem]; [now left|]. exfalso.
      assert (H : rfind (re.ch ".") ((z :: stem) ++ re.ch "." :: ext)
                  = Some (length (z :: stem))) by now apply rfind_app.
      rewrite <- Heq in H. cbn [app] in H.
      pose proof (@rfind_app (re.ch ".") [] b Hb) as H0.
      cbn [app length] in H0. rewrite H0 in H. discriminate.
    + right. split.
      { match goal with
        | |- context [?p <? ?q + S ?r - 1] =>
            destruct (Nat.ltb_spec p (q + S r - 1)) as [Hlt|Hge]
        end; [cbn [length] in Hlt; lia|].
        now rewrite andb_false_r. }
      intros stem ext Heq Hext.
      destruct ext as [|z ext]; [now right|]. exfalso.
      assert (H : rfind (re.ch ".") (stem ++ re.ch "." :: z :: ext)
                  = Some (length stem)) by now apply rfind_app.
      rewrite <- Heq, (@rfind_app (re.ch ".") (x :: a) [] Hb) in H.
      inversion H as [Hlen].
      apply (f_equal (@length _)) in Heq. rewrite !length_app in Heq.
      cbn [length] in Heq. lia.
    + left. exists (x :: a), (y :: b).
      repeat split; try discriminate; [assumption|].
      match goal with
      | |- context [?p <? ?q + S ?r - 1] =>
          destruct (Nat.ltb_spec p (q + S r - 1)) as [Hlt|Hge]
      end; [|cbn [length] in Hge; lia].
      change (0 <? length (x :: a)) with true. cbn [andb].
      rewrite skipn_app, Nat.sub_diag, skipn_all. reflexivity.
  - right. split; [reflexivity|]. intros stem ext -> _. exfalso.
    apply rfind_None in Hr. apply Hr. apply in_or_app. right. now left.
Qed.

Lemma app_same_length (A : Type) (a a' b b' : list A) :
  a ++ b = a' ++ b' -> length a = length a' -> a = a' /\ b = b'.
Proof.
  revert a'. induction a as [|x a IH]; intros [|y a'] Heq Hlen;
    try discriminate; cbn [app] in *; [auto|].
  inversion Heq; subst. destruct (IH a') as [-> ->]; auto.
Qed.

Lemma lower_cons (c : char) (s : str) : lower (c :: s) = lower_char c :: lower s.
Proof. reflexivity. Qed.

Lemma kind_of_Some (ext : str) :
  kind_of (re.ch "." :: ext) <> None <->
  In ext [u "ts"; u "tsx"; u "js"; u "jsx"].
Proof.
  unfold kind_of.
  repeat match goal with
         | |- context [str_eqb ?a ?b] =>
             let H := fresh "H" in
             destruct (str_eqb a b) eqn:H;
             [apply str_eqb_eq in H; inversion H; subst;
              split; [intros _; cbn; tauto | discriminate]
             |]
         end.
  split; [congruence|].
  intros Hin. cbn [In] in Hin.
  repeat match goal with
         | H : str_eqb (_ :: ext) ?k = false |- _ =>
             apply not_true_iff_false in H;
             rewrite str_eqb_eq in H; revert H
         end.
  intros. decompose [or] Hin; subst; try contradiction;
    match goal with H : ?x <> ?x |- _ => now elim H end.
Qed.

(** X2.  A file of a walked directory is handed to a handler, and counted
    as a file scanned, exactly when its name is a non-empty stem, a dot
    and one of [ts], [tsx], [js], [jsx] in any mix of upper and lower
    case, the extension being what follows the last dot; any other file
    leaves the state as it was. *)
Theorem X2_eligible_names (E : ReEngine) (now : nat -> str) (root : Path)
  (self : ChanukaErrorExtractor) (name : str) (c : read_outcome) :
  ((exists stem ext,
       name = stem ++ re.ch "." :: ext /\ stem <> []
       /\ ~ In (re.ch ".") ext
       /\ In (lower ext) [u "ts"; u "tsx"; u "js"; u "jsx"]) ->
   file_count (scan_file now root self (name, c)) = file_count self + 1)
  /\ (~ (exists stem ext,
            name = stem ++ re.ch "." :: ext /\ stem <> []
            /\ ~ In (re.ch ".") ext
            /\ In (lower ext) [u "ts"; u "tsx"; u "js"; u "jsx"]) ->
      scan_file now root self (name, c) = self).
Proof.
  assert (Hiff : eligible name = true <->
                 exists stem ext,
                   name = stem ++ re.ch "." :: ext /\ stem <> []
                   /\ ~ In (re.ch ".") ext
                   /\ In (lower ext) [u "ts"; u "tsx"; u "js"; u "jsx"]).
  { unfold eligible.
    destruct (suffix_spec name)
      as [(stem & ext & Hn & Hs & He & Hd & Hsuf)|[Hsuf Hno]].
    - rewrite Hsuf, lower_cons.
      change (lower_char (re.ch ".")) with (re.ch ".").
      pose proof (kind_of_Some (lower ext)) as Hk.
      destruct (kind_of (re.ch "." :: lower ext)) as [k|].
      + split; [intros _|reflexivity].
        exists stem, ext. repeat split; auto. apply Hk. discriminate.
      + split; [discriminate|]. intros (stem' & ext' & Hn' & Hs' & Hd' & Hin).
        exfalso. rewrite Hn in Hn'.
        assert (Hr : rfind (re.ch ".") (stem ++ re.ch "." :: ext)
                     = Some (length stem)) by now apply rfind_app.
        rewrite Hn', (@rfind_app (re.ch ".") stem' ext' Hd') in Hr.
        inversion Hr as [Hlen].
        destruct (app_same_length _ _ _ _ Hn' (eq_sym Hlen)) as [_ Hext].
        inversion Hext; subst ext'. apply Hk in Hin. congruence.
    - rewrite Hsuf. cbn. split; [discriminate|].
      intros (stem & ext & Hn & Hs & Hd & Hin). exfalso.
      destruct (Hno stem ext Hn Hd) as [H|H]; [contradiction|].
      subst ext. cbn in Hin. intuition discriminate. }
  rewrite scan_file_add, file_count_add, files_counted_file_delta.
  cbn [fst]. split.
  - intros H. apply Hiff in H. now rewrite H.
  - intros H. unfold file_delta. cbn [fst].
    assert (Hel : eligible name = false).
    { destruct (eligible name) eqn:Hel; [|reflexivity].
      exfalso. apply H. now apply Hiff. }
    unfold eligible in Hel.
    destruct (kind_of (lower (suffix name))); [discriminate|].
    apply add_zero.
Qed.

Lemma X2_eligible_names_witness :
  file_count
    (scan_file (E := PyRe ascii_only) stopped [u "proj"]
       (fresh (PyRe ascii_only)) (u "types.d.TS", Raises (u "denied")))
  = file_count (fresh (PyRe ascii_only)) + 1.
Proof.
  apply (proj1 (@X2_eligible_names (PyRe ascii_only) stopped [u "proj"]
                  (fresh (PyRe ascii_only)) (u "types.d.TS")
                  (Raises (u "denied")))).
  exists (u "types.d"), (u "TS").
  split; [reflexivity|]. split; [discriminate|]. split.
  - vm_compute. intuition discriminate.
  - vm_compute. auto.
Defined.

Lemma split_app_sep (sep : char) (a b : str) :
  ~ In sep a -> split sep (a ++ sep :: b) = a :: split sep b.
Proof.
  induction a as [|x a IH]; cbn [app split In]; intros Ha.
  - now rewrite N.eqb_refl.
  - destruct (N.eqb_spec x sep) as [->|Hne]; [tauto|].
    rewrite IH by tauto. reflexivity.
Qed.

Lemma split_cons_sep (sep : char) (b : str) :
  split sep (sep :: b) = [] :: split sep b.
Proof. cbn [split]. now rewrite N.eqb_refl. Qed.

(** Splitting at the separator what [join] put together gives the parts
    back, none of them holding the separator. *)
Lemma split_join (c : char) (parts : list str) :
  parts <> [] -> Forall (fun p => ~ In c p) parts ->
  split c (join [c] parts) = parts.
Proof.
  induction parts as [|p parts IH]; [congruence|]. intros _ Hall.
  inversion Hall as [|? ? Hp Hrest]; subst.
  destruct parts as [|q parts].
  - cbn [join]. now apply split_none.
  - change (join [c] (p :: q :: parts)) with (p ++ [c] ++ join [c] (q :: parts)).
    cbn [app]. rewrite split_app_sep by assumption.
    rewrite IH; [reflexivity|discriminate|assumption].
Qed.

(** [Path(str(p))] is [p] for a path of proper names. *)
Lemma Path_of_str_of_Path (p : Path) :
  Forall proper_name p -> Path_of_str (str_of_Path p) = p.
Proof.
  intros Hp. unfold Path_of_str, str_of_Path, sep.
  change (u "/") with [re.ch "/"]. cbn [app].
  rewrite split_cons_sep. cbn [filter str_eqb negb andb].
  destruct p as [|q p]; [reflexivity|].
  rewrite split_join; [|discriminate|].
  - apply forallb_filter_id. apply forallb_forall. intros x Hx.
    rewrite Forall_forall in Hp. destruct (Hp x Hx) as (H1 & H2 & _).
    apply andb_true_iff. split; apply negb_true_iff;
      apply not_true_iff_false; rewrite str_eqb_eq; assumption.
  - eapply Forall_impl; [|exact Hp]. intros x (_ & _ & H). exact H.
Qed.

Lemma relative_to_app (base rel : Path) :
  relative_to (base ++ rel) base = Some rel.
Proof.
  induction base as [|b base IH]; [now destruct rel|].
  cbn [app relative_to]. now rewrite str_eqb_refl.
Qed.

Lemma relative_to_Some (path base rel : Path) :
  relative_to path base = Some rel -> path = base ++ rel.
Proof.
  revert path. induction base as [|b base IH]; intros path H.
  - destruct path; inversion H; reflexivity.
  - destruct path as [|x path]; [discriminate|]. cbn [relative_to] in H.
    destruct (str_eqb x b) eqn:Hx; [|discriminate].
    apply str_eqb_eq in Hx. subst. cbn [app]. f_equal. now apply IH.
Qed.

(** X3.  [add_error] appends one finding and changes no other.  For a
    file below the root, all names being proper, the finding's relative
    path is the path from the root, its parts joined by slashes, and its
    module is the first part of that path if it is [client], [server],
    [shared] or [src], and [unknown] otherwise (1).  For a path that is
    not below the root the relative path is the path as given, and the
    module of an absolute path is [unknown] (2). *)
Theorem X3_relative_path_and_module (E : ReEngine) (now : nat -> str)
  (self : ChanukaErrorExtractor) (error_type message : str)
  (line_number column : nat) (severity code_snippet : str) :
  (forall (first : str) (rest : Path),
      Forall proper_name (root_dir self) ->
      Forall proper_name (first :: rest) ->
      exists f,
        errors (add_error now self
                  (str_of_Path (root_dir self ++ first :: rest))
                  error_type message line_number column severity
                  code_snippet)
        = errors self ++ [f]
        /\ Finding.file f = str_of_Path (root_dir self ++ first :: rest)
        /\ Finding.relative_path f = join sep (first :: rest)
        /\ Finding.module f
           = (if str_in first known_modules then first else u "unknown"))
  /\ (forall (path : Path),
         Forall proper_name path ->
         relative_to path (root_dir self) = None ->
         exists f,
           errors (add_error now self (str_of_Path path) error_type message
                     line_number column severity code_snippet)
           = errors self ++ [f]
           /\ Finding.relative_path f = str_of_Path path
           /\ Finding.module f = u "unknown").
Proof.
  split.
  - intros first rest Hroot Hrel.
    eexists. split; [reflexivity|]. split; [reflexivity|].
    unfold error_dict. cbn [Finding.relative_path Finding.module].
    rewrite Path_of_str_of_Path by (apply Forall_app; auto).
    rewrite relative_to_app.
    assert (Hsplit : split (re.ch "/") (str_of_relative (first :: rest))
                     = first :: rest).
    { cbn [str_of_relative]. unfold sep. change (u "/") with [re.ch "/"].
      apply split_join; [discriminate|].
      eapply Forall_impl; [|exact Hrel]. intros x (_ & _ & H). exact H. }
    rewrite Hsplit. split; reflexivity.
  - intros path Hpath Hnone.
    eexists. split; [reflexivity|].
    unfold error_dict. cbn [Finding.relative_path Finding.module].
    rewrite Path_of_str_of_Path, Hnone by assumption.
    split; [reflexivity|].
    unfold str_of_Path, sep. change (u "/") with [re.ch "/"]. cbn [app].
    rewrite split_cons_sep. reflexivity.
Qed.

Lemma X3_relative_path_and_module_witness :
  exists f,
    errors (add_error stopped (fresh (PyRe ascii_only))
              (str_of_Path (root_dir (fresh (PyRe ascii_only))
                            ++ u "client" :: [u "src"; u "App.tsx"]))
              (u "React - dangerously_set") (u "m") 3 0 (u "warning") (u "s"))
    = errors (fresh (PyRe ascii_only)) ++ [f]
    /\ Finding.file f
       = str_of_Path (root_dir (fresh (PyRe ascii_only))
                      ++ u "client" :: [u "src"; u "App.tsx"])
    /\ Finding.relative_path f = join sep (u "client" :: [u "src"; u "App.tsx"])
    /\ Finding.module f
       = (if str_in (u "client") known_modules then u "client" else u "unknown").
Proof.
  apply (proj1 (@X3_relative_path_and_module (PyRe ascii_only) stopped
                  (fresh (PyRe ascii_only)) (u "React - dangerously_set")
                  (u "m") 3 0 (u "warning") (u "s"))).
  - repeat constructor; vm_compute; intuition discriminate.
  - repeat constructor; vm_compute; intuition discriminate.
Defined.

Lemma error_dict_module (root_dir : Path) (file_path error_type message : str)
  (line_number column : nat) (severity code_snippet timestamp : str) :
  In (Finding.module
        (error_dict root_dir file_path error_type message line_number column
                    severity code_snippet timestamp))
     (u "unknown" :: known_modules).
Proof.
  unfold error_dict. cbn [Finding.module].
  destruct (split (re.ch "/") _) as [|first_dir rest]; [now left|].
  destruct (str_in first_dir known_modules) eqn:H; [|now left].
  right. now apply str_in_In.
Qed.

(** X4.  Every finding a scan records has one of five modules: [client],
    [server], [shared], [src] or [unknown]; and its column is 0, the
    matcher never working out where in the line a rule hit. *)
Theorem X4_modules_and_columns (E : ReEngine) (now : nat -> str)
  (self : ChanukaErrorExtractor) (tree : entry) (f : Finding.t) :
  In f (errors (scan_codebase now self tree)) ->
  In f (errors self)
  \/ (In (Finding.module f)
         [u "unknown"; u "client"; u "server"; u "shared"; u "src"]
      /\ Finding.column f = 0).
Proof.
  intros H.
  apply scan_provenance in H
    as [H|(root & file & content & k & g & time & _ & _ & Hg & ->)];
    [now left|right].
  apply found_handler_delta in Hg
    as [(e & _ & ->)|(? & ? & ? & ? & ? & _ & _ & _ & _ & _ & _ & _ & ->)].
  - split; [|reflexivity]. apply error_dict_module.
  - split; [|reflexivity]. apply error_dict_module.
Qed.

Lemma X4_modules_and_columns_witness :
  In (Finding.make (u "/proj/a.ts") (u "a.ts") (u "unknown")
        (u "Code Quality - TODO") (u "warning") (u "TODO comment") 1 0
        (stopped 0) (u "// TODO fix this"))
     (errors (fresh (PyRe ascii_only)))
  \/ (In (u "unknown")
         [u "unknown"; u "client"; u "server"; u "shared"; u "src"]
      /\ 0 = 0).
Proof.
  apply (@X4_modules_and_columns (PyRe ascii_only) stopped
           (fresh (PyRe ascii_only))
           (proj_with "a.ts" (Bytes (bytes_of "// TODO fix this")))
           (Finding.make (u "/proj/a.ts") (u "a.ts") (u "unknown")
              (u "Code Quality - TODO") (u "warning") (u "TODO comment") 1 0
              (stopped 0) (u "// TODO fix this"))).
  vm_compute. left. reflexivity.
Defined.

(** X5.  [scan_codebase] always has somewhere to scan.  When none of
    [client/src], [server], [shared] and [src] is a directory of the
    project it scans the project root; as soon as one of them is, it
    scans those that are, and only those: a file lying in the root itself
    is then not handed to any handler. *)
Theorem X5_scan_directories (root_dir : Path) (tree : entry) :
  scan_dirs root_dir tree <> []
  /\ ((forall pd e, In pd possible_dirs -> lookup tree pd = Some e ->
                    is_dir e = false) ->
      scan_dirs root_dir tree = [(root_dir, tree)])
  /\ ((exists pd e, In pd possible_dirs /\ lookup tree pd = Some e
                    /\ is_dir e = true) ->
      (forall d e,
          In (d, e) (scan_dirs root_dir tree) <->
          exists pd, In pd possible_dirs /\ d = root_dir ++ pd
                     /\ lookup tree pd = Some e /\ is_dir e = true)
      /\ forall (keep : str -> bool) (file : str) (c : read_outcome),
           ~ In (root_dir, (file, c))
                (flat_map (fun d => flatten (os_walk keep (fst d) (snd d)))
                          (scan_dirs root_dir tree))).
Proof.
  unfold scan_dirs.
  set (conventional :=
         flat_map (fun possible_dir =>
                     match lookup tree possible_dir with
                     | Some e =>
                         if is_dir e then [(root_dir ++ possible_dir, e)]
                         else []
                     | None => []
                     end) possible_dirs).
  assert (Hconv : forall d e,
             In (d, e) conventional <->
             exists pd, In pd possible_dirs /\ d = root_dir ++ pd
                        /\ lookup tree pd = Some e /\ is_dir e = true).
  { intros d e. unfold conventional. rewrite in_flat_map. split.
    - intros (pd & Hpd & H).
      destruct (lookup tree pd) as [e'|] eqn:Hl; [|contradiction].
      destruct (is_dir e') eqn:Hd; [|contradiction].
      destruct H as [H|[]]. inversion H; subst. eauto.
    - intros (pd & Hpd & -> & Hl & Hd). exists pd. split; [assumption|].
      rewrite Hl, Hd. now left. }
  split; [|split].
  - destruct conventional; discriminate.
  - intros Hnone. destruct conventional as [|[d e] rest] eqn:Hc; [reflexivity|].
    exfalso.
    destruct (proj1 (Hconv d e) (or_introl eq_refl))
      as (pd & Hpd & _ & Hl & Hd).
    rewrite (Hnone pd e Hpd Hl) in Hd. discriminate.
  - intros (pd & e & Hpd & Hl & Hd).
    assert (Hin : In (root_dir ++ pd, e) conventional)
      by (apply Hconv; eauto).
    destruct conventional as [|x rest]; [contradiction|].
    split; [exact Hconv|].
    intros keep file c H.
    apply in_flat_map in H as ([d e'] & Hde & H). cbn [fst snd] in H.
    apply Hconv in Hde as (pd' & Hpd' & -> & _ & _).
    apply flatten_In in H as (files & Hy & _).
    apply os_walk_roots in Hy as (rel & Heq & _).
    rewrite <- app_assoc in Heq.
    rewrite <- (app_nil_r root_dir) in Heq at 1.
    apply app_inv_head in Heq.
    cbn in Hpd'. decompose [or] Hpd'; subst; try discriminate; contradiction.
Qed.

Lemma X5_scan_directories_witness :
  scan_dirs [u "proj"] two_files = [([u "proj"], two_files)].
Proof.
  apply (proj1 (proj2 (X5_scan_directories [u "proj"] two_files))).
  intros pd e Hpd Hl. cbn in Hpd.
  decompose [or] Hpd; subst; try contradiction; vm_compute in Hl; discriminate.
Defined.

Lemma timestamp_stamp (now : nat -> str) (t : nat) (fs : list Finding.t) :
  map Finding.timestamp (stamp now t fs) = map now (seq t (length fs)).
Proof.
  revert t. induction fs as [|f fs IH]; intros t; [reflexivity|].
  cbn [stamp map length seq]. now rewrite IH.
Qed.

(** X6.  A scan only adds: the findings there were stay as they were, at
    the head of the list, and those added carry the readings of the clock
    in the order they were recorded in, one reading for each.  The root,
    the output file, the ignore set and the four rule collections are
    what they were. *)
Theorem X6_append_only (E : ReEngine) (now : nat -> str)
  (self : ChanukaErrorExtractor) (tree : entry) :
  exists added,
    errors (scan_codebase now self tree) = errors self ++ added
    /\ map Finding.timestamp added = map now (seq (ticks self) (length added))
    /\ ticks (scan_codebase now self tree) = ticks self + length added
    /\ root_dir (scan_codebase now self tree) = root_dir self
    /\ output_file (scan_codebase now self tree) = output_file self
    /\ skip_dirs (scan_codebase now self tree) = skip_dirs self
    /\ typescript_patterns (scan_codebase now self tree)
       = typescript_patterns self
    /\ react_patterns (scan_codebase now self tree) = react_patterns self
    /\ common_patterns (scan_codebase now self tree) = common_patterns self
    /\ import_patterns (scan_codebase now self tree) = import_patterns self.
Proof.
  rewrite scan_codebase_add.
  destruct (files_delta self (walked self tree)) as [[fs nf] nl].
  exists (stamp now (ticks self) fs).
  split; [reflexivity|]. split; [|split].
  - now rewrite timestamp_stamp, stamp_length.
  - cbn. now rewrite stamp_length.
  - repeat split.
Qed.

(** X7.  On one file the handler for components records what the handler
    for scripts records, after the findings of the component rules: the
    same read failure, or the findings of the React collection on the
    lines of the file followed by those of the other three collections.
    Both count the same lines. *)
Theorem X7_component_handler (E : ReEngine) (now : nat -> str)
  (self : ChanukaErrorExtractor) (file_path : Path) (content : read_outcome) :
  exists component_findings script_findings,
    map Finding.untimed (errors (check_typescript_file now self file_path content))
    = map Finding.untimed (errors self) ++ script_findings
    /\ map Finding.untimed (errors (check_react_file now self file_path content))
       = map Finding.untimed (errors self) ++ component_findings
         ++ script_findings
    /\ scanned_lines (check_react_file now self file_path content)
       = scanned_lines (check_typescript_file now self file_path content)
    /\ (forall f, In f component_findings ->
                  exists pattern,
                    In pattern (react_patterns self)
                    /\ Finding.error_type f
                       = _get_category self pattern ++ name pattern)
    /\ ((exists e, content = Raises e) -> component_findings = []).
Proof.
  rewrite check_typescript_file_add, check_react_file_add.
  rewrite !errors_add, !scanned_lines_add, !map_app, !untimed_stamp.
  unfold handler_delta. destruct (read_text content) as [text|e] eqn:Hread.
  - exists (lines_findings self file_path (split NL text) (react_patterns self)),
      (map Finding.untimed
         (found (flat_map (lines_findings self file_path (split NL text))
                          (tables self Script), 0, length (split NL text)))).
    assert (Huntimed : forall l : list Finding.t,
               (forall g, In g l -> Finding.timestamp g = []) ->
               map Finding.untimed l = l).
    { intros l Hl. rewrite <- (map_id l) at 2. apply map_ext_in.
      intros [] Hg. apply Hl in Hg. cbn in Hg. now subst. }
    assert (Hrule : forall patterns g,
               In g (lines_findings self file_path (split NL text) patterns) ->
               Finding.timestamp g = []).
    { intros patterns g Hg.
      apply In_lines_findings in Hg as (? & ? & ? & _ & _ & _ & _ & _ & ->).
      reflexivity. }
    split; [reflexivity|]. split; [|split; [reflexivity|split]].
    + f_equal. cbn [found fst tables flat_map]. rewrite map_app.
      f_equal. apply Huntimed. apply Hrule.
    + intros f Hf.
      apply In_lines_findings in Hf as (? & ? & pattern & _ & Hp & _ & _ & _ & ->).
      exists pattern. split; [assumption|reflexivity].
    + intros (e & ->). discriminate.
  - exists [], [read_failure_finding self file_path e].
    repeat split. intros f [].
Qed.

(** X8.  The comment test looks for two slashes or a star and nothing
    else: on a line that opens a block comment with a slash and a star,
    or starts with a hash, a rule that hits is recorded whether it is a
    marker rule or not. *)
Theorem X8_block_comment_opening_scanned (E : ReEngine) (now : nat -> str)
  (self : ChanukaErrorExtractor) (file_path : Path) (line_num : nat)
  (line : str) (pattern : Pattern) :
  startswith (strip line) (u "/*") = true
  \/ startswith (strip line) (u "#") = true ->
  hits pattern line = true ->
  exists f,
    errors (check_pattern now file_path line_num line self pattern)
    = errors self ++ [f]
    /\ Finding.line f = line_num
    /\ Finding.error_type f = _get_category self pattern ++ name pattern
    /\ Finding.severity f = severity pattern
    /\ Finding.message f = message pattern
    /\ Finding.code_snippet f = slice_to 150 (strip line).
Proof.
  intros Hstart Hhit. unfold check_pattern.
  rewrite Hhit, (startswith_block_comment _ Hstart). cbn [andb].
  eexists. split; [reflexivity|]. repeat split.
Qed.

Lemma X8_block_comment_opening_scanned_witness :
  exists f,
    errors (check_pattern (E := PyRe ascii_only) stopped [u "proj"; u "a.ts"] 7
              (u "  /* const any = 5 as any */") (fresh (PyRe ascii_only))
              (fst (Pattern_init (E := PyRe ascii_only) (u "any_usage")
                      (u ":\s*any\b|<any>|as\s+any\b") (u "warning") (u "m"))))
    = errors (fresh (PyRe ascii_only)) ++ [f]
    /\ Finding.line f = 7
    /\ Finding.error_type f
       = _get_category (fresh (PyRe ascii_only))
           (fst (Pattern_init (E := PyRe ascii_only) (u "any_usage")
                   (u ":\s*any\b|<any>|as\s+any\b") (u "warning") (u "m")))
         ++ name (fst (Pattern_init (E := PyRe ascii_only) (u "any_usage")
                         (u ":\s*any\b|<any>|as\s+any\b") (u "warning") (u "m")))
    /\ Finding.severity f
       = severity (fst (Pattern_init (E := PyRe ascii_only) (u "any_usage")
                          (u ":\s*any\b|<any>|as\s+any\b") (u "warning") (u "m")))
    /\ Finding.message f
       = message (fst (Pattern_init (E := PyRe ascii_only) (u "any_usage")
                         (u ":\s*any\b|<any>|as\s+any\b") (u "warning") (u "m")))
    /\ Finding.code_snippet f
       = slice_to 150 (strip (u "  /* const any = 5 as any */")).
Proof.
  apply (@X8_block_comment_opening_scanned (PyRe ascii_only) stopped).
  - left. vm_compute. reflexivity.
  - vm_compute. reflexivity.
Defined.

Lemma sum_incr (k : str) (d : counter) :
  list_sum (map snd (incr k d)) = S (list_sum (map snd d)).
Proof.
  induction d as [|[k0 n] d IH]; [reflexivity|].
  cbn [incr]. destruct (str_eqb k0 k); cbn [map snd list_sum fold_right].
  - reflexivity.
  - fold (list_sum (map snd (incr k d))). fold (list_sum (map snd d)).
    rewrite IH. lia.
Qed.

Lemma sum_count_by (key : Finding.t -> str) (errors : list Finding.t)
  (d : counter) :
  list_sum (map snd (count_by key errors d))
  = list_sum (map snd d) + length errors.
Proof.
  unfold count_by. revert d.
  induction errors as [|e errors IH]; intros d; cbn [fold_left length].
  - lia.
  - rewrite IH, sum_incr. lia.
Qed.

Lemma positive_incr (k : str) (d : counter) :
  Forall (fun x => 1 <= snd x) d -> Forall (fun x => 1 <= snd x) (incr k d).
Proof.
  induction d as [|[k0 n] d IH]; intros H; cbn [incr].
  - constructor; [cbn; lia|constructor].
  - inversion H as [|? ? Hn Hd]; subst.
    destruct (str_eqb k0 k); constructor; cbn [snd] in *; auto; lia.
Qed.

Lemma positive_count_by (key : Finding.t -> str) (errors : list Finding.t)
  (d : counter) :
  Forall (fun x => 1 <= snd x) d ->
  Forall (fun x => 1 <= snd x) (count_by key errors d).
Proof.
  unfold count_by. revert d.
  induction errors as [|e errors IH]; intros d H; cbn [fold_left];
    [assumption|].
  apply IH. now apply positive_incr.
Qed.

Lemma first_seen_NoDup (keys seen : list str) :
  NoDup seen -> NoDup (seen ++ first_seen keys seen).
Proof.
  revert seen. induction keys as [|k keys IH]; intros seen H;
    cbn [first_seen].
  - now rewrite app_nil_r.
  - destruct (str_in k seen) eqn:Hk; [now apply IH|].
    change (k :: first_seen keys (seen ++ [k]))
      with ([k] ++ first_seen keys (seen ++ [k])).
    rewrite app_assoc. apply IH.
    apply NoDup_app; [assumption|repeat constructor; intros []|].
    intros x Hx [<-|[]].
    apply str_in_In in Hx. congruence.
Qed.

Lemma NoDup_keys_count_by (key : Finding.t -> str) (errors : list Finding.t) :
  NoDup (map fst (count_by key errors [])).
Proof.
  rewrite keys_count_by. apply (first_seen_NoDup _ (@NoDup_nil str)).
Qed.

Lemma StronglySorted_app (A : Type) (R : A -> A -> Prop) (a b : list A) :
  StronglySorted R (a ++ b) ->
  forall x y, In x a -> In y b -> R x y.
Proof.
  induction a as [|h a IH]; intros H x y Hx Hy; [contradiction|].
  cbn [app] in H. apply StronglySorted_inv in H as [Hs Hh].
  destruct Hx as [<-|Hx].
  - rewrite Forall_forall in Hh. apply Hh. apply in_or_app. now right.
  - now apply IH.
Qed.

Lemma top_dominates (n : nat) (d : counter) (x y : str * nat) :
  In x (firstn n (most_common d)) -> In y d ->
  ~ In y (firstn n (most_common d)) -> snd y <= snd x.
Proof.
  intros Hx Hy Hny.
  destruct (most_common_spec d) as (Hperm & Hsorted & _).
  rewrite <- (firstn_skipn n (most_common d)) in Hsorted.
  apply (@StronglySorted_app _ _ _ _ Hsorted x y); [assumption|].
  apply (Permutation_in _ Hperm) in Hy.
  rewrite <- (firstn_skipn n (most_common d)) in Hy.
  apply in_app_or in Hy as [Hy|Hy]; [contradiction|assumption].
Qed.

(** X9.  The statistics add up.  On each of the four axes the counts sum
    to the number of findings, no entry has a count of zero and no key
    comes twice.  The list of top types has 15 entries, or all of them
    when there are fewer; the list of critical files 10; and a type or
    file left out of its list has no more findings than any that is in
    it. *)
Theorem X9_statistics_add_up (E : ReEngine) (self : ChanukaErrorExtractor) :
  let stats := generate_statistics self in
  (forall axis,
      In axis [by_severity stats; by_type stats; by_module stats;
               by_file stats] ->
      list_sum (map snd axis) = total_errors stats
      /\ Forall (fun x => 1 <= snd x) axis
      /\ NoDup (map fst axis))
  /\ length (top_errors stats) = Nat.min 15 (length (by_type stats))
  /\ length (critical_files stats) = Nat.min 10 (length (by_file stats))
  /\ (forall x y,
         In x (top_errors stats) -> In y (by_type stats) ->
         ~ In y (top_errors stats) -> snd y <= snd x)
  /\ (forall x y,
         In x (critical_files stats) -> In y (by_file stats) ->
         ~ In y (critical_files stats) -> snd y <= snd x).
Proof.
  cbv zeta. rewrite generate_statistics_eq.
  cbn [total_errors by_severity by_type by_module by_file top_errors
       critical_files].
  split; [|split; [|split; [|split]]].
  - intros axis Haxis.
    assert (H : exists key, axis = count_by key (errors self) []).
    { cbn in Haxis. decompose [or] Haxis; try contradiction; subst; eauto. }
    destruct H as (key & ->). split; [|split].
    + now rewrite sum_count_by.
    + apply positive_count_by. constructor.
    + apply NoDup_keys_count_by.
  - rewrite length_firstn.
    now rewrite <- (Permutation_length (proj1 (most_common_spec _))).
  - rewrite length_firstn.
    now rewrite <- (Permutation_length (proj1 (most_common_spec _))).
  - intros x y. apply top_dominates.
  - intros x y. apply top_dominates.
Qed.

Lemma proper_nameb_spec (n : str) : proper_nameb n = true -> proper_name n.
Proof.
  unfold proper_nameb, proper_name. intros H.
  apply andb_true_iff in H as [H H3]. apply andb_true_iff in H as [H1 H2].
  apply negb_true_iff in H1, H2, H3. repeat split.
  - intros ->. discriminate.
  - intros ->. discriminate.
  - intros Hin. apply not_true_iff_false in H3. apply H3.
    apply existsb_exists. exists (re.ch "/"). split; [assumption|].
    apply N.eqb_refl.
Qed.

Lemma file_at_proper (e : entry) :
  forall (rel : Path) (name : str) (c : read_outcome),
    proper_below e = true -> file_at e rel name c ->
    Forall proper_name (rel ++ [name]).
Proof.
  induction e as [n c0|n|n es IH] using entry_induction;
    intros rel name c Hp Hat; try (now inversion Hat).
  cbn [proper_below] in Hp. rewrite forallb_forall in Hp.
  rewrite Forall_forall in IH.
  inversion Hat as [? ? ? ? Hfile|? ? d l rel0 ? ? Hdir Hsub]; subst.
  - apply Hp in Hfile. cbn [proper_entry entry_name] in Hfile.
    rewrite andb_true_r in Hfile.
    constructor; [now apply proper_nameb_spec|constructor].
  - pose proof (Hp _ Hdir) as Hd. cbn [proper_entry entry_name] in Hd.
    apply andb_true_iff in Hd as [Hd Hl]. cbn [app].
    constructor; [now apply proper_nameb_spec|].
    apply (IH _ Hdir rel0 name c); [|assumption].
    destruct l; exact Hl.
Qed.

Lemma find_entry_Some (name : str) (es : list entry) (e : entry) :
  find_entry name es = Some e -> In e es /\ entry_name e = name.
Proof.
  induction es as [|x es IH]; [discriminate|]. cbn [find_entry].
  destruct (str_eqb (entry_name x) name) eqn:Hx.
  - intros H. inversion H; subst. apply str_eqb_eq in Hx. split; [now left|auto].
  - intros H. apply IH in H as [H1 H2]. split; [now right|assumption].
Qed.

(** A file of the directory at [rel] is a file of the tree, below [rel]. *)
Lemma lookup_file_at (rel : Path) :
  forall (tree e : entry) (rel' : Path) (name : str) (c : read_outcome),
    lookup tree rel = Some e -> file_at e rel' name c ->
    file_at tree (rel ++ rel') name c.
Proof.
  induction rel as [|n rel IH]; intros tree e rel' name c Hl Hat.
  - cbn in Hl. inversion Hl; subst. exact Hat.
  - cbn [lookup] in Hl. destruct tree as [|n0 [es|]]; try discriminate.
    destruct (find_entry n es) as [e'|] eqn:Hf; [|discriminate].
    apply find_entry_Some in Hf as [Hin Hname].
    pose proof (IH _ _ _ _ _ Hl Hat) as Hsub.
    destruct e' as [n' c'|n' l].
    + inversion Hsub.
    + cbn in Hname. subst n'. cbn [app]. econstructor; eassumption.
Qed.

(** The directories a scan starts from: the root when it has none of the
    conventional ones, and else those it has. *)
Lemma In_scan_dirs (root_dir : Path) (tree : entry) (d : Path) (e : entry) :
  In (d, e) (scan_dirs root_dir tree) ->
  (d = root_dir /\ e = tree
   /\ forall pd e', In pd possible_dirs -> lookup tree pd = Some e' ->
                    is_dir e' = false)
  \/ exists pd, In pd possible_dirs /\ d = root_dir ++ pd
                /\ lookup tree pd = Some e /\ is_dir e = true.
Proof.
  unfold scan_dirs.
  set (conventional :=
         flat_map (fun possible_dir =>
                     match lookup tree possible_dir with
                     | Some e =>
                         if is_dir e then [(root_dir ++ possible_dir, e)]
                         else []
                     | None => []
                     end) possible_dirs).
  assert (Hconv : forall d e,
             In (d, e) conventional <->
             exists pd, In pd possible_dirs /\ d = root_dir ++ pd
                        /\ lookup tree pd = Some e /\ is_dir e = true).
  { intros d0 e0. unfold conventional. rewrite in_flat_map. split.
    - intros (pd & Hpd & H).
      destruct (lookup tree pd) as [e'|] eqn:Hl; [|contradiction].
      destruct (is_dir e') eqn:Hd; [|contradiction].
      destruct H as [H|[]]. inversion H; subst. eauto.
    - intros (pd & Hpd & -> & Hl & Hd). exists pd. split; [assumption|].
      rewrite Hl, Hd. now left. }
  destruct conventional as [|x rest].
  - intros [H|[]]. inversion H; subst. left. repeat split.
    intros pd e' Hpd Hl. destruct (is_dir e') eqn:Hd; [|reflexivity].
    exfalso. apply (proj2 (Hconv (d ++ pd) e')). eauto.
  - intros H. right. now apply Hconv.
Qed.

Lemma error_dict_below (root_dir : Path) (first : str) (rest : Path)
  (error_type message : str) (line_number column : nat)
  (severity code_snippet timestamp : str) :
  Forall proper_name root_dir -> Forall proper_name (first :: rest) ->
  Finding.relative_path
    (error_dict root_dir (str_of_Path (root_dir ++ first :: rest)) error_type
       message line_number column severity code_snippet timestamp)
  = join sep (first :: rest)
  /\ Finding.module
       (error_dict root_dir (str_of_Path (root_dir ++ first :: rest))
          error_type message line_number column severity code_snippet
          timestamp)
     = (if str_in first known_modules then first else u "unknown").
Proof.
  intros Hroot Hrel.
  unfold error_dict. cbn [Finding.relative_path Finding.module].
  rewrite Path_of_str_of_Path by (apply Forall_app; auto).
  rewrite relative_to_app.
  assert (Hsplit : split (re.ch "/") (str_of_relative (first :: rest))
                   = first :: rest).
  { cbn [str_of_relative]. unfold sep. change (u "/") with [re.ch "/"].
    apply split_join; [discriminate|].
    eapply Forall_impl; [|exact Hrel]. intros x (_ & _ & H). exact H. }
  rewrite Hsplit. split; reflexivity.
Qed.

(** X10.  In a project that has one of the conventional directories, all
    names being proper, no finding of a scan has the module [unknown]:
    each comes from a file below one of [client/src], [server], [shared]
    and [src], its relative path is the path of that file from the project
    root, and its module is the first part of that path, which is
    [client], [server], [shared] or [src]. *)
Theorem X10_module_of_conventional (E : ReEngine) (now : nat -> str)
  (self : ChanukaErrorExtractor) (tree : entry) (f : Finding.t) :
  Forall proper_name (root_dir self) ->
  proper_below tree = true ->
  (exists pd e, In pd possible_dirs /\ lookup tree pd = Some e
                /\ is_dir e = true) ->
  In f (errors (scan_codebase now self tree)) ->
  In f (errors self)
  \/ exists (top : str) (below : Path) (file : str),
       In (top :: below) possible_dirs
       /\ exists rel c,
            file_at tree (top :: below ++ rel) file c
            /\ Finding.file f
               = str_of_Path (root_dir self ++ top :: below ++ rel ++ [file])
            /\ Finding.relative_path f
               = join sep (top :: below ++ rel ++ [file])
            /\ Finding.module f = top
            /\ In top known_modules.
Proof.
  intros Hroot Hproper (pd0 & e0 & Hpd0 & Hl0 & Hd0) H.
  apply scan_provenance in H
    as [H|(root & file & content & k & g & time & Hw & _ & Hg & ->)];
    [now left|right].
  unfold walked in Hw. apply in_flat_map in Hw as ([d e] & Hde & Hw).
  cbn [fst snd] in Hw.
  apply In_scan_dirs in Hde
    as [(_ & _ & Hnone)|(pd & Hpd & -> & Hl & Hd)].
  { rewrite (Hnone pd0 e0 Hpd0 Hl0) in Hd0. discriminate. }
  apply os_walk_file_at in Hw as (rel & -> & Hat & _).
  pose proof (lookup_file_at _ _ Hl Hat) as Hat'.
  pose proof (file_at_proper Hproper Hat') as Hnames.
  destruct pd as [|top below].
  { exfalso. cbn in Hpd. decompose [or] Hpd; try discriminate; contradiction. }
  assert (Htop : In top known_modules).
  { cbn in Hpd. decompose [or] Hpd; try contradiction;
      match goal with H : _ = top :: below |- _ => inversion H; subst end;
      cbn; auto. }
  exists top, below, file. split; [assumption|]. exists rel, content.
  split; [exact Hat'|].
  assert (Hpath : (root_dir self ++ top :: below) ++ rel ++ [file]
                  = root_dir self ++ top :: (below ++ rel ++ [file])).
  { now rewrite <- app_assoc. }
  assert (Hg' : exists error_type message line_number column severity
                       code_snippet,
             g = error_dict (root_dir self)
                   (str_of_Path (root_dir self ++ top :: (below ++ rel ++ [file])))
                   error_type message line_number column severity
                   code_snippet []).
  { rewrite <- Hpath, <- app_assoc.
    apply found_handler_delta in Hg
      as [(e' & _ & ->)|(? & ? & ? & ? & ? & _ & _ & _ & _ & _ & _ & _ & ->)];
      unfold read_failure_finding, rule_finding; rewrite <- !app_assoc;
      repeat eexists. }
  destruct Hg' as (error_type & message & line_number & column & severity
                   & code_snippet & ->).
  assert (Hnames' : Forall proper_name (top :: (below ++ rel ++ [file]))).
  { cbn [app] in Hnames. now rewrite <- app_assoc in Hnames. }
  destruct (error_dict_below error_type message line_number column severity
              code_snippet [] Hroot Hnames') as [Hrel Hmod].
  cbn [Finding.set_timestamp Finding.file Finding.relative_path
       Finding.module].
  rewrite Hrel, Hmod.
  apply str_in_In in Htop as Htop'. rewrite Htop'.
  repeat split; assumption.
Qed.

Lemma X10_module_of_conventional_witness :
  In (Finding.make (u "/proj/server/index.ts") (u "server/index.ts")
        (u "server") (u "Code Quality - TODO") (u "warning")
        (u "TODO comment") 1 0 (stopped 0) (u "// TODO fix this"))
     (errors (fresh (PyRe ascii_only)))
  \/ exists (top : str) (below : Path) (file : str),
       In (top :: below) possible_dirs
       /\ exists rel c,
            file_at monorepo (top :: below ++ rel) file c
            /\ u "/proj/server/index.ts"
               = str_of_Path (root_dir (fresh (PyRe ascii_only))
                              ++ top :: below ++ rel ++ [file])
            /\ u "server/index.ts" = join sep (top :: below ++ rel ++ [file])
            /\ u "server" = top
            /\ In top known_modules.
Proof.
  apply (@X10_module_of_conventional (PyRe ascii_only) stopped
           (fresh (PyRe ascii_only)) monorepo
           (Finding.make (u "/proj/server/index.ts") (u "server/index.ts")
              (u "server") (u "Code Quality - TODO") (u "warning")
              (u "TODO comment") 1 0 (stopped 0) (u "// TODO fix this"))).
  - repeat constructor; vm_compute; intuition discriminate.
  - vm_compute. reflexivity.
  - exists [u "server"]. eexists. split; [cbn; auto|].
    split; vm_compute; reflexivity.
  - vm_compute. auto.
Defined.

Lemma line_findings_line (E : ReEngine) (self : ChanukaErrorExtractor)
  (file_path : Path) (patterns : list Pattern) (numbered : nat * str)
  (g : Finding.t) :
  In g (line_findings self file_path patterns numbered) ->
  Finding.line g = fst numbered.
Proof.
  unfold line_findings. destruct (500 <? length (snd numbered)); [intros []|].
  intros H. apply in_flat_map in H as (pattern & _ & H).
  unfold pattern_findings in H.
  destruct (hits pattern (snd numbered)); [|contradiction].
  destruct (in_comment _ && _); [contradiction|].
  destruct H as [<-|[]]. reflexivity.
Qed.

Lemma StronglySorted_le_app (a b : list nat) :
  StronglySorted le a -> StronglySorted le b ->
  (forall x y, In x a -> In y b -> x <= y) ->
  StronglySorted le (a ++ b).
Proof.
  intros Ha Hb Hab. induction Ha as [|x a Ha IH Hx]; [assumption|].
  cbn [app]. constructor.
  - apply IH. intros; apply Hab; [now right|assumption].
  - apply Forall_app. split; [assumption|].
    apply Forall_forall. intros y Hy. apply Hab; [now left|assumption].
Qed.

Lemma StronglySorted_le_same (n : nat) (l : list nat) :
  (forall x, In x l -> x = n) -> StronglySorted le l.
Proof.
  induction l as [|x l IH]; intros H; constructor.
  - apply IH. intros; apply H; now right.
  - apply Forall_forall. intros y Hy.
    rewrite (H x (or_introl eq_refl)), (H y (or_intror Hy)). constructor.
Qed.

(** Within one rule collection the findings of a file are recorded line
    by line. *)
Lemma lines_findings_in_line_order (E : ReEngine)
  (self : ChanukaErrorExtractor) (file_path : Path) (lines : list str)
  (patterns : list Pattern) :
  StronglySorted le
    (map Finding.line (lines_findings self file_path lines patterns)).
Proof.
  unfold lines_findings, enumerate. generalize 1 as start.
  induction lines as [|line lines IH]; intros start; [constructor|].
  cbn [length seq combine flat_map]. rewrite map_app.
  apply StronglySorted_le_app.
  - apply (@StronglySorted_le_same start). intros x Hx.
    apply in_map_iff in Hx as (g & <- & Hg).
    now apply line_findings_line in Hg.
  - apply IH.
  - intros x y Hx Hy.
    apply in_map_iff in Hx as (g & <- & Hg).
    apply line_findings_line in Hg. cbn [fst] in Hg. rewrite Hg.
    apply in_map_iff in Hy as (g' & <- & Hg').
    apply in_flat_map in Hg' as ([n l] & Hn & Hg').
    apply line_findings_line in Hg'. cbn [fst] in Hg'. rewrite Hg'.
    apply in_combine_l in Hn. apply in_seq in Hn. lia.
Qed.

(** X11.  The findings of a file that can be read are recorded one rule
    collection after the other, in the order the handler goes through
    them (for a script: TypeScript, code quality, imports), and within a
    collection by ascending line, from line 1 on.  Each finding of a
    collection's run carries the name of one of its rules. *)
Theorem X11_recording_order (E : ReEngine) (now : nat -> str)
  (self : ChanukaErrorExtractor) (file_path : Path) (data : list Byte.byte) :
  exists typescript common imports,
    map Finding.untimed
        (errors (check_typescript_file now self file_path (Bytes data)))
    = map Finding.untimed (errors self) ++ typescript ++ common ++ imports
    /\ Forall (fun run =>
                 StronglySorted le (map Finding.line (fst run))
                 /\ forall f, In f (fst run) ->
                      1 <= Finding.line f
                      /\ exists pattern,
                           In pattern (snd run)
                           /\ Finding.error_type f
                              = _get_category self pattern ++ name pattern)
              [(typescript, typescript_patterns self);
               (common, common_patterns self);
               (imports, import_patterns self)].
Proof.
  rewrite check_typescript_file_add, errors_add, map_app, untimed_stamp.
  unfold handler_delta. cbn [read_text found fst tables flat_map].
  set (lines := split NL _).
  assert (Huntimed : forall patterns,
             map Finding.untimed (lines_findings self file_path lines patterns)
             = lines_findings self file_path lines patterns).
  { intros patterns.
    rewrite <- (map_id (lines_findings self file_path lines patterns)) at 2.
    apply map_ext_in. intros g Hg.
    apply In_lines_findings in Hg as (? & ? & ? & _ & _ & _ & _ & _ & ->).
    reflexivity. }
  assert (Hrun : forall patterns,
             StronglySorted le
               (map Finding.line (lines_findings self file_path lines patterns))
             /\ forall f, In f (lines_findings self file_path lines patterns) ->
                  1 <= Finding.line f
                  /\ exists pattern,
                       In pattern patterns
                       /\ Finding.error_type f
                          = _get_category self pattern ++ name pattern).
  { intros patterns. split; [apply lines_findings_in_line_order|].
    intros f Hf.
    apply In_lines_findings in Hf as (n & ? & pattern & _ & Hp & _ & _ & _ & ->).
    split; [cbn; lia|]. exists pattern. split; [assumption|reflexivity]. }
  exists (lines_findings self file_path lines (typescript_patterns self)),
    (lines_findings self file_path lines (common_patterns self)),
    (lines_findings self file_path lines (import_patterns self)).
  split.
  - rewrite app_nil_r, !map_app, !Huntimed. reflexivity.
  - repeat (apply Forall_cons; [cbn [fst snd]; apply Hrun|]).
    apply Forall_nil.
Qed.

Lemma init_fields (E : ReEngine) (root : Path) (out : str) :
  fst (__init__ root out)
  = {| root_dir := root; output_file := out; errors := [];
       file_count := 0; scanned_lines := 0; skip_dirs := default_skip_dirs;
       typescript_patterns := fst _init_typescript_patterns;
       react_patterns := fst _init_react_patterns;
       common_patterns := fst _init_common_patterns;
       import_patterns := fst _init_import_patterns; ticks := 0 |}.
Proof.
  unfold __init__.
  destruct _init_typescript_patterns, _init_react_patterns,
    _init_common_patterns, _init_import_patterns. reflexivity.
Qed.

Lemma Patterns_names (E : ReEngine) (args : list (str * str * str * str)) :
  map (@name E) (fst (Patterns args))
  = map (fun a => fst (fst (fst a))) args.
Proof.
  rewrite <- (Patterns_args E args) at 2. rewrite map_map. reflexivity.
Qed.

Lemma Pattern_eqb_refl (E : ReEngine) (p : Pattern) : Pattern_eqb p p = true.
Proof.
  unfold Pattern_eqb. rewrite !str_eqb_refl. cbn [andb].
  now destruct (compiled p).
Qed.

Lemma Pattern_in_In (E : ReEngine) (p : Pattern) (ps : list Pattern) :
  In p ps -> Pattern_in p ps = true.
Proof.
  intros H. unfold Pattern_in. apply existsb_exists.
  exists p. split; [assumption|apply Pattern_eqb_refl].
Qed.

Lemma Pattern_in_name (E : ReEngine) (p : Pattern) (ps : list Pattern) :
  Pattern_in p ps = true -> In (name p) (map (@name E) ps).
Proof.
  unfold Pattern_in. intros H. apply existsb_exists in H as (q & Hq & H).
  unfold Pattern_eqb in H. rewrite !andb_true_iff in H.
  destruct H as ((((H & _) & _) & _) & _). apply str_eqb_eq in H.
  rewrite H. now apply in_map.
Qed.

(** No name is shared by two rule tables. *)
Lemma disjoint_names (a b : list (str * str * str * str)) (n : str) :
  forallb (fun x => negb (str_in (fst (fst (fst x)))
                            (map (fun y => fst (fst (fst y))) b))) a = true ->
  In n (map (fun x => fst (fst (fst x))) a) ->
  ~ In n (map (fun y => fst (fst (fst y))) b).
Proof.
  intros Hall Hn Hb. apply in_map_iff in Hn as (x & <- & Hx).
  rewrite forallb_forall in Hall. apply Hall in Hx.
  apply negb_true_iff in Hx. apply str_in_In in Hb. congruence.
Qed.

(** The labels of the constructor's rules: each rule is labelled by the
    table it stands in. *)
Lemma category_of_rule (E : ReEngine) (self : ChanukaErrorExtractor)
  (pattern : Pattern) :
  typescript_patterns self = fst _init_typescript_patterns ->
  react_patterns self = fst _init_react_patterns ->
  common_patterns self = fst _init_common_patterns ->
  import_patterns self = fst _init_import_patterns ->
  (In pattern (typescript_patterns self) ->
   _get_category self pattern = u "TypeScript - ")
  /\ (In pattern (react_patterns self) ->
      _get_category self pattern = u "React - ")
  /\ (In pattern (import_patterns self) ->
      _get_category self pattern = u "Import/Export - ")
  /\ (In pattern (common_patterns self) ->
      _get_category self pattern = u "Code Quality - ").
Proof.
  intros Hts Hrx Hcm Him. unfold _get_category.
  rewrite Hts, Hrx, Hcm, Him.
  unfold _init_typescript_patterns, _init_react_patterns,
    _init_common_patterns, _init_import_patterns.
  assert (Hnot : forall a b : list (str * str * str * str),
             forallb (fun x => negb (str_in (fst (fst (fst x)))
                                       (map (fun y => fst (fst (fst y))) b))) a
             = true ->
             In pattern (fst (Patterns a)) ->
             Pattern_in pattern (fst (Patterns b)) = false).
  { intros a b Hab Hin. apply not_true_iff_false. intros Hb.
    apply Pattern_in_name in Hb. rewrite Patterns_names in Hb.
    apply (in_map (@name E)) in Hin. rewrite Patterns_names in Hin.
    exact (@disjoint_names a b _ Hab Hin Hb). }
  repeat split; intros Hin.
  - now rewrite (Pattern_in_In _ _ Hin).
  - rewrite (Hnot react_rules typescript_rules) by (vm_compute; auto).
    now rewrite (Pattern_in_In _ _ Hin).
  - rewrite (Hnot import_rules typescript_rules),
      (Hnot import_rules react_rules) by (vm_compute; auto).
    now rewrite (Pattern_in_In _ _ Hin).
  - now rewrite (Hnot common_rules typescript_rules),
      (Hnot common_rules react_rules), (Hnot common_rules import_rules)
      by (vm_compute; auto).
Qed.

(** X12.  With the rule tables of the constructor, whatever the engine
    makes of the patterns and whatever has been recorded since,
    [_get_category] gives every rule the label of the table it stands in:
    no rule of one table equals a rule of another, so that the order of
    the tests in [_get_category] does not matter for them. *)
Theorem X12_category_of_rule (E : ReEngine) (root : Path) (out : str)
  (self : ChanukaErrorExtractor) (pattern : Pattern) :
  same_config self (fst (__init__ root out)) ->
  (In pattern (typescript_patterns self) ->
   _get_category self pattern = u "TypeScript - ")
  /\ (In pattern (react_patterns self) ->
      _get_category self pattern = u "React - ")
  /\ (In pattern (import_patterns self) ->
      _get_category self pattern = u "Import/Export - ")
  /\ (In pattern (common_patterns self) ->
      _get_category self pattern = u "Code Quality - ").
Proof.
  intros (_ & _ & _ & Hts & Hrx & Hcm & Him).
  rewrite init_fields in Hts, Hrx, Hcm, Him.
  now apply category_of_rule.
Qed.

Lemma X12_category_of_rule_witness :
  _get_category (fresh (PyRe ascii_only))
    (nth 6 (react_patterns (fresh (PyRe ascii_only)))
         (Build_Pattern (E := PyRe ascii_only) [] [] [] [] None))
  = u "React - ".
Proof.
  apply (proj1 (proj2 (@X12_category_of_rule (PyRe ascii_only) [u "proj"]
                         (u "pattern_errors.json") (fresh (PyRe ascii_only))
                         _ (conj eq_refl (conj eq_refl (conj eq_refl
                              (conj eq_refl (conj eq_refl
                                 (conj eq_refl eq_refl))))))))).
  apply nth_In. vm_compute. lia.
Defined.

(** X13.  The report of a run: an extractor is made, the project is
    scanned, the document is written.  Its three counts of findings
    agree, and are the number of findings the scan recorded; it counts
    the files with a known extension the walk met, and their lines; the
    findings carry the first readings of the clock, in the order they
    were recorded in, and the scan date is the reading that follows. *)
Theorem X13_report_of_a_run (E : ReEngine) (now : nat -> str) (root : Path)
  (out : str) (tree : entry) :
  let scanned := scan_codebase now (fst (__init__ root out)) tree in
  let report := save_to_json now scanned in
  md_total_errors (metadata report) = length (errors scanned)
  /\ total_errors (statistics report) = length (errors scanned)
  /\ length (out_errors report) = length (errors scanned)
  /\ root_directory (metadata report) = str_of_Path root
  /\ files_scanned (metadata report)
     = length (filter (fun rf => eligible (fst (snd rf)))
                      (walked (fst (__init__ root out)) tree))
  /\ lines_scanned (metadata report)
     = list_sum (map (fun rf => lines_of (snd rf))
                     (walked (fst (__init__ root out)) tree))
  /\ map Finding.timestamp (errors scanned)
     = map now (seq 0 (length (errors scanned)))
  /\ scan_date (metadata report) = now (length (errors scanned)).
Proof.
  cbv zeta. unfold save_to_json. cbn [metadata statistics out_errors
    md_total_errors root_directory files_scanned lines_scanned scan_date].
  rewrite generate_statistics_eq. cbn [total_errors].
  rewrite <- (Permutation_length (sorted_perm report_le _)).
  rewrite scan_codebase_add.
  rewrite file_count_add, scanned_lines_add, files_counted_files_delta,
    lines_counted_files_delta.
  set (self := fst (__init__ root out)).
  assert (Hself : errors self = [] /\ ticks self = 0 /\ file_count self = 0
                  /\ scanned_lines self = 0 /\ root_dir self = root).
  { unfold self. rewrite init_fields. repeat split. }
  destruct Hself as (He & Ht & Hf & Hl & Hr).
  destruct (files_delta self (walked self tree)) as [[fs nf] nl] eqn:Hd.
  cbn [add with_counts with_errors errors root_dir ticks].
  rewrite He, Ht, Hf, Hl, Hr. cbn [app Nat.add].
  rewrite timestamp_stamp, stamp_length.
  repeat split.
Qed.

Lemma filter_none (A : Type) (p : A -> bool) (l : list A) :
  (forall x, In x l -> p x = false) -> filter p l = [].
Proof.
  induction l as [|x l IH]; intros H; [reflexivity|]. cbn [filter].
  rewrite (H x (or_introl eq_refl)). apply IH. intros; apply H; now right.
Qed.

Lemma filter_length_le (A : Type) (p : A -> bool) (l : list A) :
  length (filter p l) <= length l.
Proof.
  induction l as [|x l IH]; [constructor|]. cbn [filter].
  destruct (p x); cbn [length]; lia.
Qed.

Lemma line_findings_length (E : ReEngine) (self : ChanukaErrorExtractor)
  (file_path : Path) (patterns : list Pattern) (numbered : nat * str) :
  length (line_findings self file_path patterns numbered) <= length patterns.
Proof.
  unfold line_findings. destruct (500 <? length (snd numbered)); [cbn; lia|].
  induction patterns as [|pattern patterns IH]; [constructor|].
  cbn [flat_map]. rewrite length_app. unfold pattern_findings at 1.
  destruct (hits pattern (snd numbered)); [|cbn [length]; lia].
  destruct (in_comment _ && _); cbn [length]; lia.
Qed.


(** Of the findings of one rule collection on a file, those of one type
    at one line are no more than the collection has rules with that
    label. *)
Lemma lines_findings_at_line (E : ReEngine) (self : ChanukaErrorExtractor)
  (file_path : Path) (lines : list str) (patterns : list Pattern) (n : nat)
  (t : str) :
  length (filter (fun f => (Finding.line f =? n)
                           && str_eqb (Finding.error_type f) t)
                 (lines_findings self file_path lines patterns))
  <= length (filter (fun p => str_eqb (_get_category self p ++ name p) t)
                    patterns).
Proof.
  set (q := fun f => (Finding.line f =? n) && str_eqb (Finding.error_type f) t).
  set (K := fun ps : list Pattern =>
              length (filter (fun p => str_eqb (_get_category self p ++ name p) t)
                             ps)).
  assert (Hline : forall numbered,
             length (filter q (line_findings self file_path patterns numbered))
             <= K patterns).
  { intros numbered. unfold line_findings.
    destruct (500 <? length (snd numbered)); [cbn; lia|].
    unfold K. induction patterns as [|pattern patterns IH]; [constructor|].
    cbn [flat_map filter]. rewrite filter_app, length_app.
    unfold pattern_findings at 1.
    destruct (hits pattern (snd numbered));
      [|destruct (str_eqb _ t); cbn [filter length]; lia].
    destruct (in_comment _ && _);
      [destruct (str_eqb _ t); cbn [filter length]; lia|].
    cbn [filter]. unfold q at 1, rule_finding, error_dict.
    cbn [Finding.line Finding.error_type].
    destruct (fst numbered =? n); cbn [andb];
      destruct (str_eqb (_get_category self pattern ++ name pattern) t);
      cbn [length]; lia. }
  unfold lines_findings, enumerate.
  assert (H : forall start,
             length (filter q
                       (flat_map (line_findings self file_path patterns)
                          (combine (seq start (length lines)) lines)))
             <= if start <=? n then K patterns else 0).
  { induction lines as [|line lines IH]; intros start.
    - cbn. destruct (start <=? n); lia.
    - cbn [length seq combine flat_map]. rewrite filter_app, length_app.
      specialize (IH (S start)).
      destruct (Nat.eq_dec start n) as [->|Hne].
      + rewrite Nat.leb_refl.
        replace (S n <=? n) with false in IH
          by (symmetry; apply Nat.leb_gt; lia).
        pose proof (Hline (n, line)). lia.
      + rewrite filter_none.
        * cbn [length]. destruct (start <=? n) eqn:Hs.
          -- destruct (S start <=? n); lia.
          -- replace (S start <=? n) with false in IH; [lia|].
             symmetry. apply Nat.leb_gt. apply Nat.leb_gt in Hs. lia.
        * intros g Hg. apply line_findings_line in Hg. cbn [fst] in Hg.
          unfold q. rewrite Hg.
          replace (start =? n) with false
            by (symmetry; now apply Nat.eqb_neq).
          reflexivity. }
  specialize (H 1). fold (K patterns). destruct (1 <=? n); lia.
Qed.

Lemma stamp_filter (now : nat -> str) (q : Finding.t -> bool) (t : nat)
  (fs : list Finding.t) :
  (forall f time, q (Finding.set_timestamp f time) = q f) ->
  length (filter q (stamp now t fs)) = length (filter q fs).
Proof.
  intros Hq. revert t. induction fs as [|f fs IH]; intros t; [reflexivity|].
  cbn [stamp filter]. rewrite Hq.
  destruct (q f); cbn [length]; now rewrite IH.
Qed.

Lemma labels_of_table (E : ReEngine) (self : ChanukaErrorExtractor)
  (prefix t : str) (patterns : list Pattern) :
  (forall p, In p patterns -> _get_category self p = prefix) ->
  length (filter (fun p => str_eqb (_get_category self p ++ name p) t) patterns)
  = length (filter (fun label => str_eqb label t)
                   (map (app prefix) (map (@name E) patterns))).
Proof.
  induction patterns as [|p patterns IH]; intros H; [reflexivity|].
  cbn [map filter]. rewrite (H p (or_introl eq_refl)).
  destruct (str_eqb (prefix ++ name p) t); cbn [length];
    rewrite IH by (intros; apply H; now right); reflexivity.
Qed.

Lemma NoDup_at_most_once (t : str) (l : list str) :
  NoDup l -> length (filter (fun x => str_eqb x t) l) <= 1.
Proof.
  induction 1 as [|x l Hx Hl IH]; [cbn; lia|]. cbn [filter].
  destruct (str_eqb x t) eqn:Hxt; [|exact IH].
  apply str_eqb_eq in Hxt. subst x.
  rewrite filter_none; [cbn; lia|].
  intros y Hy. apply not_true_iff_false. intros Hyt.
  apply str_eqb_eq in Hyt. now subst.
Qed.

(** The labels of the constructor's 34 rules are 34 different texts. *)
Lemma labels_NoDup :
  NoDup (map (app (u "React - ")) (map (fun a => fst (fst (fst a))) react_rules)
         ++ map (app (u "TypeScript - "))
                (map (fun a => fst (fst (fst a))) typescript_rules)
         ++ map (app (u "Code Quality - "))
                (map (fun a => fst (fst (fst a))) common_rules)
         ++ map (app (u "Import/Export - "))
                (map (fun a => fst (fst (fst a))) import_rules)).
Proof.
  cbn [map app react_rules typescript_rules common_rules import_rules fst].
  repeat (constructor;
          [let H := fresh in
           intros H; apply str_in_In in H; vm_compute in H; discriminate|]).
  constructor.
Qed.

(** X14.  With the constructor's rules a finding type is reported once
    for a line, however often its rule hits in it and whichever handler
    reads the file: a handler adds at most one finding of a given type at
    a given line of the file. *)
Theorem X14_once_per_type_and_line (E : ReEngine) (now : nat -> str)
  (root : Path) (out : str) (self : ChanukaErrorExtractor) (file_path : Path)
  (content : read_outcome) (n : nat) (t : str) :
  same_config self (fst (__init__ root out)) ->
  1 <= n ->
  length (filter (fun f => (Finding.line f =? n)
                           && str_eqb (Finding.error_type f) t)
            (errors (check_typescript_file now self file_path content)))
  <= length (filter (fun f => (Finding.line f =? n)
                              && str_eqb (Finding.error_type f) t)
               (errors self)) + 1
  /\ length (filter (fun f => (Finding.line f =? n)
                              && str_eqb (Finding.error_type f) t)
               (errors (check_react_file now self file_path content)))
     <= length (filter (fun f => (Finding.line f =? n)
                                 && str_eqb (Finding.error_type f) t)
                  (errors self)) + 1.
Proof.
  intros (_ & _ & _ & Hts & Hrx & Hcm & Him) Hn.
  rewrite init_fields in Hts, Hrx, Hcm, Him.
  cbn [typescript_patterns react_patterns common_patterns import_patterns]
    in Hts, Hrx, Hcm, Him.
  rewrite check_typescript_file_add, check_react_file_add, !errors_add.
  rewrite !filter_app, !length_app.
  rewrite !stamp_filter by (intros [] ?; reflexivity).
  unfold handler_delta. destruct (read_text content) as [text|e].
  - cbn [found fst tables flat_map]. rewrite app_nil_r.
    rewrite !filter_app, !length_app.
    pose proof (lines_findings_at_line self file_path (split NL text)
                  (react_patterns self) n t) as Hr.
    pose proof (lines_findings_at_line self file_path (split NL text)
                  (typescript_patterns self) n t) as Ht.
    pose proof (lines_findings_at_line self file_path (split NL text)
                  (common_patterns self) n t) as Hc.
    pose proof (lines_findings_at_line self file_path (split NL text)
                  (import_patterns self) n t) as Hi.
    assert (Cat : forall pattern,
               (In pattern (typescript_patterns self) ->
                _get_category self pattern = u "TypeScript - ")
               /\ (In pattern (react_patterns self) ->
                   _get_category self pattern = u "React - ")
               /\ (In pattern (import_patterns self) ->
                   _get_category self pattern = u "Import/Export - ")
               /\ (In pattern (common_patterns self) ->
                   _get_category self pattern = u "Code Quality - "))
      by (intros pattern; now apply category_of_rule).
    rewrite (@labels_of_table E self (u "React - ") t (react_patterns self)) in Hr
      by (intros p; apply (Cat p)).
    rewrite (@labels_of_table E self (u "TypeScript - ") t (typescript_patterns self)) in Ht
      by (intros p; apply (Cat p)).
    rewrite (@labels_of_table E self (u "Code Quality - ") t (common_patterns self)) in Hc
      by (intros p; apply (Cat p)).
    rewrite (@labels_of_table E self (u "Import/Export - ") t (import_patterns self)) in Hi
      by (intros p; apply (Cat p)).
    rewrite Hrx in Hr at 2. rewrite Hts in Ht at 2.
    rewrite Hcm in Hc at 2. rewrite Him in Hi at 2.
    unfold _init_typescript_patterns, _init_react_patterns,
      _init_common_patterns, _init_import_patterns in Hr, Ht, Hc, Hi.
    rewrite Patterns_names in Hr, Ht, Hc, Hi.
    pose proof (NoDup_at_most_once t labels_NoDup) as Hone.
    rewrite !filter_app, !length_app in Hone.
    match type of Hone with
    | ?a + (?b + (?c + ?d)) <= 1 =>
        pose proof (Nat.le_trans _ _ a Hr (le_n _)) as Hr';
        pose proof (Nat.le_trans _ _ b Ht (le_n _)) as Ht';
        pose proof (Nat.le_trans _ _ c Hc (le_n _)) as Hc';
        pose proof (Nat.le_trans _ _ d Hi (le_n _)) as Hi'
    end.
    clear Hr Ht Hc Hi. lia.
  - cbn [found fst filter]. unfold read_failure_finding, error_dict.
    cbn [Finding.line].
    replace (0 =? n) with false by (symmetry; apply Nat.eqb_neq; lia).
    cbn [andb length]. lia.
Qed.

Lemma X14_once_per_type_and_line_witness :
  length (filter (fun f => (Finding.line f =? 1)
                           && str_eqb (Finding.error_type f)
                                      (u "Code Quality - eval"))
            (errors (check_typescript_file (E := PyRe ascii_only) stopped
                       (fresh (PyRe ascii_only)) [u "proj"; u "a.ts"]
                       (Bytes (bytes_of "eval(a); eval(b); eval(c)")))))
  <= length (filter (fun f => (Finding.line f =? 1)
                              && str_eqb (Finding.error_type f)
                                         (u "Code Quality - eval"))
               (errors (fresh (PyRe ascii_only)))) + 1.
Proof.
  apply (proj1 (@X14_once_per_type_and_line (PyRe ascii_only) stopped
                  [u "proj"] (u "pattern_errors.json")
                  (fresh (PyRe ascii_only)) [u "proj"; u "a.ts"]
                  (Bytes (bytes_of "eval(a); eval(b); eval(c)")) 1
                  (u "Code Quality - eval")
                  (conj eq_refl (conj eq_refl (conj eq_refl (conj eq_refl
                     (conj eq_refl (conj eq_refl eq_refl))))))
                  (le_n 1))).
Defined.

Lemma Patterns_severities (E : ReEngine) (args : list (str * str * str * str)) :
  map (@severity E) (fst (Patterns args)) = map (fun a => snd (fst a)) args.
Proof.
  rewrite <- (Patterns_args E args) at 2. rewrite map_map. reflexivity.
Qed.

Lemma known_severity (args : list (str * str * str * str)) (s : str) :
  forallb (fun a => str_in (snd (fst a))
                           [u "critical"; u "error"; u "warning"; u "info"])
          args = true ->
  In s (map (fun a => snd (fst a)) args) ->
  In s [u "critical"; u "error"; u "warning"; u "info"].
Proof.
  intros Hall Hs. apply in_map_iff in Hs as (a & <- & Ha).
  rewrite forallb_forall in Hall. apply str_in_In. now apply Hall.
Qed.

(** X15.  With the constructor's rules every finding a scan records is
    critical, an error, a warning or an information, the read failures
    being errors: the rank that [save_to_json] keeps for any other
    severity is never used, and the four severities the summary shows
    are all there are. *)
Theorem X15_known_severities (E : ReEngine) (now : nat -> str) (root : Path)
  (out : str) (self : ChanukaErrorExtractor) (tree : entry) (f : Finding.t) :
  same_config self (fst (__init__ root out)) ->
  In f (errors (scan_codebase now self tree)) ->
  In f (errors self)
  \/ (In (Finding.severity f) [u "critical"; u "error"; u "warning"; u "info"]
      /\ severity_rank (Finding.severity f) <= 3).
Proof.
  intros (_ & _ & _ & Hts & Hrx & Hcm & Him) H.
  rewrite init_fields in Hts, Hrx, Hcm, Him.
  cbn [typescript_patterns react_patterns common_patterns import_patterns]
    in Hts, Hrx, Hcm, Him.
  apply scan_provenance in H
    as [H|(root' & file & content & k & g & time & _ & _ & Hg & ->)];
    [now left|right].
  assert (Hsev : In (Finding.severity (Finding.set_timestamp g time))
                    [u "critical"; u "error"; u "warning"; u "info"]).
  { apply found_handler_delta in Hg
      as [(e & _ & ->)
         |(? & patterns & ? & ? & pattern & _ & Hps & Hp & _ & _ & _ & _ & ->)].
    - right. left. reflexivity.
    - change (In (severity pattern)
                 [u "critical"; u "error"; u "warning"; u "info"]).
      assert (Hrules : exists rules,
                 In rules [typescript_rules; react_rules; common_rules;
                           import_rules]
                 /\ patterns = fst (Patterns rules)).
      { destruct k; cbn [tables In] in Hps.
        - destruct Hps as [<-|[<-|[<-|[]]]];
            [exists typescript_rules|exists common_rules
            |exists import_rules];
            (split; [cbn; auto|assumption]).
        - destruct Hps as [<-|[<-|[<-|[<-|[]]]]];
            [exists react_rules|exists typescript_rules|exists common_rules
            |exists import_rules];
            (split; [cbn; auto|assumption]). }
      destruct Hrules as (rules & Hrules & ->).
      apply (in_map (@severity E)) in Hp. rewrite Patterns_severities in Hp.
      apply (known_severity rules); [|assumption].
      cbn in Hrules. decompose [or] Hrules; try contradiction; subst rules;
        vm_compute; reflexivity. }
  split; [assumption|].
  destruct Hsev as [<-|[<-|[<-|[<-|[]]]]]; vm_compute; lia.
Qed.

Lemma X15_known_severities_witness :
  In (Finding.make (u "/proj/server/index.ts") (u "server/index.ts")
        (u "server") (u "Code Quality - TODO") (u "warning")
        (u "TODO comment") 1 0 (stopped 0) (u "// TODO fix this"))
     (errors (fresh (PyRe ascii_only)))
  \/ (In (u "warning") [u "critical"; u "error"; u "warning"; u "info"]
      /\ severity_rank (u "warning") <= 3).
Proof.
  apply (@X15_known_severities (PyRe ascii_only) stopped [u "proj"]
           (u "pattern_errors.json") (fresh (PyRe ascii_only)) monorepo
           (Finding.make (u "/proj/server/index.ts") (u "server/index.ts")
              (u "server") (u "Code Quality - TODO") (u "warning")
              (u "TODO comment") 1 0 (stopped 0) (u "// TODO fix this"))).
  - repeat split.
  - vm_compute. auto.
Defined.
